(** * Ingestion and analytics core of the point-of-sale dashboard

    A shallow embedding of
    - [functions/src/importSalesXlsx.ts] (the spreadsheet import into the
      document store: row normalisation, slugs, batched writes), and
    - [pos-dashboard-backend/db/schema.sql] and
      [pos-dashboard-backend/src/server.ts] (the [pos_sales_people] split
      view and the outlier and low-margin analytics queries).

    Strings are [String.string] over ASCII.  SQL [NUMERIC] values are
    exact rationals with PostgreSQL's extra [NaN] value; the divisions of
    the split view round their quotients as PostgreSQL's [numeric_div]
    does.  The outlier query computes its quartiles and threshold in
    [double precision] (IEEE binary64, [SpecFloat]).  JS numbers are
    rationals with [NaN] and the two infinities. *)

From Stdlib Require Import String Ascii List Bool Arith ZArith QArith Qfield Qabs Lia Permutation.
From Stdlib Require SpecFloat.
Import ListNotations.
Open Scope nat_scope.
Open Scope string_scope.

(* ------------------------------------------------------------------ *)
(** ** Characters *)

Definition is_space (c : ascii) : bool :=
  match nat_of_ascii c with
  | 9 | 10 | 11 | 12 | 13 | 32 => true
  | _ => false
  end.

Definition is_digit (c : ascii) : bool :=
  let n := nat_of_ascii c in Nat.leb 48 n && Nat.leb n 57.

Definition to_lower (c : ascii) : ascii :=
  let n := nat_of_ascii c in
  if Nat.leb 65 n && Nat.leb n 90 then ascii_of_nat (n + 32) else c.

Fixpoint str_lower (s : string) : string :=
  match s with
  | EmptyString => EmptyString
  | String c r => String (to_lower c) (str_lower r)
  end.

Fixpoint sdrop (n : nat) (s : string) : string :=
  match n, s with
  | O, _ => s
  | S k, EmptyString => EmptyString
  | S k, String _ r => sdrop k r
  end.

(** Number of leading whitespace characters ([\s] / [[:space:]]). *)
Fixpoint lead_ws (s : string) : nat :=
  match s with
  | String c r => if is_space c then S (lead_ws r) else O
  | EmptyString => O
  end.

Definition snoc (s : string) (c : ascii) : string := s ++ String c EmptyString.

Fixpoint drop_while (p : ascii -> bool) (l : list ascii) : list ascii :=
  match l with
  | [] => []
  | c :: r => if p c then drop_while p r else l
  end.

(** Strip the characters satisfying [p] from both ends. *)
Definition strip (p : ascii -> bool) (s : string) : string :=
  string_of_list_ascii
    (rev (drop_while p (rev (drop_while p (list_ascii_of_string s))))).

(** JavaScript [String.prototype.trim] (ASCII white space and line
    terminators). *)
Definition js_trim (s : string) : string := strip is_space s.

(** PostgreSQL [trim(s)]: removes spaces only. *)
Definition sql_trim (s : string) : string :=
  strip (fun c => Ascii.eqb c " "%char) s.

(* ------------------------------------------------------------------ *)
(** ** The participant split of the [pos_sales_people] view

    [regexp_replace(COALESCE(salesperson, ''), E'\\s*&\\s*', ' and ', 'g')]
    and then [regexp_split_to_array(_, E'\\s+and\\s+', 'i')].  Each regular
    expression is matched leftmost-longest; for these two patterns the
    match starting at a given position is unique, and its length is
    computed by [amp_len] and [and_len].  A scan then walks the string,
    skipping the characters of a match once it has been found. *)

(** Length of the match of [\s*&\s*] at the start of [s]. *)
Definition amp_len (s : string) : option nat :=
  let w := lead_ws s in
  match sdrop w s with
  | String c r => if Ascii.eqb c "&"%char then Some (w + 1 + lead_ws r) else None
  | EmptyString => None
  end.

(** Length of the match of [\s+and\s+] (case-insensitive) at the start of [s]. *)
Definition and_len (s : string) : option nat :=
  let w := lead_ws s in
  if Nat.eqb w 0 then None else
  match sdrop w s with
  | String a (String n (String d r)) =>
      if Ascii.eqb (to_lower a) "a"%char && Ascii.eqb (to_lower n) "n"%char
         && Ascii.eqb (to_lower d) "d"%char
      then let w2 := lead_ws r in if Nat.eqb w2 0 then None else Some (w + 3 + w2)
      else None
  | _ => None
  end.

Fixpoint replace_amp_scan (skip : nat) (s : string) : string :=
  match s with
  | EmptyString => EmptyString
  | String c r =>
      match skip with
      | S k => replace_amp_scan k r
      | O =>
          match amp_len s with
          | Some (S k) => " and " ++ replace_amp_scan k r
          | _ => String c (replace_amp_scan 0 r)
          end
      end
  end.

Definition regexp_replace_amp (s : string) : string := replace_amp_scan 0 s.

Fixpoint split_and_scan (skip : nat) (cur : string) (s : string) : list string :=
  match s with
  | EmptyString => [cur]
  | String c r =>
      match skip with
      | S k => split_and_scan k cur r
      | O =>
          match and_len s with
          | Some (S k) => cur :: split_and_scan k "" r
          | _ => split_and_scan 0 (snoc cur c) r
          end
      end
  end.

Definition regexp_split_and (s : string) : list string := split_and_scan 0 "" s.

(** The [people] array of the view's [base] CTE. *)
Definition view_people (salesperson : option string) : list string :=
  regexp_split_and
    (regexp_replace_amp (match salesperson with Some s => s | None => "" end)).

(** [NULLIF(trim(p.person), '')]. *)
Definition nullif_empty (s : string) : option string :=
  if String.eqb s "" then None else Some s.

Definition view_salesperson (person : string) : option string :=
  nullif_empty (sql_trim person).

(** The [salesperson] column of the view's rows for one sale. *)
Definition view_participants (salesperson : option string) : list (option string) :=
  map view_salesperson (view_people salesperson).

(* ------------------------------------------------------------------ *)
(** ** The participant split of the import

    [salesPersonString.split(" AND ").map((name) => name.trim())]. *)

Fixpoint js_split_scan (sep : string) (skip : nat) (cur : string) (s : string)
  : list string :=
  match s with
  | EmptyString => [cur]
  | String c r =>
      match skip with
      | S k => js_split_scan sep k cur r
      | O =>
          if negb (String.eqb sep "") && String.prefix sep s
          then cur :: js_split_scan sep (String.length sep - 1) "" r
          else js_split_scan sep 0 (snoc cur c) r
      end
  end.

(** [s.split(sep)] for a non-empty separator. *)
Definition js_split (s sep : string) : list string := js_split_scan sep 0 "" s.

Definition import_salespeople (salesPersonString : string) : list string :=
  map js_trim (js_split salesPersonString " AND ").

(* ------------------------------------------------------------------ *)
(** ** SQL values

    A [NUMERIC] value is a rational or PostgreSQL's [NaN]; [None] is SQL
    [NULL].  PostgreSQL orders [NaN] above every other value and treats
    [NaN = NaN] as true (so that numerics can be sorted and indexed). *)

Inductive pgnum : Type :=
| PNaN
| PNum (q : Q).

Definition pg_eq (a b : pgnum) : bool :=
  match a, b with
  | PNaN, PNaN => true
  | PNum x, PNum y => Qeq_bool x y
  | _, _ => false
  end.

Definition pg_lt (a b : pgnum) : bool :=
  match a, b with
  | PNum x, PNum y => negb (Qle_bool y x)
  | PNum _, PNaN => true
  | PNaN, _ => false
  end.

Definition pg_le (a b : pgnum) : bool := pg_lt a b || pg_eq a b.

Definition pg_add (a b : pgnum) : pgnum :=
  match a, b with PNum x, PNum y => PNum (x + y) | _, _ => PNaN end.

Definition pg_sub (a b : pgnum) : pgnum :=
  match a, b with PNum x, PNum y => PNum (x - y) | _, _ => PNaN end.

Definition pg_mul (a b : pgnum) : pgnum :=
  match a, b with PNum x, PNum y => PNum (x * y) | _, _ => PNaN end.

(** Evaluation of an SQL expression that may raise [division_by_zero]. *)
Inductive eval (A : Type) : Type :=
| Val (a : A)
| DivisionByZero.
Arguments Val {A} a.
Arguments DivisionByZero {A}.

Definition eval_bind {A B} (m : eval A) (k : A -> eval B) : eval B :=
  match m with Val a => k a | DivisionByZero => DivisionByZero end.

Notation "'let!' x := m 'in' k" := (eval_bind m (fun x => k))
  (at level 200, x name, m at level 100, right associativity).

Fixpoint eval_map {A B} (f : A -> eval B) (l : list A) : eval (list B) :=
  match l with
  | [] => Val []
  | a :: r => let! b := f a in let! bs := eval_map f r in Val (b :: bs)
  end.

(** [numeric / numeric] with its exact quotient: [NaN] absorbs, a zero
    divisor raises.  PostgreSQL rounds the quotient to the scale
    [select_div_scale] picks; [numeric_div] below does so. *)
Definition pg_div (a b : pgnum) : eval pgnum :=
  match a, b with
  | PNum x, PNum y => if Qeq_bool y 0 then DivisionByZero else Val (PNum (x / y))
  | _, _ => Val PNaN
  end.

Definition sql_div (a b : option pgnum) : eval (option pgnum) :=
  match a, b with
  | Some x, Some y => let! z := pg_div x y in Val (Some z)
  | _, _ => Val None
  end.

(** *** Rounded division of [NUMERIC] values ([numeric_div] in numeric.c)

    [floor(log_10000 x)] for [x > 0]: the [weight] of the leading
    base-10000 digit of a [NumericVar] holding [x]. *)
Fixpoint numeric_weight_from (fuel : nat) (x : Q) (w : Z) : Z :=
  match fuel with
  | O => w
  | S f =>
      if negb (Qle_bool (Qpower 10000 w) x) then numeric_weight_from f x (w - 1)
      else if Qle_bool (Qpower 10000 (w + 1)) x then numeric_weight_from f x (w + 1)
      else w
  end.

Definition numeric_weight (x : Q) : Z :=
  numeric_weight_from (S (Pos.size_nat (Z.to_pos (Z.abs (Qnum x))) + Pos.size_nat (Qden x)))
    (Qabs x) 0.

(** The leading base-10000 digit of [|x|]. *)
Definition numeric_firstdigit (x : Q) : Z :=
  let z := (Qabs x / Qpower 10000 (numeric_weight x))%Q in (Qnum z / Zpos (Qden z))%Z.

(** The display scale of a value: the number of decimals of its shortest
    decimal form, at most [NUMERIC_MAX_DISPLAY_SCALE].  A value stored with
    trailing zeros ([100.00]) carries a larger display scale, which can only
    raise the scale of a quotient. *)
Fixpoint dscale_from (fuel d : nat) (x : Q) : nat :=
  match fuel with
  | O => d
  | S f =>
      if Z.eqb (Z.modulo (Qnum x * 10 ^ Z.of_nat d) (Zpos (Qden x))) 0 then d
      else dscale_from f (S d) x
  end.

Definition numeric_dscale (x : Q) : nat := dscale_from 1000 0 x.

(** [select_div_scale]: at least [NUMERIC_MIN_SIG_DIGITS] (16) significant
    digits in the quotient, and no fewer decimals than either operand. *)
Definition select_div_scale (x y : Q) : nat :=
  let '(w1, d1) := if Qeq_bool x 0 then (0%Z, 0%Z) else (numeric_weight x, numeric_firstdigit x) in
  let '(w2, d2) := if Qeq_bool y 0 then (0%Z, 0%Z) else (numeric_weight y, numeric_firstdigit y) in
  let qweight := (w1 - w2 - (if Z.leb d1 d2 then 1 else 0))%Z in
  let rscale := Z.max (16 - qweight * 4) (Z.max (Z.of_nat (numeric_dscale x)) (Z.of_nat (numeric_dscale y))) in
  Z.to_nat (Z.min (Z.max rscale 0) 1000).

(** [round_var]: [x] rounded to [r] decimals, halves away from zero (the
    value only: a [Q] in lowest terms, without the display scale [r]). *)
Definition numeric_round (r : nat) (x : Q) : Q :=
  let p := (10 ^ Z.of_nat r)%Z in
  let n := (Qnum x * p)%Z in
  let d := Zpos (Qden x) in
  let t := ((2 * Z.abs n + d) / (2 * d))%Z in
  Qred ((Z.sgn n * t) # Z.to_pos p).

(** Half a unit in the [r]-th decimal place. *)
Definition half_unit (r : nat) : Q := 1 # Z.to_pos (2 * 10 ^ Z.of_nat r).

(** [numeric / numeric]: [NaN] absorbs, a zero divisor raises, and the
    quotient is rounded to [select_div_scale] decimals. *)
Definition numeric_div (a b : pgnum) : eval pgnum :=
  match a, b with
  | PNum x, PNum y =>
      if Qeq_bool y 0 then DivisionByZero
      else Val (PNum (numeric_round (select_div_scale x y) (x / y)))
  | _, _ => Val PNaN
  end.

Definition sql_numeric_div (a b : option pgnum) : eval (option pgnum) :=
  match a, b with
  | Some x, Some y => let! z := numeric_div x y in Val (Some z)
  | _, _ => Val None
  end.

(** Three-valued logic: [None] is UNKNOWN. *)
Definition sql_or (a b : option bool) : option bool :=
  match a, b with
  | Some true, _ | _, Some true => Some true
  | Some false, Some false => Some false
  | _, _ => None
  end.

Definition sql_and (a b : option bool) : option bool :=
  match a, b with
  | Some false, _ | _, Some false => Some false
  | Some true, Some true => Some true
  | _, _ => None
  end.

Definition sql_not (a : option bool) : option bool := option_map negb a.

Definition is_null {A} (a : option A) : option bool :=
  Some (match a with None => true | Some _ => false end).

Definition is_not_null {A} (a : option A) : option bool := sql_not (is_null a).

Definition sql_cmp (f : pgnum -> pgnum -> bool) (a b : option pgnum) : option bool :=
  match a, b with Some x, Some y => Some (f x y) | _, _ => None end.

Definition sql_eq := sql_cmp pg_eq.
Definition sql_ne := sql_cmp (fun x y => negb (pg_eq x y)).
Definition sql_lt := sql_cmp pg_lt.
Definition sql_gt := sql_cmp (fun x y => pg_lt y x).
Definition sql_le := sql_cmp pg_le.

(** [CASE WHEN c THEN a ELSE b END]: only a TRUE condition selects [a]. *)
Definition sql_case {A} (c : option bool) (a b : A) : A :=
  match c with Some true => a | _ => b end.

Definition num0 : option pgnum := Some (PNum 0).

(** The read-site guard [CASE WHEN x IS NULL OR x <> x THEN 0 ELSE x END]
    ([SAFE_GRAND_TOTAL] and its siblings in server.ts, and the [base] CTE of
    [pos_sales_people]). *)
Definition safe_num (x : option pgnum) : option pgnum :=
  sql_case (sql_or (is_null x) (sql_ne x x)) num0 x.

(** [SUM(e)]: NULLs are skipped, the sum of no non-NULL value is NULL. *)
Definition sql_sum (l : list (option pgnum)) : option pgnum :=
  fold_left (fun acc v =>
    match acc, v with
    | None, _ => v
    | Some a, None => Some a
    | Some a, Some b => Some (pg_add a b)
    end) l None.

(* ------------------------------------------------------------------ *)
(** ** Table [pos_sales] and view [pos_sales_people] *)

Record Sale : Type := {
  sale_id : string;
  sale_date : option Z;            (* [DATE]: days since 2000-01-01 *)
  salesperson : option string;
  location : option string;
  receipt_no : option string;
  customer_name : option string;
  grand_total : option pgnum;
  total_finance_amt : option pgnum;
  finance_fee : option pgnum;
  finance_balance : option pgnum;
  cost : option pgnum;
  profit : option pgnum;
  gross_margin : option pgnum;
  raw_source_file : option string
}.

Record SplitRow : Type := {
  sp_sale_id : string;
  sp_sale_date : option Z;
  sp_location : option string;
  sp_salesperson : option string;
  grand_total_split : option pgnum;
  profit_split : option pgnum;
  total_finance_amt_split : option pgnum;
  finance_fee_split : option pgnum;
  finance_balance_split : option pgnum
}.

(** The five split financial fields. *)
Inductive field : Type :=
| FGrandTotal | FProfit | FTotalFinanceAmt | FFinanceFee | FFinanceBalance.

Definition sale_field (s : Sale) (f : field) : option pgnum :=
  match f with
  | FGrandTotal => grand_total s
  | FProfit => profit s
  | FTotalFinanceAmt => total_finance_amt s
  | FFinanceFee => finance_fee s
  | FFinanceBalance => finance_balance s
  end.

Definition split_field (r : SplitRow) (f : field) : option pgnum :=
  match f with
  | FGrandTotal => grand_total_split r
  | FProfit => profit_split r
  | FTotalFinanceAmt => total_finance_amt_split r
  | FFinanceFee => finance_fee_split r
  | FFinanceBalance => finance_balance_split r
  end.

(** [NULLIF(array_length(people, 1), 0)]. *)
Definition people_count_nz (people : list string) : option pgnum :=
  match length people with
  | O => None
  | n => Some (PNum (inject_Z (Z.of_nat n)))
  end.

(** The rows of [pos_sales_people] for one sale of [pos_sales]: the
    [base] CTE coerces the fields and splits the salesperson, [expanded]
    unnests the array, and the outer query divides by the array length. *)
Definition sales_people_rows (s : Sale) : eval (list SplitRow) :=
  let people := view_people (salesperson s) in
  let pc := people_count_nz people in
  eval_map (fun person =>
    let! gt := sql_numeric_div (safe_num (grand_total s)) pc in
    let! pr := sql_numeric_div (safe_num (profit s)) pc in
    let! tf := sql_numeric_div (safe_num (total_finance_amt s)) pc in
    let! ff := sql_numeric_div (safe_num (finance_fee s)) pc in
    let! fb := sql_numeric_div (safe_num (finance_balance s)) pc in
    Val {| sp_sale_id := sale_id s; sp_sale_date := sale_date s;
           sp_location := location s; sp_salesperson := view_salesperson person;
           grand_total_split := gt; profit_split := pr;
           total_finance_amt_split := tf; finance_fee_split := ff;
           finance_balance_split := fb |}) people.

Definition pos_sales_people (tbl : list Sale) : eval (list SplitRow) :=
  let! rs := eval_map sales_people_rows tbl in Val (concat rs).

Definition mk_sale (id : string) (sp : option string) (gt pr : option pgnum) : Sale :=
  {| sale_id := id; sale_date := Some 0%Z; salesperson := sp; location := None;
     receipt_no := None; customer_name := None; grand_total := gt;
     total_finance_amt := None; finance_fee := None; finance_balance := None;
     cost := None; profit := pr; gross_margin := None; raw_source_file := None |}.

(** The quotient of a value by a non-zero row count, as [numeric_div]
    rounds it. *)
Definition share (v : option pgnum) (k : Q) : option pgnum :=
  match v with
  | Some (PNum x) => Some (PNum (numeric_round (select_div_scale x k) (x / k)))
  | Some PNaN => Some PNaN
  | None => None
  end.

(** The row [pos_sales_people] emits for one element of the array, when
    the array has [k] elements. *)
Definition split_row (s : Sale) (k : Q) (person : string) : SplitRow :=
  {| sp_sale_id := sale_id s; sp_sale_date := sale_date s;
     sp_location := location s; sp_salesperson := view_salesperson person;
     grand_total_split := share (safe_num (grand_total s)) k;
     profit_split := share (safe_num (profit s)) k;
     total_finance_amt_split := share (safe_num (total_finance_amt s)) k;
     finance_fee_split := share (safe_num (finance_fee s)) k;
     finance_balance_split := share (safe_num (finance_balance s)) k |}.

Definition is_named (sp : option string) : bool :=
  match sp with Some _ => true | None => false end.

(** A name as it appears on either side of a separator: non-empty, with
    no white space and no ampersand. *)
Definition name_char (c : ascii) : bool :=
  negb (is_space c) && negb (Ascii.eqb c "&"%char).

Definition plain_name (a : string) : bool :=
  negb (String.eqb a "") && forallb name_char (list_ascii_of_string a).

(* ------------------------------------------------------------------ *)
(** ** Spreadsheet cells and JavaScript coercions

    [XLSX.utils.sheet_to_json(ws, { defval: null })] yields one object per
    row; an empty cell is [null], an absent header [undefined].  Without the
    [cellDates] option no cell is a [Date]. *)

Inductive jsnum : Type :=
| JNum (q : Q)
| JNaN
| JInf (positive : bool).

Inductive cell : Type :=
| CUndef
| CNull
| CStr (s : string)
| CNum (n : jsnum)
| CBool (b : bool).

Definition Row := list (string * cell).

(** [r[key]]. *)
Fixpoint lookup (r : Row) (key : string) : cell :=
  match r with
  | [] => CUndef
  | (k, v) :: r' => if String.eqb k key then v else lookup r' key
  end.

(** [a ?? b]. *)
Definition nullish (a b : cell) : cell :=
  match a with CUndef | CNull => b | _ => a end.

(** [x || 0] on a number. *)
Definition or_zero (n : jsnum) : jsnum :=
  match n with
  | JNaN => JNum 0
  | JNum q => if Qeq_bool q 0 then JNum 0 else JNum q
  | JInf b => JInf b
  end.

(** ASCII digits of a string, at most [k] of them, and the rest. *)
Fixpoint take_digits (k : nat) (s : string) : string * string :=
  match k, s with
  | S k', String c r =>
      if is_digit c then let (ds, rest) := take_digits k' r in (String c ds, rest)
      else ("", s)
  | _, _ => ("", s)
  end.

(** [s.match(/^(\d{1,2})\/(\d{1,2})\/(\d{4})$/)], as its three groups. *)
Definition match_mdy (s : string) : option (string * string * string) :=
  let (mm, r1) := take_digits 2 s in
  if Nat.eqb (String.length mm) 0 then None else
  match r1 with
  | String sl1 r2 =>
      if negb (Ascii.eqb sl1 "/"%char) then None else
      let (dd, r3) := take_digits 2 r2 in
      if Nat.eqb (String.length dd) 0 then None else
      match r3 with
      | String sl2 r4 =>
          if negb (Ascii.eqb sl2 "/"%char) then None else
          let (yyyy, r5) := take_digits 4 r4 in
          if Nat.eqb (String.length yyyy) 4 && String.eqb r5 "" then Some (mm, dd, yyyy)
          else None
      | EmptyString => None
      end
  | EmptyString => None
  end.

(** [s.padStart(2, "0")]. *)
Definition pad2 (s : string) : string :=
  match String.length s with
  | 0 => "00"
  | 1 => "0" ++ s
  | _ => s
  end.

Definition to_safe_doc_id (id : string) : string :=
  string_of_list_ascii
    (map (fun c => if Ascii.eqb c "/"%char then "-"%char else c) (list_ascii_of_string id)).

(** [slugify]: lower-case, trim, [&] to [and], keep [[a-z0-9\s-]], collapse
    runs of white space and hyphens to one hyphen, drop a leading and a
    trailing hyphen. *)
Definition is_lower_alnum (c : ascii) : bool :=
  let n := nat_of_ascii c in (Nat.leb 97 n && Nat.leb n 122) || is_digit c.

Fixpoint replace_amp_and (s : string) : string :=
  match s with
  | EmptyString => EmptyString
  | String c r => if Ascii.eqb c "&"%char then "and" ++ replace_amp_and r
                  else String c (replace_amp_and r)
  end.

Fixpoint keep_slug_chars (s : string) : string :=
  match s with
  | EmptyString => EmptyString
  | String c r =>
      if is_lower_alnum c || is_space c || Ascii.eqb c "-"%char
      then String c (keep_slug_chars r) else keep_slug_chars r
  end.

Definition is_sep (c : ascii) : bool := is_space c || Ascii.eqb c "-"%char.

(** [.replace(/[\s-]+/g, "-")]; [in_run] holds inside a run already replaced. *)
Fixpoint collapse_seps (in_run : bool) (s : string) : string :=
  match s with
  | EmptyString => EmptyString
  | String c r =>
      if is_sep c then (if in_run then collapse_seps true r else String "-" (collapse_seps true r))
      else String c (collapse_seps false r)
  end.

Definition drop_edge_hyphens (s : string) : string :=
  let s1 := match s with String "-" r => r | _ => s end in
  string_of_list_ascii
    (rev (match rev (list_ascii_of_string s1) with "-"%char :: r => r | l => l end)).

Definition slugify (s : string) : string :=
  if String.eqb s "" then "" else
  drop_edge_hyphens (collapse_seps false (keep_slug_chars (replace_amp_and (js_trim (str_lower s))))).

Definition is_sales_folder (filePath : string) : bool :=
  String.prefix "sales/" (str_lower filePath).

Definition ends_with (suffix s : string) : bool :=
  String.prefix (string_of_list_ascii (rev (list_ascii_of_string suffix)))
                (string_of_list_ascii (rev (list_ascii_of_string s))).

Definition MAX_BATCH_OPS : nat := 450.


(** *** The import handler

    [Number] on strings (ECMAScript [StringToNumber]) and [Number::toString]
    are left as parameters of the section: every statement below holds for
    any choice of them. *)

Section Ingest.

Variable StringToNumber : string -> jsnum.
Variable NumberToString : jsnum -> string.

(** [Number(v)]. *)
Definition js_Number (v : cell) : jsnum :=
  match v with
  | CUndef => JNaN
  | CNull => JNum 0
  | CStr s => StringToNumber s
  | CNum n => n
  | CBool b => JNum (if b then 1 else 0)
  end.

(** [String(v)] and [v.toString()]. *)
Definition js_String (v : cell) : string :=
  match v with
  | CUndef => "undefined"
  | CNull => "null"
  | CStr s => s
  | CNum n => NumberToString n
  | CBool b => if b then "true" else "false"
  end.

Definition truthy (v : cell) : bool :=
  match v with
  | CUndef | CNull => false
  | CStr s => negb (String.eqb s "")
  | CNum (JNum q) => negb (Qeq_bool q 0)
  | CNum JNaN => false
  | CNum (JInf _) => true
  | CBool b => b
  end.

(** [ymdFromExcelDate] (no cell is a [Date], see above). *)
Definition ymdFromExcelDate (v : cell) : option string :=
  if negb (truthy v) then None else
  match match_mdy (js_trim (js_String v)) with
  | Some (m, d, y) => Some (y ++ "-" ++ pad2 m ++ "-" ++ pad2 d)
  | None => None
  end.

(** The fields the loop body reads from one row. *)
Record NormRow : Type := {
  dateOfSale : string;
  storeLocation : string;
  salesPersonString : string;
  salesId : string;
  n_grandTotal : jsnum;
  n_cost : jsnum;
  n_financeFee : jsnum;
  n_profit : jsnum
}.

(** [Number(r[key] ?? 0) || 0]. *)
Definition money (r : Row) (key : string) : jsnum :=
  or_zero (js_Number (nullish (lookup r key) (CNum (JNum 0)))).

(** The first part of the loop body, up to the [continue] of a row that
    lacks a date, a location or an id. *)
Definition normalize (r : Row) : option NormRow :=
  let date := ymdFromExcelDate (lookup r "Date of Sale") in
  let loc := js_trim (js_String (nullish (lookup r "Sales Location") (CStr ""))) in
  let person := js_trim (js_String (nullish (lookup r "Sales Person") (CStr "Unassigned"))) in
  let id := js_trim (js_String (nullish (lookup r "Sales#") (CStr ""))) in
  match date with
  | None => None
  | Some d =>
      if String.eqb loc "" || String.eqb id "" then None
      else Some {| dateOfSale := d; storeLocation := loc; salesPersonString := person;
                   salesId := id; n_grandTotal := money r "Grand Total";
                   n_cost := money r "Cost"; n_financeFee := money r "Finance Fee";
                   n_profit := money r "Profit" |}
  end.

(** The [sales_transactions] document (its [updatedAt] is the server
    timestamp sentinel, the same for every write, and is left out). *)
Record TxnDoc : Type := {
  t_salesId : string;
  t_date : string;
  t_storeId : string;
  t_storeName : string;
  t_salespeople : list string;
  t_grandTotal : jsnum;
  t_cost : jsnum;
  t_financeFee : jsnum;
  t_profit : jsnum;
  t_sourceFile : string
}.

Record StoreDoc : Type := { st_name : string; st_active : bool }.

(** A write queued in a batch: [batch.set(ref, data, { merge: true })] for
    a store, [batch.set(ref, data)] for a transaction. *)
Inductive Op : Type :=
| SetStore (storeId : string) (d : StoreDoc)
| SetTxn (docId : string) (d : TxnDoc).

Definition txn_doc (filePath : string) (n : NormRow) : TxnDoc :=
  {| t_salesId := salesId n; t_date := dateOfSale n;
     t_storeId := slugify (storeLocation n); t_storeName := storeLocation n;
     t_salespeople := import_salespeople (salesPersonString n);
     t_grandTotal := n_grandTotal n; t_cost := n_cost n;
     t_financeFee := n_financeFee n; t_profit := n_profit n;
     t_sourceFile := filePath |}.

Definition txn_op (filePath : string) (n : NormRow) : Op :=
  SetTxn (to_safe_doc_id (salesId n)) (txn_doc filePath n).

(** The handler's local state.  [committed] is the sequence of batches
    passed to [batch.commit()], oldest first: the handler's only effect on
    the store. *)
Record St : Type := {
  batch : list Op;
  batchOps : nat;
  seenStores : list string;
  rowCount : nat;
  validRowCount : nat;
  skippedRowCount : nat;
  totalWrites : nat;
  committed : list (list Op)
}.

Definition init_st : St :=
  {| batch := []; batchOps := 0; seenStores := []; rowCount := 0; validRowCount := 0;
     skippedRowCount := 0; totalWrites := 0; committed := [] |}.

Definition commitBatch (st : St) : St :=
  if Nat.eqb (batchOps st) 0 then st else
  {| batch := []; batchOps := 0; seenStores := seenStores st; rowCount := rowCount st;
     validRowCount := validRowCount st; skippedRowCount := skippedRowCount st;
     totalWrites := totalWrites st + batchOps st;
     committed := committed st ++ [batch st] |}.

(** Queue one write: [batch.set(...)] followed by [batchOps++]. *)
Definition queue (st : St) (op : Op) : St :=
  {| batch := batch st ++ [op]; batchOps := S (batchOps st); seenStores := seenStores st;
     rowCount := rowCount st; validRowCount := validRowCount st;
     skippedRowCount := skippedRowCount st; totalWrites := totalWrites st;
     committed := committed st |}.

Definition set_counters (st : St) (rc vc sc : nat) : St :=
  {| batch := batch st; batchOps := batchOps st; seenStores := seenStores st;
     rowCount := rc; validRowCount := vc; skippedRowCount := sc;
     totalWrites := totalWrites st; committed := committed st |}.

Definition add_seen (st : St) (id : string) : St :=
  {| batch := batch st; batchOps := batchOps st; seenStores := seenStores st ++ [id];
     rowCount := rowCount st; validRowCount := validRowCount st;
     skippedRowCount := skippedRowCount st; totalWrites := totalWrites st;
     committed := committed st |}.

(** One iteration of [for (const r of rows)]. *)
Definition process_row (filePath : string) (st : St) (r : Row) : St :=
  let st := set_counters st (S (rowCount st)) (validRowCount st) (skippedRowCount st) in
  match normalize r with
  | None => set_counters st (rowCount st) (validRowCount st) (S (skippedRowCount st))
  | Some n =>
      let st := set_counters st (rowCount st) (S (validRowCount st)) (skippedRowCount st) in
      let storeId := slugify (storeLocation n) in
      let st :=
        if negb (String.eqb storeId "") && negb (existsb (String.eqb storeId) (seenStores st))
        then queue (add_seen st storeId)
                   (SetStore storeId {| st_name := storeLocation n; st_active := true |})
        else st in
      let st := queue st (txn_op filePath n) in
      if Nat.leb MAX_BATCH_OPS (batchOps st) then commitBatch st else st
  end.

Inductive Outcome : Type :=
| Skipped
| Completed (st : St).

(** [importSalesXlsx] on the rows of the selected sheet. *)
Definition importSalesXlsx (filePath : string) (rows : list Row) : Outcome :=
  if String.eqb filePath "" then Skipped
  else if negb (is_sales_folder filePath) then Skipped
  else
    let lower := str_lower filePath in
    if negb (ends_with ".xlsx" lower || ends_with ".xls" lower) then Skipped
    else Completed (commitBatch (fold_left (process_row filePath) rows init_st)).

End Ingest.

(** The store: stores (merged) and sales transactions (replaced). *)
Record Db : Type := {
  stores : string -> option StoreDoc;
  txns : string -> option TxnDoc
}.

Definition apply_op (db : Db) (op : Op) : Db :=
  match op with
  | SetStore id d =>
      {| stores := fun k => if String.eqb k id then Some d else stores db k; txns := txns db |}
  | SetTxn id d =>
      {| stores := stores db; txns := fun k => if String.eqb k id then Some d else txns db k |}
  end.

(** Committing the batches one after the other. *)
Definition apply_batches (db : Db) (bs : list (list Op)) : Db :=
  fold_left (fun db b => fold_left apply_op b db) bs db.

Definition empty_db : Db := {| stores := fun _ => None; txns := fun _ => None |}.

(** Everything written so far: the committed batches, then the open one. *)
Definition trace (st : St) : list Op := (concat (committed st) ++ batch st)%list.

(** ** Sample inputs

    Conversions for the sample sheets below, whose money cells are numbers
    and whose text cells are strings: [Number(s)] of a string cell and
    [String(n)] of a number cell are not reached on them. *)
Definition sample_StringToNumber (_ : string) : jsnum := JNaN.
Definition sample_NumberToString (_ : jsnum) : string := "0".

(** A sheet row with the four cells [normalize] reads and a Grand Total. *)
Definition sample_row (date store person id : cell) : Row :=
  [("Date of Sale", date); ("Sales Location", store); ("Sales Person", person);
   ("Sales#", id); ("Grand Total", CNum (JNum 100))].

(** A sheet of three rows, the second one without a date. *)
Definition sample_rows : list Row :=
  [sample_row (CStr "01/05/2024") (CStr "Main St") (CStr "Alice AND Bob") (CStr "S1");
   sample_row CNull (CStr "Main St") (CStr "Carol") (CStr "S2");
   sample_row (CStr "01/06/2024") (CStr "North") CUndef (CStr "S3")].

(** A sheet of 449 accepted rows: 448 in one store, the last one in a second store. *)
Definition rows449 : list Row :=
  app (repeat (sample_row (CStr "01/05/2024") (CStr "Main") (CStr "Alice") (CStr "S1")) 448)
      [sample_row (CStr "01/05/2024") (CStr "North") (CStr "Alice") (CStr "S2")].

(** A store already holding sale [1001], dated 2023-01-01. *)
Definition txn_1001_2023 : TxnDoc :=
  {| t_salesId := "1001"; t_date := "2023-01-01"; t_storeId := "main"; t_storeName := "Main";
     t_salespeople := ["Alice"]; t_grandTotal := JNum 50; t_cost := JNum 0;
     t_financeFee := JNum 0; t_profit := JNum 0; t_sourceFile := "sales/2023.xlsx" |}.

Definition db_1001 : Db :=
  {| stores := fun _ => None;
     txns := fun k => if String.eqb k "1001" then Some txn_1001_2023 else None |}.

(** The same sale identifier, dated 2024-01-01. *)
Definition row_1001_2024 : Row :=
  sample_row (CStr "01/01/2024") (CStr "Main") (CStr "Alice") (CStr "1001").

(** Strings of decimal digits, the [\d] of the date pattern. *)
Definition all_digits (s : string) : bool := forallb is_digit (list_ascii_of_string s).

(** The totals of [/api/summary] without a salesperson filter, on the
    [pos_sales] rows of the date range: [SUM(SAFE_GRAND_TOTAL)] and
    [SUM(SAFE_PROFIT)] ([ROUND] keeps a NaN a NaN and is left out). *)
Definition summary_sales (rows : list Sale) : option pgnum :=
  sql_sum (map (fun s => safe_num (grand_total s)) rows).

Definition summary_profit (rows : list Sale) : option pgnum :=
  sql_sum (map (fun s => safe_num (profit s)) rows).

(* ------------------------------------------------------------------ *)
(** ** The second handler of importSalesXlsx.ts

    The file carries, after the handler above, an older copy of the module
    (its lines 192-338) with its own [importSalesXlsx]: no counters, no
    [MAX_BATCH_OPS], a commit every 400 rows counted with the skipped ones,
    and a last commit unless the row count is a multiple of 400. *)

(** Its writes: the transaction document has no [salesId] field and is
    keyed by the untouched sale identifier. *)
Inductive LegacyOp : Type :=
| LSetStore (storeId : string) (d : StoreDoc)
| LSetTxn (docId : string) (date storeId storeName : string) (salespeople : list string)
          (grandTotal cost financeFee profit : jsnum) (sourceFile : string).

Record LSt : Type := {
  l_batch : list LegacyOp;
  l_seen : list string;
  l_rowCount : nat;
  l_committed : list (list LegacyOp)
}.

Section LegacyImport.

Variable StringToNumber : string -> jsnum.
Variable NumberToString : jsnum -> string.

Definition legacy_txn_op (filePath : string) (n : NormRow) : LegacyOp :=
  LSetTxn (salesId n) (dateOfSale n) (slugify (storeLocation n)) (storeLocation n)
          (import_salespeople (salesPersonString n))
          (n_grandTotal n) (n_cost n) (n_financeFee n) (n_profit n) filePath.

(** One iteration of its loop; a skipped row still counts in [rowCount]
    and [continue]s past the every-400-rows commit. *)
Definition legacy_row (filePath : string) (st : LSt) (r : Row) : LSt :=
  let rc := S (l_rowCount st) in
  match normalize StringToNumber NumberToString r with
  | None => {| l_batch := l_batch st; l_seen := l_seen st; l_rowCount := rc;
               l_committed := l_committed st |}
  | Some n =>
      let storeId := slugify (storeLocation n) in
      let (b, seen) :=
        if negb (String.eqb storeId "") && negb (existsb (String.eqb storeId) (l_seen st))
        then (app (l_batch st) [LSetStore storeId {| st_name := storeLocation n; st_active := true |}],
              app (l_seen st) [storeId])
        else (l_batch st, l_seen st) in
      let b := app b [legacy_txn_op filePath n] in
      if Nat.eqb (rc mod 400) 0
      then {| l_batch := []; l_seen := seen; l_rowCount := rc; l_committed := app (l_committed st) [b] |}
      else {| l_batch := b; l_seen := seen; l_rowCount := rc; l_committed := l_committed st |}
  end.

Definition legacy_init : LSt :=
  {| l_batch := []; l_seen := []; l_rowCount := 0; l_committed := [] |}.

(** The handler, [None] for a file it skips. *)
Definition legacy_importSalesXlsx (filePath : string) (rows : list Row) : option LSt :=
  if negb (String.prefix "sales/" filePath) then None else
  let lower := str_lower filePath in
  if negb (ends_with ".xlsx" lower || ends_with ".xls" lower) then None else
  let st := fold_left (legacy_row filePath) rows legacy_init in
  Some (if Nat.eqb (l_rowCount st mod 400) 0 then st
        else {| l_batch := []; l_seen := l_seen st; l_rowCount := l_rowCount st;
                l_committed := app (l_committed st) [l_batch st] |}).

End LegacyImport.

(** 399 accepted rows followed by one without a date. *)
Definition rows400_last_skipped : list Row :=
  app (repeat (sample_row (CStr "01/05/2024") (CStr "Main") (CStr "Alice") (CStr "S1")) 399)
      [sample_row CNull (CStr "Main") (CStr "Alice") (CStr "S2")].

(* ------------------------------------------------------------------ *)
(** ** [double precision]

    IEEE binary64 as the Standard Library specifies it ([SpecFloat], 53
    bits of precision, infinities from exponent 1024), rounding to nearest
    with ties to even, as C's [double] arithmetic does. *)

Definition float8 : Type := SpecFloat.spec_float.

Definition f8_add : float8 -> float8 -> float8 := SpecFloat.SFadd 53 1024.
Definition f8_sub : float8 -> float8 -> float8 := SpecFloat.SFsub 53 1024.
Definition f8_mul : float8 -> float8 -> float8 := SpecFloat.SFmul 53 1024.

(** The [double] nearest to [x] (ties to even), as [strtod] reads the
    decimal [x]: an infinity beyond the largest [double]. *)
Definition f8_of_Q (x : Q) : float8 :=
  match Qnum x with
  | Z0 => SpecFloat.S754_zero false
  | Zpos n =>
      let '(m, e, l) := SpecFloat.SFdiv_core_binary 53 1024 (Zpos n) 0 (Zpos (Qden x)) 0 in
      SpecFloat.binary_round_aux 53 1024 false m e l
  | Zneg n =>
      let '(m, e, l) := SpecFloat.SFdiv_core_binary 53 1024 (Zpos n) 0 (Zpos (Qden x)) 0 in
      SpecFloat.binary_round_aux 53 1024 true m e l
  end.

Definition float8_isnan (a : float8) : bool :=
  match a with SpecFloat.S754_nan => true | _ => false end.
Definition float8_isinf (a : float8) : bool :=
  match a with SpecFloat.S754_infinity _ => true | _ => false end.
Definition float8_iszero (a : float8) : bool :=
  match a with SpecFloat.S754_zero _ => true | _ => false end.

(** [numeric_float8], the cast [numeric::float8]: the value is written out
    by [numeric_out] and read back by [float8in].  [NaN] stays [NaN]; a
    value whose nearest [double] is infinite, or is zero though the value
    is not, raises "out of range for type double precision" ([None]). *)
Definition numeric_float8 (v : pgnum) : option float8 :=
  match v with
  | PNaN => Some SpecFloat.S754_nan
  | PNum x =>
      let f := f8_of_Q x in
      if float8_isinf f then None
      else if float8_iszero f && negb (Qeq_bool x 0) then None
      else Some f
  end.

(** [float8_pl], [float8_mi] and [float8_mul] of float.h: an infinite
    result of finite operands raises an overflow error, a zero product of
    non-zero operands an underflow error ([None]). *)
Definition float8_pl (a b : float8) : option float8 :=
  let r := f8_add a b in
  if float8_isinf r && negb (float8_isinf a) && negb (float8_isinf b) then None else Some r.

Definition float8_mi (a b : float8) : option float8 :=
  let r := f8_sub a b in
  if float8_isinf r && negb (float8_isinf a) && negb (float8_isinf b) then None else Some r.

Definition float8_mul (a b : float8) : option float8 :=
  let r := f8_mul a b in
  if float8_isinf r && negb (float8_isinf a) && negb (float8_isinf b) then None
  else if float8_iszero r && negb (float8_iszero a) && negb (float8_iszero b) then None
  else Some r.

(** [float8_gt] of float.h: [NaN] is above every other value. *)
Definition float8_gt (a b : float8) : bool :=
  if float8_isnan a then negb (float8_isnan b)
  else negb (float8_isnan b) && SpecFloat.SFltb b a.

(** [float8_cmp_internal(a, b) <= 0], the order of [ORDER BY]. *)
Definition float8_le (a b : float8) : bool := negb (float8_gt a b).

(* ------------------------------------------------------------------ *)
(** ** Dates *)

Definition digit_value (c : ascii) : nat := nat_of_ascii c - 48.

(** The year, month and day of a string matching [/^\d{4}-\d{2}-\d{2}$/]. *)
Definition ymd_fields (t : string) : option (nat * nat * nat) :=
  match list_ascii_of_string t with
  | [y1; y2; y3; y4; h1; m1; m2; h2; d1; d2] =>
      if forallb is_digit [y1; y2; y3; y4; m1; m2; d1; d2]
         && Ascii.eqb h1 "-"%char && Ascii.eqb h2 "-"%char
      then Some (digit_value y1 * 1000 + digit_value y2 * 100 + digit_value y3 * 10 + digit_value y4,
                 digit_value m1 * 10 + digit_value m2,
                 digit_value d1 * 10 + digit_value d2)
      else None
  | _ => None
  end.

(** [/^\d{4}-\d{2}-\d{2}$/.test(t)]. *)
Definition is_ymd (t : string) : bool :=
  match ymd_fields t with Some _ => true | None => false end.

Definition leap_year (y : nat) : bool :=
  (Nat.eqb (y mod 4) 0 && negb (Nat.eqb (y mod 100) 0)) || Nat.eqb (y mod 400) 0.

Definition days_in_month (y m : nat) : nat :=
  match m with
  | 2 => if leap_year y then 29 else 28
  | 4 | 6 | 9 | 11 => 30
  | _ => 31
  end.

(** The cast [$i::date] of the text the handlers send, which is always of
    the shape [YYYY-MM-DD]: year 0, a month outside 1..12 or a day outside
    the month raise "date/time field value out of range"; PostgreSQL's
    other input formats are not modelled ([None] for them). *)
Definition pg_date (s : string) : option string :=
  match ymd_fields s with
  | Some (y, m, d) =>
      if Nat.ltb 0 y && Nat.leb 1 m && Nat.leb m 12 && Nat.leb 1 d && Nat.leb d (days_in_month y m)
      then Some s else None
  | None => None
  end.

(** [date2j] of PostgreSQL: the Julian day number of a Gregorian date. *)
Definition date2j (y m d : Z) : Z :=
  let '(y', m') := if Z.ltb 2 m then (y + 4800, m + 1)%Z else (y + 4799, m + 13)%Z in
  let century := (y' / 100)%Z in
  (y' * 365 - 32167 + (y' / 4 - century + century / 4) + 7834 * m' / 256 + d)%Z.

(** [$i::date] as a day number, the days since 2000-01-01 as [sale_date]
    counts them (PostgreSQL's [DateADT]); [None] when the cast raises. *)
Definition pg_date_days (s : string) : option Z :=
  match pg_date s, ymd_fields s with
  | Some _, Some (y, m, d) =>
      Some (date2j (Z.of_nat y) (Z.of_nat m) (Z.of_nat d) - date2j 2000 1 1)%Z
  | _, _ => None
  end.

(* ------------------------------------------------------------------ *)
(** ** The analytics queries of server.ts

    The outlier query takes its date parameters as the text the handler
    sends and casts them; the low-margin query takes them as day numbers,
    as [sale_date] is.  [percentile_cont] and the outlier threshold compute
    in [double precision]. *)

(** [s LIKE p], with [%], [_] and the escape character [\]. *)
Fixpoint like (p s : string) : bool :=
  match p with
  | EmptyString => String.eqb s ""
  | String c p' =>
      if Ascii.eqb c "%"%char then
        (fix any (s : string) : bool :=
           like p' s || match s with EmptyString => false | String _ s' => any s' end) s
      else if Ascii.eqb c "_"%char then
        match s with EmptyString => false | String _ s' => like p' s' end
      else if Ascii.eqb c "\"%char then
        match p', s with
        | String e p'', String c' s' => Ascii.eqb e c' && like p'' s'
        | _, _ => false
        end
      else
        match s with EmptyString => false | String c' s' => Ascii.eqb c c' && like p' s' end
  end.

(** [s ILIKE ('%' || q || '%')] (case folded on ASCII letters); [NULL] when
    either side is. *)
Definition ilike_contains (s q : option string) : option bool :=
  match s, q with
  | Some s, Some q => Some (like (str_lower ("%" ++ q ++ "%")) (str_lower s))
  | _, _ => None
  end.

Definition date_cmp (f : Z -> Z -> bool) (d : option Z) (z : Z) : option bool :=
  match d with Some d => Some (f d z) | None => None end.

(** A [WHERE] clause keeps the rows whose condition is TRUE. *)
Definition sql_true (c : option bool) : bool :=
  match c with Some true => true | _ => false end.

(** [parseTextParam]. *)
Definition parseTextParam (v : option string) : option string :=
  match v with
  | Some v => let t := js_trim v in if String.eqb t "" then None else Some t
  | None => None
  end.

Definition sql_add (a b : option pgnum) : option pgnum :=
  match a, b with Some x, Some y => Some (pg_add x y) | _, _ => None end.
Definition sql_sub (a b : option pgnum) : option pgnum :=
  match a, b with Some x, Some y => Some (pg_sub x y) | _, _ => None end.
Definition sql_mul (a b : option pgnum) : option pgnum :=
  match a, b with Some x, Some y => Some (pg_mul x y) | _, _ => None end.

Fixpoint somes {A} (l : list (option A)) : list A :=
  match l with
  | [] => []
  | Some a :: l' => a :: somes l'
  | None :: l' => somes l'
  end.

(** [ORDER BY x] on [double precision] (ascending, [NaN] last), by
    insertion. *)
Fixpoint insert_asc (x : float8) (l : list float8) : list float8 :=
  match l with
  | [] => [x]
  | y :: l' => if float8_le x y then x :: l else y :: insert_asc x l'
  end.

Definition sort_asc (l : list float8) : list float8 := fold_right insert_asc [] l.

(** [float8_lerp]: [lo + pct * (hi - lo)] in C, with no range check. *)
Definition float8_lerp (lo hi : float8) (pct : float8) : float8 :=
  f8_add lo (f8_mul pct (f8_sub hi lo)).

(** [percentile_cont(k/4) WITHIN GROUP (ORDER BY x)] on [double
    precision]: the values at rows [floor] and [ceil] of [k/4 * (n-1)] in
    sorted order, interpolated by [float8_lerp] with the fraction
    [k/4 * (n-1) - floor]; [NULL] on no value.  The row numbers and the
    fraction are those of the [double] computation, which is exact below
    2^51 rows. *)
Definition percentile_cont (k : nat) (vals : list (option float8)) : option float8 :=
  let xs := sort_asc (somes vals) in
  match length xs with
  | 0 => None
  | S m =>
      let first := (k * m) / 4 in
      let second := (k * m + 3) / 4 in
      let v1 := nth first xs SpecFloat.S754_nan in
      let v2 := nth second xs SpecFloat.S754_nan in
      if Nat.eqb first second then Some v1
      else Some (float8_lerp v1 v2 (f8_of_Q (Z.of_nat ((k * m) mod 4) # 4)))
  end.

(** [Math.min(a, b)]. *)
Definition js_min (a b : jsnum) : jsnum :=
  match a, b with
  | JNaN, _ | _, JNaN => JNaN
  | JInf false, _ | _, JInf false => JInf false
  | JInf true, x | x, JInf true => x
  | JNum x, JNum y => if Qle_bool x y then JNum x else JNum y
  end.

(** The [bigint] a [LIMIT] parameter is read as: a number that is not a
    non-negative integer fails the query. *)
Definition pg_limit (l : jsnum) : option nat :=
  match l with
  | JNum q =>
      let q := Qred q in
      if Pos.eqb (Qden q) 1 && Z.leb 0 (Qnum q) then Some (Z.to_nat (Qnum q)) else None
  | _ => None
  end.

(** *** /api/outliers *)

(** [parseDateParam]: the parameter when it is a string of the shape
    [YYYY-MM-DD], the fallback otherwise ([None] is a missing or non-string
    parameter). *)
Definition parseDateParam (v : option string) (fallback : string) : string :=
  match v with
  | Some s => if String.eqb s "" then fallback else if is_ymd s then s else fallback
  | None => fallback
  end.

(** The [WHERE] clause of the [s] CTE, [$1] and [$2] cast to days. *)
Definition outlier_in_range (start end_ : Z) (sp : option string) (s : Sale) : bool :=
  sql_true (sql_and (sql_and (date_cmp Z.geb (sale_date s) start) (date_cmp Z.ltb (sale_date s) end_))
                    (sql_or (is_null sp) (ilike_contains (salesperson s) sp))).

(** The columns of the [s] CTE, through the [SAFE_*] guards. *)
Definition safe_sale (s : Sale) : Sale :=
  {| sale_id := sale_id s; sale_date := sale_date s; salesperson := salesperson s;
     location := location s; receipt_no := receipt_no s; customer_name := customer_name s;
     grand_total := safe_num (grand_total s); total_finance_amt := safe_num (total_finance_amt s);
     finance_fee := safe_num (finance_fee s); finance_balance := safe_num (finance_balance s);
     cost := cost s; profit := safe_num (profit s); gross_margin := gross_margin s;
     raw_source_file := raw_source_file s |}.

(** The [s] CTE. *)
Definition outlier_sample (start end_ : Z) (sp : option string) (tbl : list Sale) : list Sale :=
  map safe_sale (filter (outlier_in_range start end_ sp) tbl).

(** [grand_total::float8] of each row of [s], the input of
    [percentile_cont] ([None] for a NULL); [None] when a cast raises. *)
Fixpoint cast_grand_totals (s : list Sale) : option (list (option float8)) :=
  match s with
  | [] => Some []
  | x :: r =>
      match grand_total x with
      | None => option_map (cons None) (cast_grand_totals r)
      | Some v =>
          match numeric_float8 v, cast_grand_totals r with
          | Some f, Some fs => Some (Some f :: fs)
          | _, _ => None
          end
      end
  end.

(** [hi] of the [bounds] CTE: [q3 + ($5::numeric * (q3 - q1))] in [double
    precision], the [numeric] multiplier cast to it; [None] when the cast
    or an operation raises. *)
Definition outlier_hi (mult : Q) (q1 q3 : float8) : option float8 :=
  match numeric_float8 (PNum mult) with
  | None => None
  | Some m =>
      match float8_mi q3 q1 with
      | None => None
      | Some iqr =>
          match float8_mul m iqr with
          | None => None
          | Some d => float8_pl q3 d
          end
      end
  end.

(** [ORDER BY grand_total DESC] (NULLs first), by insertion. *)
Definition gt_ge (a b : option pgnum) : bool :=
  match a, b with
  | None, _ => true
  | Some _, None => false
  | Some x, Some y => pg_le y x
  end.

Fixpoint insert_desc (x : Sale) (l : list Sale) : list Sale :=
  match l with
  | [] => [x]
  | y :: l' => if gt_ge (grand_total x) (grand_total y) then x :: l else y :: insert_desc x l'
  end.

Definition sort_desc (l : list Sale) : list Sale := fold_right insert_desc [] l.

(** Rows in descending order of [grand_total]. *)
Fixpoint sorted_desc (l : list Sale) : bool :=
  match l with
  | x :: ((y :: _) as l') => gt_ge (grand_total x) (grand_total y) && sorted_desc l'
  | _ => true
  end.

(** [s.grand_total > b.hi], [grand_total] cast to [double precision]. *)
Definition outlier_above (hi : float8) (x : Sale) : bool :=
  match grand_total x with
  | Some v => match numeric_float8 v with Some g => float8_gt g hi | None => false end
  | None => false
  end.

(** The rows of [s] kept by the [WHERE] of the [flagged] CTE, given the
    [bounds] row. *)
Definition outliers_flagged (hi : float8) (s : list Sale) : list Sale :=
  filter (outlier_above hi) s.

(** The result of the query: each row with its [threshold_high] and
    [total_count] (the window count, taken before [LIMIT]); [None] when the
    query raises an error: a [LIMIT] that is not a non-negative integer, a
    date that does not exist, a [grand_total] out of the range of [double
    precision], or a range error in [hi].  The planner moves [b.n >= 20]
    into the aggregate of [stats] as a [HAVING] condition, so with fewer
    than 20 rows in range [bounds] has no row and [hi] is not computed;
    the casts feeding [percentile_cont] are made on every row in range. *)
Definition outliers_query (start end_ : string) (limit : jsnum) (sp : option string) (mult : Q)
    (tbl : list Sale) : option (list (Sale * float8 * nat)) :=
  match pg_limit limit, pg_date_days start, pg_date_days end_ with
  | Some lim, Some d1, Some d2 =>
      let s := outlier_sample d1 d2 sp tbl in
      match cast_grand_totals s with
      | None => None
      | Some gts =>
          if Nat.ltb (length s) 20 then Some []
          else
            match percentile_cont 1 gts, percentile_cont 3 gts with
            | Some q1, Some q3 =>
                match outlier_hi mult q1 q3 with
                | None => None
                | Some hi =>
                    let fl := outliers_flagged hi s in
                    Some (map (fun x => (x, hi, length fl)) (firstn lim (sort_desc fl)))
                end
            | _, _ => Some []
            end
      end
  | _, _, _ => None
  end.

(** A number of the JSON answer: [res.json] writes [NaN] and the
    infinities as [null] ([None]). *)
Definition json_float8 (f : float8) : option float8 :=
  match f with SpecFloat.S754_nan | SpecFloat.S754_infinity _ => None | _ => Some f end.

(** The JSON answer: [threshold_high] is [Number] of the first row's [hi]
    (its [double] text read back), [null] when no row is returned. *)
Record OutlierResp : Type := {
  threshold_high : option float8;
  total_count : nat;
  o_rows : list Sale
}.

Definition outliers_response (rs : list (Sale * float8 * nat)) : OutlierResp :=
  match rs with
  | [] => {| threshold_high := None; total_count := 0; o_rows := [] |}
  | (_, th, tc) :: _ =>
      {| threshold_high := json_float8 th; total_count := tc;
         o_rows := map (fun r => fst (fst r)) rs |}
  end.

(** *** /api/low-margin *)

Definition str_ne (a : option string) (b : string) : option bool :=
  match a with Some a => Some (negb (String.eqb a b)) | None => None end.

(** The [WHERE] clause of its [s] CTE, on the split row. *)
Definition low_margin_where (start end_ : Z) (sp : option string) (p : SplitRow) : bool :=
  sql_true (sql_and (sql_and (sql_and (sql_and (sql_and
    (date_cmp Z.geb (sp_sale_date p) start) (date_cmp Z.ltb (sp_sale_date p) end_))
    (is_not_null (sp_salesperson p))) (str_ne (sp_salesperson p) ""))
    (str_ne (sp_salesperson p) "Sales, Store"))
    (sql_or (is_null sp) (ilike_contains (sp_salesperson p) sp))).

(** [margin_pct] of a split row [p] joined with its sale [s]. *)
Definition low_margin_pct (p : SplitRow) (s : Sale) : eval (option pgnum) :=
  let gts := grand_total_split p in
  let pr := safe_num (profit_split p) in
  sql_case (sql_and (is_not_null (gross_margin s)) (sql_eq (gross_margin s) (gross_margin s)))
    (Val (gross_margin s))
    (sql_case (sql_or (sql_or (is_null gts) (sql_eq gts num0)) (sql_ne gts gts))
       (Val None)
       (let! q := sql_div pr gts in Val (sql_mul q (Some (PNum 100))))).

(** The [s] CTE: [pos_sales_people p JOIN pos_sales s ON s.sale_id = p.sale_id]
    and its [WHERE], each row with its [margin_pct]. *)
Definition low_margin_rows (start end_ : Z) (sp : option string) (tbl : list Sale)
    : eval (list (SplitRow * Sale * option pgnum)) :=
  let! ps := pos_sales_people tbl in
  let joined := flat_map (fun p =>
                  map (fun s => (p, s)) (filter (fun s => String.eqb (sale_id s) (sp_sale_id p)) tbl))
                  ps in
  eval_map (fun ps => let! m := low_margin_pct (fst ps) (snd ps) in Val (fst ps, snd ps, m))
           (filter (fun ps => low_margin_where start end_ sp (fst ps)) joined).

(** [margin_pct BETWEEN -100 AND 100]. *)
Definition margin_in_bounds (m : option pgnum) : bool :=
  sql_true (sql_and (sql_le (Some (PNum (-100))) m) (sql_le m (Some (PNum 100)))).

(** The rows of the [ranked] CTE, before the per-salesperson row numbers
    and the final [LIMIT] choose among them. *)
Definition low_margin_ranked (rows : list (SplitRow * Sale * option pgnum))
    : list (SplitRow * Sale * option pgnum) :=
  filter (fun r => margin_in_bounds (snd r)) rows.

(** *** Query parameters *)

Section Server.

Variable StringToNumber : string -> jsnum.

(** [Number(v || d)] on a query parameter. *)
Definition param_number (v : option string) (d : jsnum) : jsnum :=
  match v with
  | Some s => if String.eqb s "" then d else StringToNumber s
  | None => d
  end.

(** [Math.min(Number(req.query.limit || 25), 200)]. *)
Definition outlier_limit (v : option string) : jsnum :=
  js_min (param_number v (JNum 25)) (JNum 200).

(** [Number(req.query.multiplier || 1.5)], [1.5] when not finite. *)
Definition outlier_multiplier (v : option string) : Q :=
  match param_number v (JNum (3 # 2)) with JNum m => m | _ => 3 # 2 end.

(** The handler of [/api/outliers]; [None] when its query fails. *)
Definition api_outliers (start end_ limit sp mult : option string) (tbl : list Sale)
    : option OutlierResp :=
  option_map outliers_response
    (outliers_query (parseDateParam start "1900-01-01") (parseDateParam end_ "2100-01-01")
                    (outlier_limit limit) (parseTextParam sp) (outlier_multiplier mult) tbl).

End Server.

(** Unsigned decimal integers, read as [Number] reads them, and [NaN] for
    every other string: the conversion of the sample query parameters. *)
Definition decimal_value (s : string) : nat :=
  fold_left (fun acc c => acc * 10 + (nat_of_ascii c - 48)) (list_ascii_of_string s) 0.

Definition sample_decimal (s : string) : jsnum :=
  if negb (String.eqb s "") && all_digits s then JNum (inject_Z (Z.of_nat (decimal_value s)))
  else JNaN.

(** Sales of the day 0 by Alice, with a given grand total. *)
Definition sale_gt (id : string) (gt : Q) : Sale := mk_sale id (Some "Alice") (Some (PNum gt)) None.

(** Nineteen sales of 100 and one of 10000. *)
Definition sales20 : list Sale :=
  app (repeat (sale_gt "s" 100) 19) [sale_gt "big" 10000].

(** A sale with a stored gross margin of 10 and a grand total of 0. *)
Definition sale_gm10 : Sale :=
  {| sale_id := "1"; sale_date := Some 0%Z; salesperson := Some "Alice"; location := None;
     receipt_no := None; customer_name := None; grand_total := Some (PNum 0);
     total_finance_amt := None; finance_fee := None; finance_balance := None;
     cost := None; profit := Some (PNum 5); gross_margin := Some (PNum 10);
     raw_source_file := None |}.

(* ------------------------------------------------------------------ *)
(** ** Observations on the import's writes *)

(** A character [slugify] may leave: [[a-z0-9]] or a hyphen. *)
Definition slug_char (c : ascii) : bool := is_lower_alnum c || Ascii.eqb c "-"%char.

(** The store documents a sequence of writes touches, in order. *)
Fixpoint store_ids (ops : list Op) : list string :=
  match ops with
  | [] => []
  | SetStore id _ :: ops' => id :: store_ids ops'
  | SetTxn _ _ :: ops' => store_ids ops'
  end.

(** The number of transaction writes in a sequence of writes. *)
Fixpoint txn_writes (ops : list Op) : nat :=
  match ops with
  | [] => 0
  | SetStore _ _ :: ops' => txn_writes ops'
  | SetTxn _ _ :: ops' => S (txn_writes ops')
  end.

(** The document identifier a write addresses (under [stores/] or
    [sales_transactions/]). *)
Definition op_doc_id (op : Op) : string :=
  match op with SetStore id _ => id | SetTxn id _ => id end.

(** A document identifier that is one path segment: not empty, no [/]. *)
Definition doc_id_ok (id : string) : bool :=
  negb (String.eqb id "") && negb (existsb (fun c => Ascii.eqb c "/"%char) (list_ascii_of_string id)).

(** Whether [normalize] accepts a row. *)
Definition accepted (S2N : string -> jsnum) (N2S : jsnum -> string) (r : Row) : bool :=
  match normalize S2N N2S r with Some _ => true | None => false end.

(** Dropping one leading hyphen, as [drop_edge_hyphens] does at either end. *)
Definition drop_first_hyphen (l : list ascii) : list ascii :=
  match l with c :: r => if Ascii.eqb c "-"%char then r else l | [] => [] end.

(** The characters [LIKE] gives a meaning to: [%], [_] and the escape [\]. *)
Definition like_special (c : ascii) : bool :=
  Ascii.eqb c "%"%char || Ascii.eqb c "_"%char || Ascii.eqb c "\"%char.

(** What the writes of the loop keep true, row after row. *)
Definition writes_inv (st : St) : Prop :=
  length (batch st) = batchOps st /\
  totalWrites st + batchOps st = length (trace st) /\
  store_ids (trace st) = seenStores st /\
  NoDup (seenStores st) /\
  forallb (fun op => doc_id_ok (op_doc_id op)) (trace st) = true.

(** ... and its counters. *)
Definition run_inv (st : St) : Prop :=
  writes_inv st /\
  txn_writes (trace st) = validRowCount st /\
  rowCount st = validRowCount st + skippedRowCount st.


(* ------------------------------------------------------------------ *)
(** ** The task board ([/api/tasks]) *)

(** A field of a parsed JSON request body: [undefined] when absent; an
    object or an array carries the number [Number(v)] gives it. *)
Inductive json : Type :=
| JsUndef
| JsNull
| JsBool (b : bool)
| JsNum (n : jsnum)
| JsStr (s : string)
| JsObj (num : jsnum).

(** The fields of [req.body] the task handlers read. *)
Record TaskBody : Type := mk_body {
  b_title : json;
  b_assignee : json;
  b_status : json;
  b_priority : json;
  b_deadline : json;
  b_sort_index : json
}.

(** [toUpperCase] on one character of an ASCII string.  Strings are
    lists of 8-bit characters here, so JavaScript's Unicode case mapping
    (the sharp s to "SS", the dotless i to "I") is out of the model: the task
    parsers below are their source on ASCII input only. *)
Definition to_upper (c : ascii) : ascii :=
  let n := nat_of_ascii c in
  if Nat.leb 97 n && Nat.leb n 122 then ascii_of_nat (n - 32) else c.

Fixpoint str_upper (s : string) : string :=
  match s with
  | EmptyString => EmptyString
  | String c r => String (to_upper c) (str_upper r)
  end.

(** [parseTaskStatus]. *)
Definition parseTaskStatus (v : json) : option string :=
  match v with
  | JsStr s =>
      if String.eqb s "" then None
      else let t := str_upper (js_trim s) in
           if String.eqb t "TODO" || String.eqb t "IN_PROGRESS" || String.eqb t "DONE"
           then Some t else None
  | _ => None
  end.

(** [parseTaskPriority]. *)
Definition parseTaskPriority (v : json) : option string :=
  match v with
  | JsStr s =>
      if String.eqb s "" then None
      else let t := str_lower (js_trim s) in
           if String.eqb t "low" || String.eqb t "medium" || String.eqb t "high"
           then Some t else None
  | _ => None
  end.

(** [parseTaskDeadline]. *)
Definition parseTaskDeadline (v : json) : option string :=
  match v with
  | JsStr s =>
      let t := js_trim s in
      if String.eqb t "" then None
      else if is_ymd t then Some t else None
  | _ => None
  end.

(** [Math.trunc] of a finite number. *)
Definition js_trunc (q : Q) : Z := Z.quot (Qnum q) (Zpos (Qden q)).

Section Tasks.

Variable StringToNumber : string -> jsnum.

(** [Number(v)] on a body field. *)
Definition json_number (v : json) : jsnum :=
  match v with
  | JsUndef => JNaN
  | JsNull => JNum 0
  | JsBool b => JNum (if b then 1 else 0)
  | JsNum n => n
  | JsStr s => StringToNumber s
  | JsObj n => n
  end.

(** [parseIntBody]. *)
Definition parseIntBody (v : json) : option Z :=
  match v with
  | JsUndef | JsNull => None
  | _ =>
      let n := match v with JsNum n => n | _ => json_number v end in
      match n with JNum q => Some (js_trunc q) | _ => None end
  end.

(** [parseTaskIdParam] on the route parameter [req.params.id]. *)
Definition parseTaskIdParam (v : string) : option Z :=
  if String.eqb v "" then None
  else match StringToNumber v with
       | JNum q => let id := js_trunc q in if Z.ltb 0 id then Some id else None
       | _ => None
       end.

End Tasks.

(** Values of the parameters of a query: JavaScript strings, [null] and
    (integral) numbers. *)
Inductive pval : Type :=
| PVStr (s : string)
| PVNull
| PVNum (z : Z).

(** An entry of [fields] in the PATCH handler: [col = $i] (with [::date]
    when [cast_date]), [responded_at = COALESCE(responded_at, now())],
    [completed_at = now()] and [completed_at = NULL]. *)
Inductive SetItem : Type :=
| SetParam (col : string) (idx : nat) (cast_date : bool)
| SetRespondedNow
| SetCompletedNow
| SetCompletedNull.

Definition item_col (it : SetItem) : string :=
  match it with
  | SetParam c _ _ => c
  | SetRespondedNow => "responded_at"
  | SetCompletedNow | SetCompletedNull => "completed_at"
  end.

(** [values.push(v); fields.push(`${col} = $${values.length}`)]. *)
Definition push (acc : list SetItem * list pval) (col : string) (cast_date : bool) (v : pval)
    : list SetItem * list pval :=
  let (fields, values) := acc in
  let values' := (values ++ [v])%list in
  ((fields ++ [SetParam col (length values') cast_date])%list, values').

Definition is_status (st : option string) (s : string) : bool :=
  match st with Some t => String.eqb t s | None => false end.

(** The constants of the PATCH handler read from the body. *)
Definition patch_title (b : TaskBody) : option string :=
  match b_title b with JsStr s => Some (js_trim s) | _ => None end.

Definition patch_assignee (b : TaskBody) : option string :=
  match b_assignee b with JsStr s => Some (js_trim s) | _ => None end.

Definition patch_status (b : TaskBody) : option string :=
  match b_status b with JsUndef => None | v => parseTaskStatus v end.

Definition patch_priority (b : TaskBody) : option string :=
  match b_priority b with JsUndef => None | v => parseTaskPriority v end.

(** [req.body?.deadline !== undefined] and [req.body?.deadline === ""]. *)
Definition deadline_given (b : TaskBody) : bool :=
  match b_deadline b with JsUndef => false | _ => true end.

Definition deadline_empty (b : TaskBody) : bool :=
  match b_deadline b with JsStr s => String.eqb s "" | _ => false end.

Definition patch_deadline (b : TaskBody) : option string :=
  if deadline_given b then (if deadline_empty b then None else parseTaskDeadline (b_deadline b))
  else None.

Definition patch_sort_index (S2N : string -> jsnum) (b : TaskBody) : option Z :=
  match b_sort_index b with JsUndef => None | v => parseIntBody S2N v end.

(** What the PATCH handler sends: a 400 answer, or the [UPDATE] with its
    [SET] list (before [updated_at = now()]) and its parameters. *)
Inductive PatchReq : Type :=
| PatchBad (msg : string)
| PatchSql (fields : list SetItem) (values : list pval).

(** The PATCH handler up to the query. *)
Definition patch_task (S2N : string -> jsnum) (idp : string) (b : TaskBody) : PatchReq :=
  match parseTaskIdParam S2N idp with
  | None => PatchBad "invalid id"
  | Some id =>
    let title := patch_title b in
    match match title with
          | Some t => if String.eqb t "" then None else Some (push ([], []) "title" false (PVStr t))
          | None => Some ([], [])
          end with
    | None => PatchBad "title cannot be empty"
    | Some acc =>
      let acc := match patch_assignee b with
                 | Some a => push acc "assignee" false (PVStr (if String.eqb a "" then "Unassigned" else a))
                 | None => acc end in
      let status := patch_status b in
      let acc := match status with Some s => push acc "status" false (PVStr s) | None => acc end in
      let acc := match patch_priority b with
                 | Some p => push acc "priority" false (PVStr p) | None => acc end in
      let deadline := patch_deadline b in
      if deadline_given b && negb (deadline_empty b) && match deadline with None => true | Some _ => false end
      then PatchBad "invalid deadline"
      else
      let acc := if deadline_given b
                 then push acc "deadline" true (match deadline with Some d => PVStr d | None => PVNull end)
                 else acc in
      let acc := match patch_sort_index S2N b with
                 | Some n => push acc "sort_index" false (PVNum n) | None => acc end in
      let (fields, values) := acc in
      match fields with
      | [] => PatchBad "no fields to update"
      | _ :: _ =>
        let fields := (fields
          ++ (if is_status status "IN_PROGRESS" then [SetRespondedNow] else [])
          ++ (if is_status status "DONE" then [SetCompletedNow]
              else if is_status status "TODO" || is_status status "IN_PROGRESS"
              then [SetCompletedNull] else []))%list in
        PatchSql fields (values ++ [PVNum id])
      end
    end
  end.

(** Values of the [tasks] columns: [NULL], [TEXT], [INT]/[BIGINT],
    [DATE] (as its [YYYY-MM-DD] text) and [TIMESTAMPTZ]. *)
Inductive sqlval : Type :=
| VNull
| VText (s : string)
| VInt (z : Z)
| VDate (d : string)
| VTime (t : string).

(** A row of [tasks], by column name. *)
Definition TaskRow := string -> sqlval.

Definition int4_ok (z : Z) : bool := Z.leb (-2147483648) z && Z.leb z 2147483647.
Definition int8_ok (z : Z) : bool := Z.leb (-9223372036854775808) z && Z.leb z 9223372036854775807.

(** A parameter stored into a column ([INT] for [sort_index], [TEXT] for the
    other columns the handlers fill from parameters; [None] on a failed
    conversion. Only the pairs the handlers send are given a value. *)
Definition store_param (col : string) (cast_date : bool) (p : pval) : option sqlval :=
  if cast_date then
    match p with PVNull => Some VNull | PVStr s => option_map VDate (pg_date s) | PVNum _ => None end
  else if String.eqb col "sort_index" then
    match p with PVNull => Some VNull | PVNum z => if int4_ok z then Some (VInt z) else None | PVStr _ => None end
  else
    match p with PVNull => Some VNull | PVStr s => Some (VText s) | PVNum _ => None end.

(** [$i] (1-based). *)
Definition param (values : list pval) (i : nat) : option pval :=
  match i with O => None | S k => nth_error values k end.

(** The assignment of one [SET] entry, evaluated on the old row. *)
Definition eval_item (now : string) (values : list pval) (old : TaskRow) (it : SetItem)
    : option (string * sqlval) :=
  match it with
  | SetParam c i cd =>
      match param values i with
      | Some p => option_map (pair c) (store_param c cd p)
      | None => None
      end
  | SetRespondedNow =>
      Some ("responded_at", match old "responded_at" with VNull => VTime now | v => v end)
  | SetCompletedNow => Some ("completed_at", VTime now)
  | SetCompletedNull => Some ("completed_at", VNull)
  end.

Fixpoint eval_items (now : string) (values : list pval) (old : TaskRow) (its : list SetItem)
    : option (list (string * sqlval)) :=
  match its with
  | [] => Some []
  | it :: its' =>
      match eval_item now values old it, eval_items now values old its' with
      | Some a, Some r => Some (a :: r)
      | _, _ => None
      end
  end.

Fixpoint assoc_val (c : string) (l : list (string * sqlval)) : option sqlval :=
  match l with
  | [] => None
  | (k, v) :: l' => if String.eqb k c then Some v else assoc_val c l'
  end.

Definition not_null_cols : list string :=
  ["id"; "title"; "assignee"; "status"; "priority"; "sort_index"; "created_at"; "updated_at"].

Definition not_null_ok (r : TaskRow) : bool :=
  forallb (fun c => match r c with VNull => false | _ => true end) not_null_cols.

(** The new version of a row under [SET fields, updated_at = now()], or
    [None] when an assignment fails or a [NOT NULL] column becomes [NULL]. *)
Definition update_row (now : string) (fields : list SetItem) (values : list pval) (old : TaskRow)
    : option TaskRow :=
  match eval_items now values old fields with
  | Some asg =>
      let asg := (asg ++ [("updated_at", VTime now)])%list in
      let r := fun c => match assoc_val c asg with Some v => v | None => old c end in
      if not_null_ok r then Some r else None
  | None => None
  end.

Fixpoint has_dup (l : list string) : bool :=
  match l with
  | [] => false
  | x :: l' => existsb (String.eqb x) l' || has_dup l'
  end.

Definition row_has_id (z : Z) (r : TaskRow) : bool :=
  match r "id" with VInt k => Z.eqb k z | _ => false end.

(** [UPDATE tasks SET fields, updated_at = now() WHERE id = $n RETURNING ...]
    with [n = values.length]: the new table and the returned rows, or
    [None] when the statement fails (and changes nothing). *)
Definition exec_update (now : string) (fields : list SetItem) (values : list pval)
    (tbl : list TaskRow) : option (list TaskRow * list TaskRow) :=
  if has_dup (map item_col fields ++ ["updated_at"]) then None else
  match param values (length values) with
  | Some (PVNum z) =>
      if negb (int8_ok z) then None else
      fold_right (fun r acc =>
        match acc with
        | None => None
        | Some (tbl', ret) =>
            if row_has_id z r then
              match update_row now fields values r with
              | Some r' => Some (r' :: tbl', r' :: ret)
              | None => None
              end
            else Some (r :: tbl', ret)
        end) (Some ([], [])) tbl
  | _ => None
  end.

(** The answer of a task handler: 400 with a message, 404, a failed query
    (the promise of the handler rejects), or a row with its status code
    (the row as the statement returns it, before it is formatted). *)
Inductive TaskResp : Type :=
| TBad (msg : string)
| TNotFound
| TQueryError
| TRow (code : nat) (row : TaskRow).

(** [PATCH /api/tasks/:id]: the answer and the table afterwards. *)
Definition patch_handler (S2N : string -> jsnum) (now : string) (idp : string) (b : TaskBody)
    (tbl : list TaskRow) : TaskResp * list TaskRow :=
  match patch_task S2N idp b with
  | PatchBad m => (TBad m, tbl)
  | PatchSql fields values =>
      match exec_update now fields values tbl with
      | None => (TQueryError, tbl)
      | Some (tbl', []) => (TNotFound, tbl')
      | Some (tbl', r :: _) => (TRow 200 r, tbl')
      end
  end.

(** [SELECT COALESCE(MAX(sort_index), -1) + 1 AS next FROM tasks WHERE
    status = $1]: [MAX] skips [NULL]s; the [INT] sum overflows past
    2147483647. *)
Fixpoint max_sort (status : string) (tbl : list TaskRow) : option Z :=
  match tbl with
  | [] => None
  | r :: tbl' =>
      let m := max_sort status tbl' in
      match r "status", r "sort_index" with
      | VText s, VInt k =>
          if String.eqb s status then Some (match m with Some m' => Z.max k m' | None => k end) else m
      | _, _ => m
      end
  end.

Definition next_sort (status : string) (tbl : list TaskRow) : option Z :=
  let n := (match max_sort status tbl with Some m => m | None => -1 end + 1)%Z in
  if int4_ok n then Some n else None.

Definition opt_default {A} (o : option A) (d : A) : A :=
  match o with Some x => x | None => d end.

(** The constants of the POST handler read from the body. *)
Definition post_title (b : TaskBody) : string :=
  match b_title b with JsStr s => js_trim s | _ => "" end.

Definition post_assignee (b : TaskBody) : string :=
  match b_assignee b with
  | JsStr s => if String.eqb (js_trim s) "" then "Unassigned" else js_trim s
  | _ => "Unassigned"
  end.

Definition post_status (b : TaskBody) : string := opt_default (parseTaskStatus (b_status b)) "TODO".

Definition post_priority (b : TaskBody) : string := opt_default (parseTaskPriority (b_priority b)) "medium".

(** [POST /api/tasks]; [js_now] is [new Date().toISOString()], [db_now]
    the statement's [now()] and [new_id] the next value of the [id]
    sequence. *)
Definition post_handler (S2N : string -> jsnum) (js_now db_now : string) (new_id : Z)
    (b : TaskBody) (tbl : list TaskRow) : TaskResp * list TaskRow :=
  let title := post_title b in
  if String.eqb title "" then (TBad "title is required", tbl) else
  let assignee := post_assignee b in
  let status := post_status b in
  let priority := post_priority b in
  let deadline := parseTaskDeadline (b_deadline b) in
  let sortIndexExplicit := parseIntBody S2N (b_sort_index b) in
  let respondedAt := if String.eqb status "IN_PROGRESS" then PVStr js_now else PVNull in
  let completedAt := if String.eqb status "DONE" then PVStr js_now else PVNull in
  let sortIndex := match sortIndexExplicit with
                   | Some n => Some n
                   | None => next_sort status tbl
                   end in
  match sortIndex with
  | None => (TQueryError, tbl)
  | Some si =>
    let dl := match deadline with
              | Some d => option_map VDate (pg_date d)
              | None => Some VNull end in
    let ts (p : pval) := match p with PVStr t => VTime t | _ => VNull end in
    match dl with
    | Some dv =>
      if negb (int4_ok si) || existsb (row_has_id new_id) tbl then (TQueryError, tbl) else
      let row := fun c =>
        if String.eqb c "id" then VInt new_id
        else if String.eqb c "title" then VText title
        else if String.eqb c "assignee" then VText assignee
        else if String.eqb c "status" then VText status
        else if String.eqb c "priority" then VText priority
        else if String.eqb c "deadline" then dv
        else if String.eqb c "sort_index" then VInt si
        else if String.eqb c "responded_at" then ts respondedAt
        else if String.eqb c "completed_at" then ts completedAt
        else if String.eqb c "created_at" then VTime db_now
        else if String.eqb c "updated_at" then VTime db_now
        else VNull in
      (TRow 201 row, (tbl ++ [row])%list)
    | None => (TQueryError, tbl)
    end
  end.

(** The timestamps agree with the status: [completed_at] is set exactly on
    the DONE tasks, and an IN_PROGRESS task has [responded_at]. *)
Definition task_inv (r : TaskRow) : Prop :=
  (r "completed_at" <> VNull <-> r "status" = VText "DONE") /\
  (r "status" = VText "IN_PROGRESS" -> r "responded_at" <> VNull).

(** The parameter numbers of the [col = $i] entries, in order. *)
Fixpoint param_indices (fs : list SetItem) : list nat :=
  match fs with
  | [] => []
  | SetParam _ i _ :: fs' => i :: param_indices fs'
  | _ :: fs' => param_indices fs'
  end.

(** One row of the [UPDATE], as [exec_update] folds it over the table. *)
Definition update_step (now : string) (fields : list SetItem) (values : list pval) (z : Z)
    (r : TaskRow) (acc : option (list TaskRow * list TaskRow)) :=
  match acc with
  | None => None
  | Some (tbl', ret) =>
      if row_has_id z r then
        match update_row now fields values r with
        | Some r' => Some (r' :: tbl', r' :: ret)
        | None => None
        end
      else Some (r :: tbl', ret)
  end.

(** A task in progress with id 7. *)
Definition sample_task : TaskRow :=
  fun c =>
    if String.eqb c "id" then VInt 7
    else if String.eqb c "title" then VText "Count till"
    else if String.eqb c "assignee" then VText "Alice"
    else if String.eqb c "status" then VText "IN_PROGRESS"
    else if String.eqb c "priority" then VText "medium"
    else if String.eqb c "deadline" then VNull
    else if String.eqb c "sort_index" then VInt 0
    else if String.eqb c "responded_at" then VTime "2024-01-05 09:00:00+00"
    else if String.eqb c "completed_at" then VNull
    else if String.eqb c "created_at" then VTime "2024-01-05 08:00:00+00"
    else if String.eqb c "updated_at" then VTime "2024-01-05 09:00:00+00"
    else VNull.

(** [{ title: " Count till ", status: "done" }]. *)
Definition sample_body_done : TaskBody :=
  mk_body (JsStr " Count till ") JsUndef (JsStr "done") JsUndef JsUndef JsUndef.

(** [{ title: "Order paper", status: "in_progress", deadline: "2024-02-01" }]. *)
Definition sample_body_new : TaskBody :=
  mk_body (JsStr "Order paper") JsUndef (JsStr "in_progress") JsUndef (JsStr "2024-02-01") JsUndef.


(* ================================================================== *)
(** * Properties *)

(** ** The split view *)

Lemma split_and_scan_nonempty (s : string) :
  forall k cur, split_and_scan k cur s <> [].
Proof.
  induction s as [|c r IH]; intros k cur; simpl; [discriminate|].
  destruct k as [|k]; [|apply IH].
  destruct (and_len (String c r)) as [[|n]|]; try apply IH; discriminate.
Qed.

Lemma view_people_length (sp : option string) : 1 <= length (view_people sp).
Proof.
  unfold view_people, regexp_split_and.
  match goal with |- context [split_and_scan 0 "" ?t] =>
    pose proof (split_and_scan_nonempty t 0 "") as H;
    destruct (split_and_scan 0 "" t) end; [congruence|simpl; lia].
Qed.

Lemma eval_map_val {A B} (f : A -> eval B) (g : A -> B) (l : list A) :
  (forall a, In a l -> f a = Val (g a)) -> eval_map f l = Val (map g l).
Proof.
  induction l as [|a l IH]; intros H; simpl; [reflexivity|].
  rewrite (H a (or_introl eq_refl)); simpl.
  rewrite IH by (intros; apply H; right; assumption); reflexivity.
Qed.


(** Dividing by a non-zero count never raises. *)
Lemma sql_numeric_div_nonzero (v : option pgnum) (k : Q) :
  ~ k == 0 -> sql_numeric_div v (Some (PNum k)) = Val (share v k).
Proof.
  intros Hk; destruct v as [[|x]|]; simpl; try reflexivity.
  destruct (Qeq_bool k 0) eqn:E; [|reflexivity].
  apply Qeq_bool_eq in E; contradiction.
Qed.

Lemma pow10_pos (r : nat) : (0 < 10 ^ Z.of_nat r)%Z.
Proof. apply Z.pow_pos_nonneg; lia. Qed.

Lemma numeric_round_err (r : nat) (x : Q) : (
  Qabs (numeric_round r x - x) <= half_unit r)%Q.
Proof.
  unfold numeric_round. rewrite Qred_correct. unfold half_unit.
  pose proof (pow10_pos r) as Hp.
  set (p := (10 ^ Z.of_nat r)%Z) in *.
  destruct x as [a b]. cbn [Qnum Qden].
  set (d := Zpos b).
  assert (Hd : (0 < d)%Z) by reflexivity.
  set (n := (a * p)%Z).
  set (t := ((2 * Z.abs n + d) / (2 * d))%Z).
  assert (Ht1 : (2 * d * t <= 2 * Z.abs n + d)%Z) by (apply Z.mul_div_le; lia).
  assert (Ht2 : (2 * Z.abs n + d < 2 * d * (t + 1))%Z).
  { pose proof (Z.mod_pos_bound (2 * Z.abs n + d) (2 * d)) as Hm.
    pose proof (Z.div_mod (2 * Z.abs n + d) (2 * d)) as Hdm. fold t in Hdm. lia. }
  assert (Hk : (Z.abs (Z.sgn n * t * d - n) * 2 <= d)%Z).
  { replace (2 * d * t)%Z with (2 * (t * d))%Z in Ht1 by ring.
    replace (2 * d * (t + 1))%Z with (2 * (t * d) + 2 * d)%Z in Ht2 by ring.
    destruct (Z.sgn_spec n) as [[Hn E]|[[Hn E]|[Hn E]]]; rewrite E.
    - rewrite Z.abs_eq in Ht1, Ht2 by lia. match goal with |- (Z.abs ?X * 2 <= _)%Z => destruct (Z.abs_spec X) as [[H1 H2]|[H1 H2]]; rewrite H2; lia end.
    - rewrite <- Hn in Ht1, Ht2 |- *. simpl. lia.
    - rewrite Z.abs_neq in Ht1, Ht2 by lia.
      replace (-1 * t * d - n)%Z with (- (t * d) - n)%Z by ring.
      match goal with |- (Z.abs ?X * 2 <= _)%Z => destruct (Z.abs_spec X) as [[H1 H2]|[H1 H2]]; rewrite H2; lia end. }
  unfold Qle, Qminus, Qplus, Qopp, Qabs, Qmult. cbn [Qnum Qden].
  rewrite !Pos2Z.inj_mul, !Z2Pos.id by lia.
  fold d. rewrite Z.mul_1_l.
  replace (Z.sgn n * t * d + - a * p)%Z with (Z.sgn n * t * d - n)%Z by (unfold n; ring).
  nia.
Qed.

Lemma sql_sum_repeat_from (y a : Q) (n : nat) :
  exists q, fold_left (fun acc v =>
    match acc, v with
    | None, _ => v
    | Some a, None => Some a
    | Some a, Some b => Some (pg_add a b)
    end) (repeat (Some (PNum y)) n) (Some (PNum a)) = Some (PNum q)
  /\ (q == a + inject_Z (Z.of_nat n) * y)%Q.
Proof.
  revert a; induction n as [|n IH]; intros a.
  - exists a; split; [reflexivity|]. simpl. ring.
  - rewrite Nat2Z.inj_succ, <- Z.add_1_r, inject_Z_plus. cbn [repeat fold_left].
    destruct (IH (a + y)%Q) as [q [Hq Eq]]. exists q; split; [exact Hq|].
    rewrite Eq. simpl pg_add. ring.
Qed.

Lemma sql_sum_repeat (y : Q) (n : nat) :
  exists q, sql_sum (repeat (Some (PNum y)) (S n)) = Some (PNum q)
  /\ (q == inject_Z (Z.of_nat (S n)) * y)%Q.
Proof.
  rewrite Nat2Z.inj_succ, <- Z.add_1_r, inject_Z_plus.
  unfold sql_sum; cbn [repeat fold_left].
  destruct (sql_sum_repeat_from y y n) as [q [Hq Eq]].
  exists q; split; [exact Hq|].
  rewrite Eq. ring.
Qed.

Lemma map_const_repeat {A B} (b : B) (l : list A) :
  map (fun _ => b) l = repeat b (length l).
Proof. induction l; simpl; congruence. Qed.


Lemma sales_people_rows_eq (s : Sale) :
  sales_people_rows s =
  Val (map (split_row s (inject_Z (Z.of_nat (length (view_people (salesperson s))))))
           (view_people (salesperson s))).
Proof.
  unfold sales_people_rows.
  pose proof (view_people_length (salesperson s)) as Hlen.
  set (people := view_people (salesperson s)) in *.
  set (k := inject_Z (Z.of_nat (length people))).
  assert (Hk : ~ (k == 0)%Q).
  { unfold k; intros E. unfold Qeq in E; simpl in E. lia. }
  assert (Hpc : people_count_nz people = Some (PNum k)).
  { unfold people_count_nz, k. destruct (length people); [lia|reflexivity]. }
  rewrite Hpc. apply eval_map_val. intros person _.
  rewrite !sql_numeric_div_nonzero by exact Hk. reflexivity.
Qed.

Lemma split_row_field (s : Sale) (k : Q) (p : string) (f : field) :
  split_field (split_row s k p) f = share (safe_num (sale_field s f)) k.
Proof. destruct f; reflexivity. Qed.


Definition three_way_sale : Sale :=
  mk_sale "S3" (Some "Alice and Bob and Carol") (Some (PNum 100)) num0.



(** ** Participant extraction *)

Lemma sapp_assoc (a b c : string) : (a ++ b) ++ c = a ++ (b ++ c).
Proof. induction a; simpl; congruence. Qed.

Lemma sapp_nil (a : string) : a ++ "" = a.
Proof. induction a; simpl; congruence. Qed.

Lemma name_char_facts (c : ascii) : name_char c = true ->
  is_space c = false /\ Ascii.eqb c "&"%char = false.
Proof. unfold name_char; destruct (is_space c), (Ascii.eqb c "&"%char); simpl; intuition congruence. Qed.

Lemma replace_names (a t : string) :
  forallb name_char (list_ascii_of_string a) = true ->
  replace_amp_scan 0 (a ++ t) = a ++ replace_amp_scan 0 t.
Proof.
  induction a as [|c a IH]; intros H; [reflexivity|].
  simpl in H; apply andb_prop in H as [Hc Ha].
  apply name_char_facts in Hc as [Hs Ham].
  simpl. unfold amp_len; simpl. rewrite Hs; simpl. rewrite Ham. rewrite IH by exact Ha. reflexivity.
Qed.

Lemma replace_amp_sep (a : string) (c : ascii) (b : string) : forallb name_char (list_ascii_of_string a) = true -> name_char c = true -> forallb name_char (list_ascii_of_string b) = true ->
  regexp_replace_amp (a ++ " & " ++ String c b) = a ++ " and " ++ String c b.
Proof.
  intros Ha Hc Hb.
  unfold regexp_replace_amp. rewrite replace_names by exact Ha. f_equal.
  apply name_char_facts in Hc as [Hs Ham].
  simpl. unfold amp_len. simpl. rewrite Hs. simpl. rewrite Ham.
  rewrite <- (sapp_nil b) at 1. rewrite replace_names by exact Hb. rewrite sapp_nil. reflexivity.
Qed.

Lemma replace_and_sep (a : string) (c : ascii) (b sep : string) :
  forallb name_char (list_ascii_of_string a) = true -> name_char c = true ->
  forallb name_char (list_ascii_of_string b) = true ->
  (sep = " and " \/ sep = " AND ") ->
  regexp_replace_amp (a ++ sep ++ String c b) = a ++ sep ++ String c b.
Proof.
  intros Ha Hc Hb Hsep. unfold regexp_replace_amp. rewrite replace_names by exact Ha. f_equal.
  apply name_char_facts in Hc as [Hs Ham].
  destruct Hsep as [->| ->];
  simpl; unfold amp_len; simpl; rewrite Hs; simpl; rewrite Ham;
  rewrite <- (sapp_nil b) at 1; rewrite replace_names by exact Hb; rewrite sapp_nil; reflexivity.
Qed.

Lemma snoc_app (cur : string) (c : ascii) (t : string) : snoc cur c ++ t = cur ++ String c t.
Proof. unfold snoc. rewrite sapp_assoc. reflexivity. Qed.

Lemma split_names (a t cur : string) :
  forallb name_char (list_ascii_of_string a) = true ->
  split_and_scan 0 cur (a ++ t) = split_and_scan 0 (cur ++ a) t.
Proof.
  revert cur; induction a as [|c a IH]; intros cur H; simpl.
  - rewrite sapp_nil. reflexivity.
  - simpl in H; apply andb_prop in H as [Hc Ha].
    apply name_char_facts in Hc as [Hs Ham].
    unfold and_len; simpl. rewrite Hs. simpl. rewrite IH by exact Ha. rewrite snoc_app. reflexivity.
Qed.

Lemma split_and_sep (a : string) (c : ascii) (b sep : string) :
  forallb name_char (list_ascii_of_string a) = true -> name_char c = true ->
  forallb name_char (list_ascii_of_string b) = true ->
  (sep = " and " \/ sep = " AND ") ->
  regexp_split_and (a ++ sep ++ String c b) = [a; String c b].
Proof.
  intros Ha Hc Hb Hsep. unfold regexp_split_and. rewrite split_names by exact Ha.
  apply name_char_facts in Hc as [Hs Ham].
  destruct Hsep as [->| ->]; simpl; unfold and_len; simpl; rewrite Hs; simpl;
  rewrite <- (sapp_nil b); rewrite split_names by exact Hb; simpl; rewrite ?sapp_nil; reflexivity.
Qed.

Lemma drop_while_none (p : ascii -> bool) (l : list ascii) :
  forallb (fun c => negb (p c)) l = true -> drop_while p l = l.
Proof.
  destruct l as [|c l]; simpl; [reflexivity|].
  destruct (p c); simpl; [discriminate|reflexivity].
Qed.

Lemma strip_none (p : ascii -> bool) (a : string) :
  forallb (fun c => negb (p c)) (list_ascii_of_string a) = true -> strip p a = a.
Proof.
  intros H. unfold strip. rewrite (drop_while_none p _ H).
  rewrite drop_while_none.
  - rewrite rev_involutive. apply string_of_list_ascii_of_string.
  - rewrite forallb_forall in *. intros x Hx. apply H. apply in_rev. exact Hx.
Qed.

Lemma forallb_impl (p q : ascii -> bool) (l : list ascii) :
  (forall c, p c = true -> q c = true) -> forallb p l = true -> forallb q l = true.
Proof.
  intros Hpq H. rewrite forallb_forall in *. intros x Hx. apply Hpq, H, Hx.
Qed.

Lemma space_not_name (c : ascii) : name_char c = true -> negb (Ascii.eqb c " "%char) = true.
Proof.
  intros H. apply name_char_facts in H as [Hs _].
  destruct (Ascii.eqb_spec c " "%char); [subst; discriminate|reflexivity].
Qed.

Lemma view_salesperson_name (a : string) :
  plain_name a = true -> view_salesperson a = Some a.
Proof.
  unfold plain_name, view_salesperson, sql_trim. intros H. apply andb_prop in H as [Hne Ha].
  rewrite strip_none.
  - unfold nullif_empty. destruct (String.eqb a ""); [discriminate|reflexivity].
  - eapply forallb_impl; [|exact Ha]. apply space_not_name.
Qed.

Lemma js_trim_name (a : string) :
  forallb name_char (list_ascii_of_string a) = true -> js_trim a = a.
Proof.
  intros Ha. apply strip_none. eapply forallb_impl; [|exact Ha].
  intros c Hc. apply name_char_facts in Hc as [Hs _]. rewrite Hs. reflexivity.
Qed.

Lemma js_split_names (a t cur : string) :
  forallb name_char (list_ascii_of_string a) = true ->
  js_split_scan " AND " 0 cur (a ++ t) = js_split_scan " AND " 0 (cur ++ a) t.
Proof.
  revert cur; induction a as [|c a IH]; intros cur H.
  - simpl. rewrite sapp_nil. reflexivity.
  - simpl in H; apply andb_prop in H as [Hc Ha].
    apply name_char_facts in Hc as [Hs Ham].
    cbn [js_split_scan String.append String.prefix String.eqb negb andb].
    destruct (ascii_dec " " c) as [E|E]; [subst; discriminate|].
    rewrite IH by exact Ha. rewrite snoc_app. reflexivity.
Qed.

Lemma prefix_space_names (s p : string) :
  forallb name_char (list_ascii_of_string s) = true ->
  In " "%char (list_ascii_of_string p) -> String.prefix p s = false.
Proof.
  revert p; induction s as [|c s IH]; intros p Hs Hp.
  - destruct p; [contradiction|reflexivity].
  - destruct p as [|d p]; [contradiction|].
    simpl in Hs; apply andb_prop in Hs as [Hc Hs].
    simpl. destruct (ascii_dec d c) as [->|E]; [|reflexivity].
    apply IH; [exact Hs|].
    destruct Hp as [E|Hp]; [|exact Hp].
    subst. apply name_char_facts in Hc as [Hsp _]. discriminate.
Qed.

Lemma js_split_at_sep (cur r : string) :
  js_split_scan " AND " 0 cur (" AND " ++ r) = cur :: js_split_scan " AND " 0 "" r.
Proof. destruct r; reflexivity. Qed.

Lemma js_split_char (cur r : string) (x : ascii) :
  String.prefix " AND " (String x r) = false ->
  js_split_scan " AND " 0 cur (String x r) = js_split_scan " AND " 0 (snoc cur x) r.
Proof. intros H. cbn [js_split_scan String.eqb negb andb]. rewrite H. reflexivity. Qed.

Lemma js_split_space (cur r : string) :
  String.prefix "AND " r = false ->
  js_split_scan " AND " 0 cur (String " " r) = js_split_scan " AND " 0 (snoc cur " ") r.
Proof.
  intros H. cbn [js_split_scan String.eqb negb andb].
  change (String.prefix " AND " (String " " r)) with (String.prefix "AND " r).
  rewrite H. reflexivity.
Qed.

Lemma import_split_AND (a : string) (c : ascii) (b : string) :
  forallb name_char (list_ascii_of_string a) = true -> name_char c = true ->
  forallb name_char (list_ascii_of_string b) = true ->
  js_split (a ++ " AND " ++ String c b) " AND " = [a; String c b].
Proof.
  intros Ha Hc Hb. unfold js_split. rewrite js_split_names by exact Ha.
  rewrite js_split_at_sep. rewrite <- (sapp_nil (String c b)).
  rewrite js_split_names by (simpl; rewrite Hc, Hb; reflexivity).
  simpl. rewrite !sapp_nil. reflexivity.
Qed.

Lemma import_split_other (a : string) (c : ascii) (b sep : string) :
  forallb name_char (list_ascii_of_string a) = true -> name_char c = true ->
  forallb name_char (list_ascii_of_string b) = true ->
  (sep = " and " \/ sep = " & ") ->
  js_split (a ++ sep ++ String c b) " AND " = [a ++ sep ++ String c b].
Proof.
  intros Ha Hc Hb Hsep. unfold js_split. rewrite js_split_names by exact Ha.
  assert (Hcb : forallb name_char (list_ascii_of_string (String c b)) = true)
    by (simpl; rewrite Hc, Hb; reflexivity).
  assert (Hp : String.prefix "AND " (String c b) = false)
    by (apply prefix_space_names; [exact Hcb|simpl; tauto]).
  destruct Hsep as [->| ->]; cbn [String.append];
  rewrite ?js_split_char by reflexivity;
  rewrite js_split_space by exact Hp;
  rewrite <- (sapp_nil (String c b)); rewrite js_split_names by exact Hcb;
  simpl; unfold snoc; rewrite !sapp_assoc, !sapp_nil; reflexivity.
Qed.

Lemma list_ascii_app (x y : string) :
  list_ascii_of_string (x ++ y) = app (list_ascii_of_string x) (list_ascii_of_string y).
Proof. induction x; simpl; congruence. Qed.

Lemma js_trim_inner (a m b : string) :
  plain_name a = true -> plain_name b = true -> js_trim (a ++ m ++ b) = a ++ m ++ b.
Proof.
  unfold plain_name, js_trim, strip. intros Ha Hb.
  apply andb_prop in Ha as [Hane Ha]; apply andb_prop in Hb as [Hbne Hb].
  rewrite !list_ascii_app.
  destruct a as [|ca a]; [discriminate|]. simpl in Ha; apply andb_prop in Ha as [Hca _].
  apply name_char_facts in Hca as [Hsa _].
  cbn [list_ascii_of_string app drop_while]. rewrite Hsa.
  assert (Hl : exists x r, rev (list_ascii_of_string b) = x :: r /\ is_space x = false).
  { destruct (rev (list_ascii_of_string b)) as [|x r] eqn:E.
    - destruct b; [discriminate|]. apply (f_equal (@length _)) in E.
      rewrite length_rev in E. discriminate.
    - exists x, r; split; [reflexivity|].
      assert (Hx : In x (list_ascii_of_string b)) by (apply in_rev; rewrite E; left; reflexivity).
      rewrite forallb_forall in Hb. apply Hb in Hx. apply name_char_facts in Hx as [Hx _]. exact Hx. }
  destruct Hl as [x [r [Er Hx]]].
  match goal with |- context [drop_while is_space (rev ?l)] =>
    assert (Hd : drop_while is_space (rev l) = rev l) end.
  { rewrite app_comm_cons, !rev_app_distr, Er. cbn [app drop_while]. rewrite Hx. reflexivity. }
  rewrite Hd, rev_involutive, <- !list_ascii_app.
  change (ca :: list_ascii_of_string (a ++ m ++ b))
    with (list_ascii_of_string (String ca (a ++ m ++ b))).
  apply string_of_list_ascii_of_string.
Qed.

Lemma plain_name_cons (b : string) : plain_name b = true ->
  exists c b', b = String c b' /\ name_char c = true /\
               forallb name_char (list_ascii_of_string b') = true.
Proof.
  unfold plain_name. intros H. apply andb_prop in H as [Hne H].
  destruct b as [|c b']; [discriminate|]. simpl in H. apply andb_prop in H as [Hc Hb].
  exists c, b'; auto.
Qed.

Lemma plain_name_chars (a : string) : plain_name a = true ->
  forallb name_char (list_ascii_of_string a) = true.
Proof. unfold plain_name. intros H. apply andb_prop in H as [_ H]. exact H. Qed.

(** C2 (amended).  For names [a] and [b] (non-empty, without white space
    or ampersand): the split view turns ["a and b"], ["a AND b"] and
    ["a & b"] into the participants [a] and [b], and keeps the empty piece
    of ["a &"] as a row with a NULL salesperson; the import splits only on
    the literal, case-sensitive [" AND "], so ["a and b"] and ["a & b"]
    stay one participant, and keeps empty pieces (["a AND  AND b"]). *)
Theorem participant_extraction (a b : string)
  (Ha : plain_name a = true) (Hb : plain_name b = true) :
  view_participants (Some (a ++ " and " ++ b)) = [Some a; Some b] /\
  view_participants (Some (a ++ " AND " ++ b)) = [Some a; Some b] /\
  view_participants (Some (a ++ " & " ++ b)) = [Some a; Some b] /\
  view_participants (Some (a ++ " &")) = [Some a; None] /\
  import_salespeople (a ++ " AND " ++ b) = [a; b] /\
  import_salespeople (a ++ " and " ++ b) = [a ++ " and " ++ b] /\
  import_salespeople (a ++ " & " ++ b) = [a ++ " & " ++ b] /\
  import_salespeople (a ++ " AND  AND " ++ b) = [a; ""; b].
Proof.
  pose proof (plain_name_chars a Ha) as Ha'.
  pose proof (view_salesperson_name a Ha) as Va.
  pose proof (view_salesperson_name b Hb) as Vb.
  pose proof (js_trim_name a Ha') as Ta.
  destruct (plain_name_cons b Hb) as [c [b' [-> [Hc Hb']]]].
  pose proof (js_trim_name (String c b')) as Tb.
  assert (Hcb : forallb name_char (list_ascii_of_string (String c b')) = true)
    by (simpl; rewrite Hc, Hb'; reflexivity).
  specialize (Tb Hcb).
  unfold view_participants, view_people, import_salespeople.
  split; [|split; [|split; [|split; [|split; [|split; [|split]]]]]].
  - rewrite replace_and_sep, split_and_sep by auto. simpl. rewrite Va, Vb. reflexivity.
  - rewrite replace_and_sep, split_and_sep by auto. simpl. rewrite Va, Vb. reflexivity.
  - rewrite replace_amp_sep, split_and_sep by auto. simpl. rewrite Va, Vb. reflexivity.
  - unfold regexp_replace_amp. rewrite replace_names by exact Ha'.
    unfold regexp_split_and. rewrite split_names by exact Ha'. simpl. rewrite Va. reflexivity.
  - rewrite import_split_AND by auto. simpl. rewrite Ta, Tb. reflexivity.
  - rewrite import_split_other by auto. cbn [map]. rewrite js_trim_inner by auto. reflexivity.
  - rewrite import_split_other by auto. cbn [map]. rewrite js_trim_inner by auto. reflexivity.
  - unfold js_split. rewrite js_split_names by exact Ha'.
    change (" AND  AND " ++ String c b') with (" AND " ++ (" AND " ++ String c b')).
    rewrite !js_split_at_sep. rewrite <- (sapp_nil (String c b')).
    rewrite js_split_names by exact Hcb. simpl. rewrite sapp_nil, Ta, Tb. reflexivity.
Qed.

Lemma participant_extraction_witness :
  (plain_name "Alice" = true /\ plain_name "Bob" = true) /\
  view_participants (Some ("Alice" ++ " and " ++ "Bob")) = [Some "Alice"; Some "Bob"] /\
  view_participants (Some ("Alice" ++ " AND " ++ "Bob")) = [Some "Alice"; Some "Bob"] /\
  view_participants (Some ("Alice" ++ " & " ++ "Bob")) = [Some "Alice"; Some "Bob"] /\
  view_participants (Some ("Alice" ++ " &")) = [Some "Alice"; None] /\
  import_salespeople ("Alice" ++ " AND " ++ "Bob") = ["Alice"; "Bob"] /\
  import_salespeople ("Alice" ++ " and " ++ "Bob") = ["Alice" ++ " and " ++ "Bob"] /\
  import_salespeople ("Alice" ++ " & " ++ "Bob") = ["Alice" ++ " & " ++ "Bob"] /\
  import_salespeople ("Alice" ++ " AND  AND " ++ "Bob") = ["Alice"; ""; "Bob"].
Proof.
  split; [split; reflexivity|].
  exact (participant_extraction "Alice" "Bob" eq_refl eq_refl).
Defined.

(** C2 as stated fails on the import path: ["A and B"] is not split. *)
Lemma participant_extraction_counterexample :
  import_salespeople "A and B" = ["A and B"] /\ import_salespeople "A and B" <> ["A"; "B"].
Proof. split; [reflexivity|discriminate]. Qed.

(** ** The import loop *)

Section ImportProofs.

Variable StringToNumber : string -> jsnum.
Variable NumberToString : jsnum -> string.

Let step := process_row StringToNumber NumberToString.

(** [batchOps] counts the open batch. *)
Definition batch_inv (st : St) : Prop := length (batch st) = batchOps st.

(** Every store marked as seen has a store write in the trace. *)
Definition seen_inv (st : St) : Prop :=
  forall id, In id (seenStores st) -> exists d, In (SetStore id d) (trace st).

Lemma trace_commitBatch (st : St) :
  batch_inv st -> trace (commitBatch st) = trace st /\ batch_inv (commitBatch st).
Proof.
  unfold batch_inv, commitBatch, trace. intros H.
  destruct (Nat.eqb (batchOps st) 0) eqn:E; [split; auto|].
  simpl. rewrite concat_app. simpl. rewrite !app_nil_r. split; reflexivity.
Qed.

Lemma commitBatch_seen (st : St) : seenStores (commitBatch st) = seenStores st.
Proof. unfold commitBatch. destruct (Nat.eqb (batchOps st) 0); reflexivity. Qed.

Lemma trace_queue (st : St) (op : Op) :
  trace (queue st op) = (trace st ++ [op])%list.
Proof. unfold trace, queue; simpl. rewrite app_assoc. reflexivity. Qed.

Lemma step_trace (fp : string) (st : St) (r : Row) :
  batch_inv st -> seen_inv st ->
  batch_inv (step fp st r) /\ seen_inv (step fp st r) /\
  exists ops, trace (step fp st r) = (trace st ++ ops)%list /\
    forall n, normalize StringToNumber NumberToString r = Some n ->
      In (txn_op fp n) ops /\
      (slugify (storeLocation n) <> "" ->
       exists d, In (SetStore (slugify (storeLocation n)) d) (trace (step fp st r))).
Proof.
  intros Hb Hs. unfold step, process_row.
  destruct (normalize StringToNumber NumberToString r) as [n|] eqn:En.
  2:{ split; [exact Hb|]. split; [exact Hs|]. exists []. rewrite app_nil_r.
      split; [reflexivity|discriminate]. }
  set (st0 := set_counters st (S (rowCount st)) (validRowCount st) (skippedRowCount st)).
  set (st1 := set_counters st0 (rowCount st0) (S (validRowCount st0)) (skippedRowCount st0)).
  assert (E1 : trace st1 = trace st /\ batch_inv st1 /\ seenStores st1 = seenStores st)
    by (repeat split; assumption).
  set (sid := slugify (storeLocation n)).
  set (st2 := if negb (String.eqb sid "") && negb (existsb (String.eqb sid) (seenStores st1))
              then queue (add_seen st1 sid) (SetStore sid {| st_name := storeLocation n; st_active := true |})
              else st1).
  assert (E2 : batch_inv st2 /\ seen_inv st2 /\
               (exists ops2, trace st2 = (trace st ++ ops2)%list) /\
               (sid <> "" -> exists d, In (SetStore sid d) (trace st2))).
  { destruct E1 as [T1 [B1 S1]]. unfold st2.
    destruct (negb (String.eqb sid "") && negb (existsb (String.eqb sid) (seenStores st1))) eqn:Ec.
    - set (op := SetStore sid {| st_name := storeLocation n; st_active := true |}).
      assert (Tq : trace (queue (add_seen st1 sid) op) = (trace st1 ++ [op])%list)
        by (rewrite trace_queue; reflexivity).
      split.
      { unfold batch_inv in *.
        change (batch (queue (add_seen st1 sid) op)) with (batch st1 ++ [op])%list.
        change (batchOps (queue (add_seen st1 sid) op)) with (S (batchOps st1)).
        rewrite length_app, B1. simpl. lia. }
      split.
      { intros id Hid. change (seenStores (queue (add_seen st1 sid) op))
          with (seenStores st1 ++ [sid])%list in Hid. rewrite Tq.
        apply in_app_or in Hid as [Hid|[<-|[]]].
        - rewrite S1 in Hid. destruct (Hs id Hid) as [d Hd]. exists d.
          rewrite T1. apply in_or_app; left; exact Hd.
        - eexists. apply in_or_app; right; left; reflexivity. }
      split; [exists [op]; rewrite Tq, T1; reflexivity|].
      intros _. eexists. rewrite Tq. apply in_or_app; right; left; reflexivity.
    - split; [exact B1|]. split.
      + intros id Hid. rewrite S1 in Hid. rewrite T1. apply Hs, Hid.
      + split; [exists []; rewrite app_nil_r; exact T1|].
        intros Hne. apply andb_false_iff in Ec as [Ec|Ec].
        * apply String.eqb_neq in Hne. rewrite Hne in Ec. discriminate.
        * apply negb_false_iff, existsb_exists in Ec as [id [Hid Eid]].
          apply String.eqb_eq in Eid; subst id. rewrite S1 in Hid.
          rewrite T1. apply Hs, Hid. }
  destruct E2 as [B2 [S2 [[ops2 T2] St2]]].
  set (st3 := queue st2 (txn_op fp n)).
  assert (B3 : batch_inv st3)
    by (unfold batch_inv, st3, queue in *; simpl; rewrite length_app, B2; simpl; lia).
  assert (S3 : seen_inv st3).
  { intros id Hid. destruct (S2 id Hid) as [d Hd]. exists d. unfold st3.
    rewrite trace_queue. apply in_or_app; left; exact Hd. }
  assert (T3 : trace st3 = (trace st ++ ops2 ++ [txn_op fp n])%list)
    by (unfold st3; rewrite trace_queue, T2, app_assoc; reflexivity).
  assert (St3 : sid <> "" -> exists d, In (SetStore sid d) (trace st3)).
  { intros H. destruct (St2 H) as [d Hd]. exists d. unfold st3. rewrite trace_queue.
    apply in_or_app; left; exact Hd. }
  fold st3.
  destruct (Nat.leb MAX_BATCH_OPS (batchOps st3)).
  - destruct (trace_commitBatch st3 B3) as [Tc Bc].
    split; [exact Bc|]. split.
    + intros id Hid. rewrite commitBatch_seen in Hid. rewrite Tc. apply S3, Hid.
    + exists (ops2 ++ [txn_op fp n])%list. rewrite Tc. split; [exact T3|].
      intros n' En'. injection En' as <-. split.
      * apply in_or_app; right; left; reflexivity.
      * exact St3.
  - split; [exact B3|]. split; [exact S3|].
    exists (ops2 ++ [txn_op fp n])%list. split; [exact T3|].
    intros n' En'. injection En' as <-. split; [apply in_or_app; right; left; reflexivity|exact St3].
Qed.

Lemma fold_trace (fp : string) (rows : list Row) :
  forall st, batch_inv st -> seen_inv st ->
  let st' := fold_left (step fp) rows st in
  batch_inv st' /\ seen_inv st' /\ (forall x, In x (trace st) -> In x (trace st')) /\
  forall r n, In r rows -> normalize StringToNumber NumberToString r = Some n ->
    In (txn_op fp n) (trace st') /\
    (slugify (storeLocation n) <> "" ->
     exists d, In (SetStore (slugify (storeLocation n)) d) (trace st')).
Proof.
  induction rows as [|r rows IH]; intros st Hb Hs; simpl.
  - split; [exact Hb|]. split; [exact Hs|]. split; [auto|]. intros r n [].
  - destruct (step_trace fp st r Hb Hs) as [Hb1 [Hs1 [ops [Tr Hr]]]].
    destruct (IH _ Hb1 Hs1) as [Hb2 [Hs2 [Mono Hall]]].
    split; [exact Hb2|]. split; [exact Hs2|]. split.
    + intros x Hx. apply Mono. rewrite Tr. apply in_or_app; left; exact Hx.
    + intros r' n [<-|Hin] En.
      * destruct (Hr n En) as [Ht Hst]. split.
        -- apply Mono. rewrite Tr. apply in_or_app; right; exact Ht.
        -- intros Hne. destruct (Hst Hne) as [d Hd]. exists d. apply Mono, Hd.
      * exact (Hall r' n Hin En).
Qed.

Lemma init_inv : batch_inv init_st /\ seen_inv init_st.
Proof. split; [reflexivity|]. intros id []. Qed.

(** The state the handler ends in, when it processes the file. *)
Lemma importSalesXlsx_completed (fp : string) (rows : list Row) (st : St) :
  importSalesXlsx StringToNumber NumberToString fp rows = Completed st ->
  st = commitBatch (fold_left (step fp) rows init_st).
Proof.
  unfold importSalesXlsx.
  destruct (String.eqb fp ""); [discriminate|].
  destruct (negb (is_sales_folder fp)); [discriminate|].
  destruct (negb _); [discriminate|]. intros H; injection H as <-. reflexivity.
Qed.

(** When the import completes, its last batch has been committed and
    every accepted row's transaction write, and a store write for its
    (non-empty) store slug, are among the committed writes, whatever the
    number of rows and the pattern of accepted and skipped ones. *)
Theorem final_flush_complete (fp : string) (rows : list Row) (st : St)
  (H : importSalesXlsx StringToNumber NumberToString fp rows = Completed st) :
  batch st = [] /\
  forall r n, In r rows -> normalize StringToNumber NumberToString r = Some n ->
    In (txn_op fp n) (concat (committed st)) /\
    (slugify (storeLocation n) <> "" ->
     exists d, In (SetStore (slugify (storeLocation n)) d) (concat (committed st))).
Proof.
  apply importSalesXlsx_completed in H. subst st.
  destruct init_inv as [Hb0 Hs0].
  destruct (fold_trace fp rows init_st Hb0 Hs0) as [Hb [_ [_ Hall]]].
  set (st := fold_left (step fp) rows init_st) in *.
  destruct (trace_commitBatch st Hb) as [Tc _].
  assert (Hnil : batch (commitBatch st) = []).
  { unfold commitBatch. destruct (Nat.eqb (batchOps st) 0) eqn:E; [|reflexivity].
    apply Nat.eqb_eq in E. unfold batch_inv in Hb. rewrite E in Hb.
    destruct (batch st); [reflexivity|discriminate]. }
  assert (Hc : concat (committed (commitBatch st)) = trace st).
  { rewrite <- Tc. unfold trace at 1. rewrite Hnil, app_nil_r. reflexivity. }
  split; [exact Hnil|]. rewrite Hc. exact Hall.
Qed.

(** ** Re-importing a sale identifier *)

Lemma fold_apply_agree (k : string) (ops : list Op) :
  forall db1 db2, txns db1 k = txns db2 k ->
  txns (fold_left apply_op ops db1) k = txns (fold_left apply_op ops db2) k.
Proof.
  induction ops as [|op ops IH]; intros db1 db2 E; simpl; [exact E|].
  apply IH. destruct op; simpl; [exact E|]. destruct (String.eqb k docId); [reflexivity|exact E].
Qed.

Lemma fold_apply_written (k : string) (ops : list Op) (d : TxnDoc) :
  In (SetTxn k d) ops -> forall db1 db2,
  txns (fold_left apply_op ops db1) k = txns (fold_left apply_op ops db2) k.
Proof.
  induction ops as [|op ops IH]; intros Hin db1 db2; [destruct Hin|].
  destruct Hin as [->|Hin]; simpl.
  - apply fold_apply_agree. simpl. rewrite String.eqb_refl. reflexivity.
  - apply IH, Hin.
Qed.

Lemma apply_batches_concat (db : Db) (bs : list (list Op)) :
  apply_batches db bs = fold_left apply_op (concat bs) db.
Proof.
  unfold apply_batches. revert db; induction bs as [|b bs IH]; intros db; simpl; [reflexivity|].
  rewrite fold_left_app. apply IH.
Qed.

(** C4 (amended).  The import has no collision check: whatever the store
    holds under a sale identifier (a transaction with another sale date
    included), a completed import leaves under the identifier of each of its
    accepted rows exactly the document a fresh import into an empty store
    leaves there. *)
Theorem reimport_overwrites (fp : string) (rows : list Row) (st : St) (db : Db)
  (r : Row) (n : NormRow)
  (H : importSalesXlsx StringToNumber NumberToString fp rows = Completed st)
  (Hr : In r rows) (Hn : normalize StringToNumber NumberToString r = Some n) :
  txns (apply_batches db (committed st)) (to_safe_doc_id (salesId n)) =
  txns (apply_batches empty_db (committed st)) (to_safe_doc_id (salesId n)).
Proof.
  destruct (final_flush_complete fp rows st H) as [_ Hall].
  destruct (Hall r n Hr Hn) as [Ht _].
  rewrite !apply_batches_concat. eapply fold_apply_written. exact Ht.
Qed.

End ImportProofs.

Lemma final_flush_complete_witness :
  let st := commitBatch (fold_left (process_row sample_StringToNumber sample_NumberToString
                                      "sales/jan.xlsx") sample_rows init_st) in
  importSalesXlsx sample_StringToNumber sample_NumberToString "sales/jan.xlsx" sample_rows
    = Completed st /\ batch st = [] /\
  In (txn_op "sales/jan.xlsx"
        (match normalize sample_StringToNumber sample_NumberToString
                 (sample_row (CStr "01/06/2024") (CStr "North") CUndef (CStr "S3")) with
         | Some n => n | None => Build_NormRow "" "" "" "" JNaN JNaN JNaN JNaN end))
     (concat (committed st)).
Proof.
  intros st.
  assert (H : importSalesXlsx sample_StringToNumber sample_NumberToString "sales/jan.xlsx"
                sample_rows = Completed st) by reflexivity.
  destruct (final_flush_complete sample_StringToNumber sample_NumberToString _ _ _ H) as [Hb Hall].
  split; [exact H|]. split; [exact Hb|].
  apply (Hall (sample_row (CStr "01/06/2024") (CStr "North") CUndef (CStr "S3"))).
  - right; right; left; reflexivity.
  - reflexivity.
Defined.

(** C4 (counterexample).  Sale [1001] is stored dated 2023-01-01; importing
    a sheet with sale [1001] dated 2024-01-01 completes, with no failure and
    no override, and the stored transaction is replaced by the new date. *)
Lemma reimport_collision_counterexample :
  exists st,
    importSalesXlsx sample_StringToNumber sample_NumberToString "sales/jan.xlsx" [row_1001_2024]
      = Completed st /\
    option_map t_date (txns db_1001 "1001") = Some "2023-01-01" /\
    option_map t_date (txns (apply_batches db_1001 (committed st)) "1001") = Some "2024-01-01".
Proof.
  eexists. split; [reflexivity|]. split; vm_compute; reflexivity.
Qed.

Lemma reimport_overwrites_witness :
  exists st n,
    importSalesXlsx sample_StringToNumber sample_NumberToString "sales/jan.xlsx" [row_1001_2024]
      = Completed st /\
    normalize sample_StringToNumber sample_NumberToString row_1001_2024 = Some n /\
    txns (apply_batches db_1001 (committed st)) (to_safe_doc_id (salesId n)) =
    txns (apply_batches empty_db (committed st)) (to_safe_doc_id (salesId n)).
Proof.
  eexists. eexists. split; [reflexivity|]. split; [reflexivity|].
  eapply (reimport_overwrites sample_StringToNumber sample_NumberToString "sales/jan.xlsx" [row_1001_2024]); [reflexivity | left; reflexivity | reflexivity].
Defined.

(** ** Salesperson default *)

(** C3 (amended).  For an accepted row, a missing or null Sales Person cell
    is stored as ["Unassigned"]; a string cell is stored trimmed, so an
    empty or blank one is stored as the empty string, with the participant
    list [[""]]. *)
Theorem salesperson_default (S2N : string -> jsnum) (N2S : jsnum -> string)
  (fp : string) (r : Row) (n : NormRow) (H : normalize S2N N2S r = Some n) :
  ((lookup r "Sales Person" = CUndef \/ lookup r "Sales Person" = CNull) ->
   salesPersonString n = "Unassigned" /\ t_salespeople (txn_doc fp n) = ["Unassigned"]) /\
  (forall s, lookup r "Sales Person" = CStr s ->
   salesPersonString n = js_trim s /\
   (js_trim s = "" -> t_salespeople (txn_doc fp n) = [""])).
Proof.
  unfold normalize in H. cbv zeta in H.
  destruct (ymdFromExcelDate N2S (lookup r "Date of Sale")) as [dd|]; [|discriminate].
  destruct (_ || _); [discriminate|]. injection H as <-.
  split.
  - intros [E|E]; rewrite E; split; reflexivity.
  - intros s E. rewrite E. split; [reflexivity|]. intros Hs.
    cbn [txn_doc t_salespeople salesPersonString nullish js_String]. rewrite Hs. reflexivity.
Qed.

Lemma salesperson_default_witness :
  exists n,
    normalize sample_StringToNumber sample_NumberToString
      (sample_row (CStr "01/06/2024") (CStr "North") CUndef (CStr "S3")) = Some n /\
    salesPersonString n = "Unassigned" /\ t_salespeople (txn_doc "sales/jan.xlsx" n) = ["Unassigned"].
Proof.
  eexists. split; [reflexivity|].
  apply (proj1 (salesperson_default sample_StringToNumber sample_NumberToString "sales/jan.xlsx"
                  (sample_row (CStr "01/06/2024") (CStr "North") CUndef (CStr "S3")) _ eq_refl)).
  left; reflexivity.
Defined.

(** C3 (counterexample).  A row whose Sales Person cell holds only blanks
    is accepted and stored with the salesperson [""], not ["Unassigned"]. *)
Lemma salesperson_default_counterexample :
  exists n,
    normalize sample_StringToNumber sample_NumberToString
      (sample_row (CStr "01/05/2024") (CStr "Main") (CStr "   ") (CStr "S1")) = Some n /\
    salesPersonString n = "" /\ t_salespeople (txn_doc "sales/jan.xlsx" n) = [""].
Proof. eexists. split; [reflexivity|]. split; reflexivity. Qed.

(** ** Batch size *)

(** Every committed batch holds at most [MAX_BATCH_OPS + 1] writes: a row
    queues at most two writes onto a batch of fewer than [MAX_BATCH_OPS]. *)
Lemma process_row_batch_bound (S2N : string -> jsnum) (N2S : jsnum -> string)
  (fp : string) (st : St) (r : Row) :
  batch_inv st -> batchOps st < MAX_BATCH_OPS ->
  Forall (fun b => length b <= S MAX_BATCH_OPS) (committed st) ->
  batch_inv (process_row S2N N2S fp st r) /\
  batchOps (process_row S2N N2S fp st r) < MAX_BATCH_OPS /\
  Forall (fun b => length b <= S MAX_BATCH_OPS) (committed (process_row S2N N2S fp st r)).
Proof.
  intros Hb Ho Hc. unfold process_row. cbv zeta.
  destruct (normalize S2N N2S r) as [n|]; [|unfold batch_inv in *; simpl; auto].
  assert (Hfin : forall st2, batch_inv st2 -> batchOps st2 <= S (batchOps st) ->
            committed st2 = committed st ->
            let st3 := queue st2 (txn_op fp n) in
            let st4 := if Nat.leb MAX_BATCH_OPS (batchOps st3) then commitBatch st3 else st3 in
            batch_inv st4 /\ batchOps st4 < MAX_BATCH_OPS /\
            Forall (fun b => length b <= S MAX_BATCH_OPS) (committed st4)).
  { intros st2 Hb2 Ho2 Hc2 st3 st4.
    assert (Hb3 : length (batch st3) = batchOps st3)
      by (unfold st3, queue; simpl; rewrite length_app, Hb2; simpl; lia).
    assert (Ho3 : batchOps st3 = S (batchOps st2)) by reflexivity.
    assert (Hc3 : committed st3 = committed st) by exact Hc2.
    unfold st4. clearbody st3. destruct (Nat.leb MAX_BATCH_OPS (batchOps st3)) eqn:E.
    - unfold commitBatch. rewrite Ho3. simpl Nat.eqb. cbv iota.
      unfold batch_inv. simpl. split; [reflexivity|]. split; [unfold MAX_BATCH_OPS; lia|].
      rewrite Hc3. apply Forall_app. split; [exact Hc|].
      apply Forall_cons; [|constructor]. rewrite Hb3, Ho3. lia.
    - apply Nat.leb_gt in E. split; [exact Hb3|]. split; [exact E|]. rewrite Hc3. exact Hc. }
  destruct (negb (String.eqb (slugify (storeLocation n)) "") && _).
  - apply Hfin; unfold batch_inv in *; simpl; [rewrite length_app, Hb; simpl; lia|lia|reflexivity].
  - apply Hfin; unfold batch_inv in *; simpl; [exact Hb|lia|reflexivity].
Qed.

Lemma import_batches_bounded (S2N : string -> jsnum) (N2S : jsnum -> string)
  (fp : string) (rows : list Row) (st : St) :
  importSalesXlsx S2N N2S fp rows = Completed st ->
  Forall (fun b => length b <= S MAX_BATCH_OPS) (committed st).
Proof.
  intros H. apply importSalesXlsx_completed in H. subst st.
  assert (Hfold : forall rs st, batch_inv st -> batchOps st < MAX_BATCH_OPS ->
            Forall (fun b => length b <= S MAX_BATCH_OPS) (committed st) ->
            let st' := fold_left (process_row S2N N2S fp) rs st in
            batch_inv st' /\ batchOps st' < MAX_BATCH_OPS /\
            Forall (fun b => length b <= S MAX_BATCH_OPS) (committed st')).
  { induction rs as [|r rs IH]; intros st Hb Ho Hc; [simpl; auto|].
    simpl. destruct (process_row_batch_bound S2N N2S fp st r Hb Ho Hc) as [Hb' [Ho' Hc']].
    apply IH; assumption. }
  destruct (Hfold rows init_st eq_refl ltac:(unfold MAX_BATCH_OPS; simpl; lia) (Forall_nil _))
    as [Hb [Ho Hc]].
  unfold commitBatch. destruct (Nat.eqb _ 0); [exact Hc|]. simpl.
  apply Forall_app. split; [exact Hc|]. apply Forall_cons; [|constructor].
  unfold batch_inv in Hb. rewrite Hb. lia.
Qed.

(** C5.  On 448 rows of one store followed by one row of a second store,
    the store write and the transaction write of the last row join a batch
    of 449 writes before the size check runs: the single committed batch
    holds 451 writes, over [MAX_BATCH_OPS]. *)
Theorem batch_bound_exceeded :
  exists st,
    importSalesXlsx sample_StringToNumber sample_NumberToString "sales/big.xlsx" rows449
      = Completed st /\
    map (@length Op) (committed st) = [451] /\ MAX_BATCH_OPS < 451.
Proof.
  eexists. split; [reflexivity|]. split; [vm_compute; reflexivity | unfold MAX_BATCH_OPS; lia].
Qed.

(** ** Date parsing *)

Lemma digit_name_char (c : ascii) : is_digit c = true -> name_char c = true.
Proof.
  unfold is_digit, name_char, is_space. intros H.
  apply andb_prop in H as [H1 _]. apply Nat.leb_le in H1.
  assert (Hamp : Ascii.eqb c "&"%char = false).
  { destruct (Ascii.eqb_spec c "&"%char) as [->|]; [change (nat_of_ascii "&"%char) with 38 in H1; lia|reflexivity]. }
  rewrite Hamp. destruct (Nat.le_exists_sub 48 (nat_of_ascii c) H1) as [j [Ej _]].
  rewrite Ej, Nat.add_comm. reflexivity.
Qed.

Lemma digits_plain (s : string) : s <> "" -> all_digits s = true -> plain_name s = true.
Proof.
  unfold all_digits, plain_name. intros Hne H.
  destruct s as [|c s]; [congruence|]. simpl negb.
  apply forallb_impl with (p := is_digit); [|exact H]. exact digit_name_char.
Qed.

Lemma take_digits_app (m rest : string) : forall k,
  all_digits m = true -> String.length m <= k ->
  (rest = "" \/ exists c r, rest = String c r /\ is_digit c = false) ->
  take_digits k (m ++ rest) = (m, rest).
Proof.
  induction m as [|c m IH]; intros k Hm Hk Hr.
  - simpl. destruct k; [destruct rest; reflexivity|].
    destruct Hr as [->|[c [r [-> Hc]]]]; [reflexivity|]. simpl. rewrite Hc. reflexivity.
  - unfold all_digits in Hm. simpl in Hm, Hk. apply andb_prop in Hm as [Hc Hm].
    destruct k as [|k]; [lia|]. simpl. rewrite Hc, (IH k Hm ltac:(lia) Hr). reflexivity.
Qed.

Lemma slash_not_digit : is_digit "/"%char = false.
Proof. reflexivity. Qed.

Lemma match_mdy_shape (m d y : string) :
  all_digits m = true -> 1 <= String.length m <= 2 ->
  all_digits d = true -> 1 <= String.length d <= 2 ->
  all_digits y = true -> String.length y = 4 ->
  match_mdy (m ++ "/" ++ d ++ "/" ++ y) = Some (m, d, y).
Proof.
  intros Hm Hml Hd Hdl Hy Hyl. cbn [String.append]. unfold match_mdy.
  rewrite (take_digits_app m _ 2 Hm ltac:(lia) (or_intror (ex_intro _ _ (ex_intro _ _ (conj eq_refl slash_not_digit))))).
  destruct (Nat.eqb_spec (String.length m) 0) as [E|_]; [lia|].
  cbn [Ascii.eqb negb Bool.eqb].
  rewrite (take_digits_app d _ 2 Hd ltac:(lia) (or_intror (ex_intro _ _ (ex_intro _ _ (conj eq_refl slash_not_digit))))).
  destruct (Nat.eqb_spec (String.length d) 0) as [E|_]; [lia|].
  cbn [Ascii.eqb negb Bool.eqb].
  pose proof (take_digits_app y "" 4 Hy ltac:(lia) (or_introl eq_refl)) as Ty.
  rewrite sapp_nil in Ty. rewrite Ty, Hyl. reflexivity.
Qed.

Lemma nonempty_of_length (s : string) : 1 <= String.length s -> s <> "".
Proof. intros H ->. simpl in H. lia. Qed.

(** C10.  [ymdFromExcelDate] checks the shape of the date only: any one or
    two digits, a slash, one or two digits, a slash and four digits give
    the zero-padded ["YYYY-MM-DD"], whatever the month and the day, and a
    row with such a date, a location and a sale identifier is accepted. *)
Theorem ymd_no_calendar_check (S2N : string -> jsnum) (N2S : jsnum -> string)
  (m d y : string)
  (Hm : all_digits m = true) (Hml : 1 <= String.length m <= 2)
  (Hd : all_digits d = true) (Hdl : 1 <= String.length d <= 2)
  (Hy : all_digits y = true) (Hyl : String.length y = 4) :
  ymdFromExcelDate N2S (CStr (m ++ "/" ++ d ++ "/" ++ y)) =
    Some (y ++ "-" ++ pad2 m ++ "-" ++ pad2 d) /\
  forall r, lookup r "Date of Sale" = CStr (m ++ "/" ++ d ++ "/" ++ y) ->
    js_trim (js_String N2S (nullish (lookup r "Sales Location") (CStr ""))) <> "" ->
    js_trim (js_String N2S (nullish (lookup r "Sales#") (CStr ""))) <> "" ->
    exists n, normalize S2N N2S r = Some n /\
              dateOfSale n = y ++ "-" ++ pad2 m ++ "-" ++ pad2 d.
Proof.
  assert (Hymd : ymdFromExcelDate N2S (CStr (m ++ "/" ++ d ++ "/" ++ y)) =
                 Some (y ++ "-" ++ pad2 m ++ "-" ++ pad2 d)).
  { assert (Tr : js_trim (m ++ "/" ++ d ++ "/" ++ y) = m ++ "/" ++ d ++ "/" ++ y).
    { pose proof (js_trim_inner m ("/" ++ d ++ "/") y
                    (digits_plain m (nonempty_of_length m ltac:(lia)) Hm)
                    (digits_plain y (nonempty_of_length y ltac:(lia)) Hy)) as T.
      rewrite !sapp_assoc in T. exact T. }
    assert (Ht : truthy (CStr (m ++ "/" ++ d ++ "/" ++ y)) = true).
    { destruct m as [|c m']; [simpl in Hml; lia|reflexivity]. }
    unfold ymdFromExcelDate. rewrite Ht. cbn [negb js_String].
    rewrite Tr, (match_mdy_shape m d y Hm Hml Hd Hdl Hy Hyl). reflexivity. }
  split; [exact Hymd|].
  intros r Hdate Hloc Hid. unfold normalize. cbv zeta.
  rewrite Hdate, Hymd.
  apply String.eqb_neq in Hloc, Hid. rewrite Hloc, Hid. simpl orb.
  eexists. split; reflexivity.
Qed.

Lemma ymd_no_calendar_check_witness :
  ymdFromExcelDate sample_NumberToString (CStr "13/45/2024") = Some "2024-13-45".
Proof.
  exact (proj1 (ymd_no_calendar_check sample_StringToNumber sample_NumberToString
                  "13" "45" "2024" eq_refl ltac:(simpl; lia) eq_refl ltac:(simpl; lia)
                  eq_refl eq_refl)).
Defined.

(** ** Not-a-number values *)

(** C9.  At ingestion a money cell that is missing or null is written as 0
    and no money value is a NaN.  At the read sites the guard
    [x IS NULL OR x <> x] leaves a stored NUMERIC NaN in place, since a
    NUMERIC NaN equals itself: a sale whose grand total is NaN turns the
    summary's sales total into NaN. *)
Theorem safe_read_nan :
  (forall (S2N : string -> jsnum) (r : Row) (key : string),
     (lookup r key = CUndef \/ lookup r key = CNull) -> money S2N r key = JNum 0) /\
  (forall (S2N : string -> jsnum) (r : Row) (key : string), money S2N r key <> JNaN) /\
  safe_num (Some PNaN) = Some PNaN /\
  summary_sales [mk_sale "1" (Some "Alice") (Some (PNum 100)) None;
                 mk_sale "2" (Some "Bob") (Some PNaN) None] = Some PNaN.
Proof.
  split; [|split; [|split; reflexivity]].
  - intros S2N r key [E|E]; unfold money; rewrite E; reflexivity.
  - intros S2N r key. unfold money, or_zero.
    destruct (js_Number S2N _) as [q| |b]; [destruct (Qeq_bool q 0)| |]; discriminate.
Qed.

(** ** The second handler's last commit *)

(** C6 (code bug).  In the older copy of the handler, 399 accepted rows
    followed by a row without a date end with 400 writes queued and never
    committed: the 400th row skips the every-400-rows commit, and the last
    commit is left out since 400 rows were counted. *)
Lemma legacy_final_flush_loses_writes :
  exists st,
    legacy_importSalesXlsx sample_StringToNumber sample_NumberToString "sales/jan.xlsx"
      rows400_last_skipped = Some st /\
    l_committed st = [] /\ length (l_batch st) = 400.
Proof. eexists. split; [reflexivity|]. vm_compute. split; reflexivity. Qed.

(** ** The outlier query *)

Lemma pg_le_total (x y : pgnum) : pg_le x y = false -> pg_le y x = true.
Proof.
  unfold pg_le, pg_lt, pg_eq. destruct x as [|x], y as [|y]; simpl; try discriminate; auto.
  intros H. apply orb_false_iff in H as [H1 H2].
  apply negb_false_iff in H1. apply orb_true_iff.
  destruct (Qle_bool x y) eqn:E; [right|left; reflexivity].
  apply Qeq_bool_iff. apply Qle_bool_iff in E, H1. apply Qle_antisym; assumption.
Qed.

Lemma gt_ge_total (a b : option pgnum) : gt_ge a b = false -> gt_ge b a = true.
Proof.
  destruct a as [x|], b as [y|]; simpl; try discriminate; auto. apply pg_le_total.
Qed.

Lemma sorted_desc_cons (x : Sale) (l : list Sale) :
  sorted_desc (x :: l) =
  match l with [] => true | y :: _ => gt_ge (grand_total x) (grand_total y) end && sorted_desc l.
Proof. destruct l; reflexivity. Qed.

Lemma insert_desc_sorted_under (x y : Sale) (l : list Sale) :
  sorted_desc (y :: l) = true -> gt_ge (grand_total y) (grand_total x) = true ->
  sorted_desc (y :: insert_desc x l) = true.
Proof.
  revert y; induction l as [|z l IH]; intros y Hs Hyx.
  - simpl. rewrite Hyx. reflexivity.
  - rewrite sorted_desc_cons in Hs. apply andb_prop in Hs as [Hyz Hs].
    cbn [insert_desc]. destruct (gt_ge (grand_total x) (grand_total z)) eqn:E.
    + change ((gt_ge (grand_total y) (grand_total x) && (gt_ge (grand_total x) (grand_total z)
               && sorted_desc (z :: l))) = true). rewrite Hyx, E, Hs. reflexivity.
    + change ((gt_ge (grand_total y) (grand_total z) && sorted_desc (z :: insert_desc x l)) = true).
      rewrite Hyz. apply IH; [exact Hs|]. apply gt_ge_total, E.
Qed.

Lemma insert_desc_sorted (x : Sale) (l : list Sale) :
  sorted_desc l = true -> sorted_desc (insert_desc x l) = true.
Proof.
  destruct l as [|y l]; intros Hs; [reflexivity|]. simpl.
  destruct (gt_ge (grand_total x) (grand_total y)) eqn:E.
  - rewrite sorted_desc_cons, E, Hs. reflexivity.
  - apply insert_desc_sorted_under; [exact Hs|]. apply gt_ge_total, E.
Qed.

Lemma sort_desc_sorted (l : list Sale) : sorted_desc (sort_desc l) = true.
Proof. induction l as [|x l IH]; [reflexivity|]. apply insert_desc_sorted, IH. Qed.

Lemma sorted_desc_firstn (k : nat) (l : list Sale) :
  sorted_desc l = true -> sorted_desc (firstn k l) = true.
Proof.
  revert k; induction l as [|x l IH]; intros k Hs; [destruct k; reflexivity|].
  destruct k as [|k]; [reflexivity|]. simpl firstn.
  rewrite sorted_desc_cons in *. apply andb_prop in Hs as [Hh Hs].
  rewrite (IH k Hs), andb_true_r.
  destruct l as [|y l]; [destruct k; reflexivity|]. destruct k; [reflexivity|exact Hh].
Qed.

Lemma insert_desc_perm (x : Sale) (l : list Sale) : Permutation (insert_desc x l) (x :: l).
Proof.
  induction l as [|y l IH]; simpl; [reflexivity|].
  destruct (gt_ge _ _); [reflexivity|].
  transitivity (y :: x :: l); [apply perm_skip, IH | apply perm_swap].
Qed.

Lemma sort_desc_perm (l : list Sale) : Permutation (sort_desc l) l.
Proof.
  induction l as [|x l IH]; simpl; [reflexivity|].
  rewrite insert_desc_perm. apply perm_skip, IH.
Qed.

Lemma outliers_response_map (hi : float8) (c : nat) (l : list Sale) :
  outliers_response (map (fun x => (x, hi, c)) l) =
  match l with
  | [] => {| threshold_high := None; total_count := 0; o_rows := [] |}
  | _ => {| threshold_high := json_float8 hi; total_count := c; o_rows := l |}
  end.
Proof.
  destruct l as [|x l]; [reflexivity|]. simpl. rewrite map_map. simpl. rewrite map_id. reflexivity.
Qed.

Lemma pg_limit_min200 (x : jsnum) (lim : nat) :
  pg_limit (js_min x (JNum 200)) = Some lim -> lim <= 200.
Proof.
  assert (Hq : forall y, (y <= 200)%Q -> pg_limit (JNum y) = Some lim -> lim <= 200).
  { intros y Hy. unfold pg_limit.
    destruct (Pos.eqb (Qden (Qred y)) 1) eqn:Ed; [|discriminate].
    destruct (Z.leb 0 (Qnum (Qred y))) eqn:En; [|discriminate]. simpl. intros H; injection H as <-.
    apply Pos.eqb_eq in Ed. apply Z.leb_le in En.
    assert (Hr : (Qred y <= 200)%Q) by (rewrite Qred_correct; exact Hy).
    unfold Qle in Hr. rewrite Ed in Hr. simpl in Hr. lia. }
  destruct x as [q| |[|]]; cbn [js_min]; try discriminate.
  - destruct (Qle_bool q 200) eqn:E; apply Hq; [apply Qle_bool_iff, E|apply Qle_refl].
  - apply Hq, Qle_refl.
Qed.

Lemma outliers_flagged_In (hi : float8) (s : list Sale) (x : Sale) :
  In x (outliers_flagged hi s) -> In x s /\ outlier_above hi x = true.
Proof. unfold outliers_flagged. apply filter_In. Qed.

Lemma insert_asc_length (x : float8) (l : list float8) :
  length (insert_asc x l) = S (length l).
Proof.
  induction l as [|y l IH]; simpl; [reflexivity|].
  destruct (float8_le x y); simpl; [reflexivity|]. rewrite IH. reflexivity.
Qed.

Lemma sort_asc_length (l : list float8) : length (sort_asc l) = length l.
Proof. induction l as [|x l IH]; simpl; [reflexivity|]. rewrite insert_asc_length, IH. reflexivity. Qed.

Lemma percentile_cont_some (k : nat) (vals : list (option float8)) :
  0 < length (somes vals) -> exists v, percentile_cont k vals = Some v.
Proof.
  intros H. unfold percentile_cont. rewrite sort_asc_length.
  destruct (length (somes vals)) as [|m]; [lia|].
  destruct (Nat.eqb _ _); eexists; reflexivity.
Qed.

(** Every grand total of a row in range is cast, none is NULL. *)
Lemma cast_grand_totals_length (s : list Sale) (gts : list (option float8)) :
  (forall x, In x s -> grand_total x <> None) ->
  cast_grand_totals s = Some gts -> length (somes gts) = length s.
Proof.
  revert gts; induction s as [|x s IH]; intros gts Hs H; simpl in H.
  - injection H as <-. reflexivity.
  - destruct (grand_total x) as [v|] eqn:Ex; [|exfalso; exact (Hs x (or_introl eq_refl) Ex)].
    destruct (numeric_float8 v); [|discriminate].
    destruct (cast_grand_totals s) as [fs|] eqn:Es; [|discriminate].
    injection H as <-. simpl. rewrite (IH fs); [reflexivity| |reflexivity].
    intros y Hy. apply Hs. right; exact Hy.
Qed.

Lemma outlier_sample_grand_total (start end_ : Z) (sp : option string) (tbl : list Sale) (x : Sale) :
  In x (outlier_sample start end_ sp tbl) -> grand_total x <> None.
Proof.
  unfold outlier_sample. intros H. apply in_map_iff in H as [y [<- _]]. cbn [safe_sale grand_total].
  destruct (grand_total y) as [[|v]|]; unfold safe_num, sql_case; simpl; try discriminate.
  destruct (negb (Qeq_bool v v)); discriminate.
Qed.

Lemma In_firstn_In {A} (k : nat) (l : list A) (x : A) : In x (firstn k l) -> In x l.
Proof. intros H. rewrite <- (firstn_skipn k l). apply in_or_app. left; exact H. Qed.




(** The threshold and the comparison are those of [double precision]:
    nineteen sales of 0.1 and one of 0.10000000000000001, which casts to
    the same [double], flag nothing. *)
Lemma outliers_float8_ties :
  api_outliers sample_decimal (Some "2000-01-01") (Some "2000-01-02") None None None
    (app (repeat (sale_gt "s" (1 # 10)) 19) [sale_gt "t" (10000000000000001 # 100000000000000000)])
  = Some {| threshold_high := None; total_count := 0; o_rows := [] |}.
Proof. vm_compute. reflexivity. Qed.

(** ** The low-margin query *)

Lemma pg_eq_refl (x : pgnum) : pg_eq x x = true.
Proof. destruct x; simpl; [reflexivity|apply Qeq_bool_refl]. Qed.

Lemma pg_le_num (a b : Q) : pg_le (PNum a) (PNum b) = Qle_bool a b.
Proof.
  unfold pg_le, pg_lt, pg_eq.
  destruct (Qle_bool b a) eqn:Eba; destruct (Qle_bool a b) eqn:Eab; simpl; auto.
  - apply Qeq_bool_iff. apply Qle_bool_iff in Eba, Eab. apply Qle_antisym; assumption.
  - destruct (Qeq_bool a b) eqn:E; [|reflexivity].
    apply Qeq_bool_iff in E. apply Qle_bool_iff in Eba.
    assert (a <= b)%Q by (rewrite E; apply Qle_refl).
    apply Qle_bool_iff in H. congruence.
  - exfalso. destruct (Qlt_le_dec b a) as [Hlt|Hle].
    + assert (Hba : (b <= a)%Q) by (apply Qlt_le_weak, Hlt).
      apply Qle_bool_iff in Hba. congruence.
    + apply Qle_bool_iff in Hle. congruence.
Qed.

Lemma safe_num_some (x : option pgnum) : exists v, safe_num x = Some v.
Proof.
  destruct x as [[|x]|]; unfold safe_num, sql_case; simpl;
    try (eexists; reflexivity).
  destruct (negb (Qeq_bool x x)); eexists; reflexivity.
Qed.

Lemma low_margin_pct_val (p : SplitRow) (s : Sale) : exists m, low_margin_pct p s = Val m.
Proof.
  unfold low_margin_pct. destruct (gross_margin s) as [g|].
  - simpl. rewrite pg_eq_refl. eexists; reflexivity.
  - cbn [is_not_null is_null sql_not option_map negb sql_and sql_case].
    destruct (grand_total_split p) as [[|y]|]; simpl; try (eexists; reflexivity).
    + destruct (safe_num (profit_split p)) as [[|x]|]; simpl; eexists; reflexivity.
    + destruct (Qeq_bool y 0) eqn:Ey; simpl; [eexists; reflexivity|].
      rewrite Qeq_bool_refl. simpl.
      destruct (safe_num (profit_split p)) as [[|x]|]; simpl; [eexists; reflexivity| |eexists; reflexivity].
      rewrite Ey. eexists; reflexivity.
Qed.

(** The value of [margin_pct], case by case. *)
Lemma low_margin_pct_spec (p : SplitRow) (s : Sale) (m : option pgnum) :
  low_margin_pct p s = Val m ->
  (forall g, gross_margin s = Some g -> m = Some g) /\
  (gross_margin s = None ->
     (grand_total_split p = None -> m = None) /\
     (forall y, grand_total_split p = Some (PNum y) -> (y == 0)%Q -> m = None) /\
     (forall y, grand_total_split p = Some (PNum y) -> ~ (y == 0)%Q ->
        m = Some (match safe_num (profit_split p) with
                  | Some (PNum x) => PNum (x / y * 100)
                  | _ => PNaN
                  end)) /\
     (grand_total_split p = Some PNaN -> m = Some PNaN)).
Proof.
  unfold low_margin_pct. destruct (gross_margin s) as [g|].
  - simpl. rewrite pg_eq_refl. intros H; injection H as <-.
    split; [intros g' E; injection E as ->; reflexivity|discriminate].
  - cbn [is_not_null is_null sql_not option_map negb sql_and sql_case].
    intros H. split; [discriminate|intros _].
    destruct (safe_num_some (profit_split p)) as [pr Hpr].
    destruct (grand_total_split p) as [[|y]|]; simpl in H.
    + rewrite Hpr in H. destruct pr as [|x]; simpl in H; injection H as <-;
        (split; [discriminate|split; [discriminate|split; [discriminate|]]]);
        intros _; reflexivity.
    + split; [discriminate|]. split; [|split; [|discriminate]].
      * intros y' E Hy. injection E as <-. apply Qeq_bool_iff in Hy. rewrite Hy in H.
        simpl in H. injection H as <-. reflexivity.
      * intros y' E Hy. injection E as <-.
        destruct (Qeq_bool y 0) eqn:Ey; [apply Qeq_bool_iff in Ey; contradiction|].
        rewrite Qeq_bool_refl in H. simpl in H. rewrite Hpr in H |- *.
        destruct pr as [|x]; simpl in H; [injection H as <-; reflexivity|].
        rewrite Ey in H. simpl in H. injection H as <-. reflexivity.
    + injection H as <-. split; [reflexivity|]. split; [discriminate|split; discriminate].
Qed.

Lemma margin_in_bounds_iff (m : option pgnum) :
  margin_in_bounds m = true <-> exists x, m = Some (PNum x) /\ (-100 <= x <= 100)%Q.
Proof.
  unfold margin_in_bounds. destruct m as [[|x]|]; simpl.
  - split; [discriminate|intros [x [E _]]; discriminate].
  - rewrite !pg_le_num. split.
    + intros H. destruct (Qle_bool (-100) x) eqn:E1, (Qle_bool x 100) eqn:E2; try discriminate.
      apply Qle_bool_iff in E1, E2. exists x; auto.
      all: cbn in H; discriminate.
    + intros [x' [E [H1 H2]]]. injection E as <-.
      apply Qle_bool_iff in H1, H2. rewrite H1, H2. reflexivity.
  - split; [discriminate|intros [x [E _]]; discriminate].
Qed.

Lemma eval_map_In {A B} (f : A -> eval B) (l : list A) (ys : list B) (y : B) :
  eval_map f l = Val ys -> In y ys -> exists x, In x l /\ f x = Val y.
Proof.
  revert ys; induction l as [|a l IH]; intros ys H Hy; simpl in H.
  - injection H as <-. destruct Hy.
  - destruct (f a) as [b|] eqn:Ea; [|discriminate]. simpl in H.
    destruct (eval_map f l) as [bs|] eqn:El; [|discriminate]. simpl in H. injection H as <-.
    destruct Hy as [<-|Hy].
    + exists a. split; [left; reflexivity|exact Ea].
    + destruct (IH bs eq_refl Hy) as [x [Hx Hf]]. exists x. split; [right; exact Hx|exact Hf].
Qed.

Lemma eval_map_total {A B} (f : A -> eval B) (l : list A) :
  (forall a, exists b, f a = Val b) -> exists ys, eval_map f l = Val ys.
Proof.
  intros Hf. induction l as [|a l [ys IH]]; simpl; [eexists; reflexivity|].
  destruct (Hf a) as [b Hb]. rewrite Hb. simpl. rewrite IH. eexists; reflexivity.
Qed.

Lemma pos_sales_people_val (tbl : list Sale) : exists ps, pos_sales_people tbl = Val ps.
Proof.
  unfold pos_sales_people.
  rewrite (eval_map_val sales_people_rows _ tbl (fun s _ => sales_people_rows_eq s)).
  eexists; reflexivity.
Qed.




(* ================================================================== *)
(** ** Slugs and document identifiers *)


Lemma drop_lead_hyphen_eq (s : string) :
  list_ascii_of_string (match s with String "-" r => r | _ => s end) =
  drop_first_hyphen (list_ascii_of_string s).
Proof.
  destruct s as [|c r]; [reflexivity|].
  destruct c as [[] [] [] [] [] [] [] []]; reflexivity.
Qed.

Lemma drop_edge_hyphens_eq (s : string) :
  list_ascii_of_string (drop_edge_hyphens s) =
  rev (drop_first_hyphen (rev (drop_first_hyphen (list_ascii_of_string s)))).
Proof.
  unfold drop_edge_hyphens. rewrite list_ascii_of_string_of_list_ascii.
  rewrite <- drop_lead_hyphen_eq. f_equal.
  generalize (rev (list_ascii_of_string (match s with String "-" r => r | _ => s end))).
  intros l. destruct l as [|c r]; [reflexivity|].
  destruct c as [[] [] [] [] [] [] [] []]; reflexivity.
Qed.

Lemma drop_first_hyphen_suffix (l : list ascii) : exists x, l = (x ++ drop_first_hyphen l)%list.
Proof.
  destruct l as [|c r]; [exists []; reflexivity|]. simpl.
  destruct (Ascii.eqb c "-"%char); [exists [c]|exists []]; reflexivity.
Qed.

Lemma drop_first_hyphen_head (l : list ascii) :
  (forall a b, l <> (a ++ "-"%char :: "-"%char :: b)%list) ->
  hd_error (drop_first_hyphen l) <> Some "-"%char.
Proof.
  intros H. destruct l as [|c r]; [discriminate|]. simpl.
  destruct (Ascii.eqb_spec c "-"%char) as [->|Hc].
  - destruct r as [|c' r]; [discriminate|]. simpl. intros E; injection E as ->.
    apply (H [] r). reflexivity.
  - simpl. intros E; injection E as ->. congruence.
Qed.

Lemma no_dd_app_l (x l : list ascii) :
  (forall a b, (x ++ l)%list <> (a ++ "-"%char :: "-"%char :: b)%list) ->
  forall a b, l <> (a ++ "-"%char :: "-"%char :: b)%list.
Proof. intros H a b E. apply (H (x ++ a)%list b). rewrite E, app_assoc. reflexivity. Qed.

Lemma no_dd_app_r (x l : list ascii) :
  (forall a b, (l ++ x)%list <> (a ++ "-"%char :: "-"%char :: b)%list) ->
  forall a b, l <> (a ++ "-"%char :: "-"%char :: b)%list.
Proof. intros H a b E. apply (H a (b ++ x)%list). rewrite E, <- app_assoc. reflexivity. Qed.

Lemma no_dd_rev (l : list ascii) :
  (forall a b, l <> (a ++ "-"%char :: "-"%char :: b)%list) ->
  forall a b, rev l <> (a ++ "-"%char :: "-"%char :: b)%list.
Proof.
  intros H a b E. apply (H (rev b) (rev a)).
  rewrite <- (rev_involutive l), E. rewrite rev_app_distr. simpl.
  rewrite <- !app_assoc. reflexivity.
Qed.

Lemma forallb_sub (p : ascii -> bool) (l m : list ascii) :
  (forall x, In x m -> In x l) -> forallb p l = true -> forallb p m = true.
Proof. rewrite !forallb_forall. intros Hi H x Hx. apply H, Hi, Hx. Qed.

(** What [drop_edge_hyphens] leaves of a string of slug characters with no
    two hyphens in a row. *)
Lemma drop_edge_hyphens_shape (s : string) :
  let l := list_ascii_of_string s in
  forallb slug_char l = true -> (forall a b, l <> (a ++ "-"%char :: "-"%char :: b)%list) ->
  let m := list_ascii_of_string (drop_edge_hyphens s) in
  forallb slug_char m = true /\ hd_error m <> Some "-"%char /\ hd_error (rev m) <> Some "-"%char /\
  forall a b, m <> (a ++ "-"%char :: "-"%char :: b)%list.
Proof.
  intros l Hc Hd m. unfold m. rewrite drop_edge_hyphens_eq. fold l.
  set (l1 := drop_first_hyphen l).
  destruct (drop_first_hyphen_suffix l) as [x1 E1]. fold l1 in E1.
  assert (Hd1 : forall a b, l1 <> (a ++ "-"%char :: "-"%char :: b)%list)
    by (apply (no_dd_app_l x1); rewrite <- E1; exact Hd).
  assert (Hh1 : hd_error l1 <> Some "-"%char) by (apply drop_first_hyphen_head, Hd).
  set (l2 := drop_first_hyphen (rev l1)).
  destruct (drop_first_hyphen_suffix (rev l1)) as [x2 E2]. fold l2 in E2.
  assert (Ep : l1 = (rev l2 ++ rev x2)%list)
    by (rewrite <- rev_app_distr, <- E2, rev_involutive; reflexivity).
  repeat split.
  - apply (forallb_sub _ l); [|exact Hc].
    intros y Hy. rewrite E1. apply in_or_app; right. rewrite Ep. apply in_or_app; left. exact Hy.
  - destruct (rev l2) as [|c r] eqn:Er; [discriminate|]. simpl. intros E; injection E as ->.
    apply Hh1. rewrite Ep. reflexivity.
  - rewrite rev_involutive. apply drop_first_hyphen_head, no_dd_rev, Hd1.
  - apply (no_dd_app_r (rev x2)). rewrite <- Ep. exact Hd1.
Qed.

Lemma collapse_seps_head (s : string) : forall r, collapse_seps true s <> String "-" r.
Proof.
  induction s as [|c s IH]; intros r; [discriminate|]. simpl.
  destruct (is_sep c) eqn:Es; [apply IH|].
  intros E; injection E as -> _. discriminate.
Qed.

Lemma collapse_seps_no_dd (s : string) : forall b a t,
  list_ascii_of_string (collapse_seps b s) <> (a ++ "-"%char :: "-"%char :: t)%list.
Proof.
  induction s as [|c s IH]; intros b a t.
  - simpl. destruct b; destruct a; discriminate.
  - simpl. destruct (is_sep c) eqn:Es; [destruct b|].
    + apply IH.
    + simpl. destruct a as [|x a]; simpl; intros E.
      * injection E as E.
        destruct (collapse_seps true s) as [|c' s'] eqn:Ec; [discriminate|].
        simpl in E. injection E as -> _. apply (collapse_seps_head s s' Ec).
      * injection E as _ E. apply (IH true a t E).
    + simpl. destruct a as [|x a]; simpl; intros E; injection E as E1 E.
      * subst c. discriminate.
      * apply (IH false a t E).
Qed.

Lemma collapse_seps_chars (s : string) : forall b,
  forallb (fun c => slug_char c || is_space c) (list_ascii_of_string s) = true ->
  forallb slug_char (list_ascii_of_string (collapse_seps b s)) = true.
Proof.
  induction s as [|c s IH]; intros b H; [destruct b; reflexivity|].
  simpl in H. apply andb_prop in H as [Hc H]. simpl.
  destruct (is_sep c) eqn:Es; [destruct b; [apply IH, H|]|].
  - simpl. apply IH, H.
  - simpl. rewrite IH by exact H. unfold is_sep in Es. apply orb_false_iff in Es as [Es _].
    rewrite Es, orb_false_r in Hc. rewrite Hc. reflexivity.
Qed.

Lemma keep_slug_chars_chars (s : string) :
  forallb (fun c => slug_char c || is_space c) (list_ascii_of_string (keep_slug_chars s)) = true.
Proof.
  induction s as [|c s IH]; [reflexivity|]. simpl.
  destruct (is_lower_alnum c || is_space c || Ascii.eqb c "-"%char) eqn:E; [|exact IH].
  simpl. rewrite IH, andb_true_r. unfold slug_char.
  destruct (is_lower_alnum c), (is_space c), (Ascii.eqb c "-"%char); try reflexivity; discriminate.
Qed.

Lemma slug_shape (s : string) :
  let l := list_ascii_of_string (slugify s) in
  forallb slug_char l = true /\ hd_error l <> Some "-"%char /\ hd_error (rev l) <> Some "-"%char /\
  forall a b, l <> (a ++ "-"%char :: "-"%char :: b)%list.
Proof.
  unfold slugify. destruct (String.eqb s "").
  - simpl. repeat split; try discriminate. intros a b. destruct a; discriminate.
  - apply drop_edge_hyphens_shape.
    + apply collapse_seps_chars, keep_slug_chars_chars.
    + apply collapse_seps_no_dd.
Qed.

Lemma slug_char_lower (c : ascii) : slug_char c = true -> to_lower c = c.
Proof.
  unfold slug_char, is_lower_alnum, is_digit, to_lower. intros H.
  destruct (Ascii.eqb_spec c "-"%char) as [E|Hc]; [rewrite E; reflexivity|].
  rewrite orb_false_r in H.
  destruct (Nat.leb_spec 65 (nat_of_ascii c)), (Nat.leb_spec (nat_of_ascii c) 90); try reflexivity.
  destruct (Nat.leb_spec 97 (nat_of_ascii c)), (Nat.leb_spec (nat_of_ascii c) 122),
           (Nat.leb_spec 48 (nat_of_ascii c)), (Nat.leb_spec (nat_of_ascii c) 57);
    simpl in H; try discriminate; lia.
Qed.

Lemma slug_char_not_space (c : ascii) : slug_char c = true -> is_space c = false.
Proof.
  unfold slug_char, is_lower_alnum, is_digit, is_space. intros H.
  destruct (Ascii.eqb_spec c "-"%char) as [E|Hc]; [rewrite E; reflexivity|].
  rewrite orb_false_r in H.
  destruct (Nat.leb_spec 97 (nat_of_ascii c)), (Nat.leb_spec (nat_of_ascii c) 122),
           (Nat.leb_spec 48 (nat_of_ascii c)), (Nat.leb_spec (nat_of_ascii c) 57);
    simpl in H; try discriminate;
    (destruct (nat_of_ascii c) as [|[|[|[|[|[|[|[|[|[|[|[|[|[|[|[|[|[|[|[|[|[|[|[|[|[|[|[|[|[|[|[|[|n]]]]]]]]]]]]]]]]]]]]]]]]]]]]]]]]];
     [lia|lia|lia|lia|lia|lia|lia|lia|lia|lia|lia|lia|lia|lia|lia|lia|lia|lia|lia|lia|lia|lia|lia|lia|lia|lia|lia|lia|lia|lia|lia|lia|lia|reflexivity]).
Qed.

Lemma drop_first_hyphen_id (l : list ascii) :
  hd_error l <> Some "-"%char -> drop_first_hyphen l = l.
Proof.
  destruct l as [|c r]; [reflexivity|]. simpl. intros H.
  destruct (Ascii.eqb_spec c "-"%char) as [E|_]; [subst c; congruence|reflexivity].
Qed.

Lemma list_ascii_of_string_inj (x y : string) :
  list_ascii_of_string x = list_ascii_of_string y -> x = y.
Proof.
  intros E. rewrite <- (string_of_list_ascii_of_string x), <- (string_of_list_ascii_of_string y), E.
  reflexivity.
Qed.

Lemma str_lower_slug (t : string) :
  forallb slug_char (list_ascii_of_string t) = true -> str_lower t = t.
Proof.
  induction t as [|c t IH]; [reflexivity|]. simpl. intros H.
  apply andb_prop in H as [Hc H]. rewrite slug_char_lower, IH; auto.
Qed.

Lemma replace_amp_and_slug (t : string) :
  forallb slug_char (list_ascii_of_string t) = true -> replace_amp_and t = t.
Proof.
  induction t as [|c t IH]; [reflexivity|]. simpl. intros H.
  apply andb_prop in H as [Hc H].
  destruct (Ascii.eqb_spec c "&"%char) as [E|_]; [subst c; discriminate|].
  rewrite IH; auto.
Qed.

Lemma keep_slug_chars_slug (t : string) :
  forallb slug_char (list_ascii_of_string t) = true -> keep_slug_chars t = t.
Proof.
  induction t as [|c t IH]; [reflexivity|]. simpl. intros H.
  apply andb_prop in H as [Hc H]. unfold slug_char in Hc.
  replace (is_lower_alnum c || is_space c || Ascii.eqb c "-"%char) with true
    by (destruct (is_lower_alnum c), (is_space c), (Ascii.eqb c "-"%char); auto).
  rewrite IH; auto.
Qed.

Lemma collapse_seps_slug (t : string) : forall b,
  forallb slug_char (list_ascii_of_string t) = true ->
  (forall a b, list_ascii_of_string t <> (a ++ "-"%char :: "-"%char :: b)%list) ->
  (b = true -> hd_error (list_ascii_of_string t) <> Some "-"%char) ->
  collapse_seps b t = t.
Proof.
  induction t as [|c t IH]; intros b Hc Hd Hh; [reflexivity|].
  simpl in Hc. apply andb_prop in Hc as [Hc Ht]. simpl.
  assert (Hd' := no_dd_app_l [c] _ Hd).
  unfold is_sep. rewrite (slug_char_not_space c Hc). simpl.
  destruct (Ascii.eqb_spec c "-"%char) as [E|Hne].
  - subst c. destruct b; [exfalso; apply (Hh eq_refl); reflexivity|].
    rewrite (IH true Ht Hd'); [reflexivity|]. intros _.
    destruct t as [|c' t]; [discriminate|]. simpl. intros E; injection E as ->.
    apply (Hd [] (list_ascii_of_string t)). reflexivity.
  - rewrite (IH false Ht Hd'); [reflexivity|discriminate].
Qed.

(** A slug is left as it is by [slugify]. *)
Lemma slugify_fixed (t : string) :
  let l := list_ascii_of_string t in
  forallb slug_char l = true -> hd_error l <> Some "-"%char -> hd_error (rev l) <> Some "-"%char ->
  (forall a b, l <> (a ++ "-"%char :: "-"%char :: b)%list) ->
  slugify t = t.
Proof.
  intros l Hc Hh Hl Hd. unfold slugify.
  destruct (String.eqb_spec t "") as [->|_]; [reflexivity|].
  rewrite (str_lower_slug t Hc).
  assert (Hsp : forallb (fun c => negb (is_space c)) l = true).
  { apply (forallb_impl slug_char); [|exact Hc].
    intros c Hc'. rewrite (slug_char_not_space c Hc'). reflexivity. }
  unfold js_trim. rewrite (strip_none is_space t Hsp).
  rewrite (replace_amp_and_slug t Hc), (keep_slug_chars_slug t Hc).
  rewrite (collapse_seps_slug t false Hc Hd) by discriminate.
  apply list_ascii_of_string_inj. rewrite drop_edge_hyphens_eq. fold l.
  rewrite (drop_first_hyphen_id l Hh), (drop_first_hyphen_id (rev l) Hl), rev_involutive.
  reflexivity.
Qed.

Lemma string_length_list (s : string) : String.length s = length (list_ascii_of_string s).
Proof. induction s as [|c s IH]; simpl; [reflexivity|]. rewrite IH. reflexivity. Qed.

Lemma take_digits_spec (k : nat) : forall s,
  all_digits (fst (take_digits k s)) = true /\ String.length (fst (take_digits k s)) <= k.
Proof.
  induction k as [|k IH]; intros s; [destruct s; simpl; split; auto|].
  destruct s as [|c r]; [simpl; split; auto; lia|]. simpl.
  destruct (is_digit c) eqn:Ec; [|simpl; split; auto; lia].
  specialize (IH r). destruct (take_digits k r) as [ds rest]. simpl in *.
  destruct IH as [H1 H2]. unfold all_digits in *. simpl. rewrite Ec, H1. split; [reflexivity|lia].
Qed.

Lemma match_mdy_groups (s m d y : string) :
  match_mdy s = Some (m, d, y) ->
  all_digits m = true /\ 1 <= String.length m <= 2 /\
  all_digits d = true /\ 1 <= String.length d <= 2 /\
  all_digits y = true /\ String.length y = 4.
Proof.
  unfold match_mdy. pose proof (take_digits_spec 2 s) as Tm.
  destruct (take_digits 2 s) as [mm r1]. simpl in Tm.
  destruct (Nat.eqb_spec (String.length mm) 0) as [_|Hm0]; [discriminate|].
  destruct r1 as [|sl1 r2]; [discriminate|].
  destruct (negb (Ascii.eqb sl1 "/"%char)); [discriminate|].
  pose proof (take_digits_spec 2 r2) as Td.
  destruct (take_digits 2 r2) as [dd r3]. simpl in Td.
  destruct (Nat.eqb_spec (String.length dd) 0) as [_|Hd0]; [discriminate|].
  destruct r3 as [|sl2 r4]; [discriminate|].
  destruct (negb (Ascii.eqb sl2 "/"%char)); [discriminate|].
  pose proof (take_digits_spec 4 r4) as Ty.
  destruct (take_digits 4 r4) as [yyyy r5]. simpl in Ty.
  destruct (Nat.eqb_spec (String.length yyyy) 4) as [Hy|_]; [|discriminate].
  destruct (String.eqb r5 ""); [|discriminate]. simpl.
  intros E; injection E as <- <- <-. intuition lia.
Qed.

Lemma all_digits_app (a b : string) :
  all_digits (a ++ b) = all_digits a && all_digits b.
Proof.
  induction a as [|c a IH]; [reflexivity|]. unfold all_digits in *. simpl. rewrite IH.
  apply andb_assoc.
Qed.

Lemma pad2_digits (s : string) :
  all_digits s = true -> 1 <= String.length s <= 2 ->
  all_digits (pad2 s) = true /\ String.length (pad2 s) = 2.
Proof.
  unfold pad2. intros H Hl.
  destruct (String.length s) as [|[|[|n]]] eqn:E; try lia.
  - change ("0" ++ s) with (String "0" s). unfold all_digits in *. simpl. rewrite H, E. split; reflexivity.
  - rewrite E. split; [exact H|reflexivity].
Qed.

Lemma to_safe_doc_id_list (id : string) :
  list_ascii_of_string (to_safe_doc_id id) =
  map (fun c => if Ascii.eqb c "/"%char then "-"%char else c) (list_ascii_of_string id).
Proof. unfold to_safe_doc_id. apply list_ascii_of_string_of_list_ascii. Qed.

Lemma to_safe_doc_id_props (id : string) :
  ~ In "/"%char (list_ascii_of_string (to_safe_doc_id id)) /\
  String.length (to_safe_doc_id id) = String.length id /\
  (~ In "/"%char (list_ascii_of_string id) -> to_safe_doc_id id = id).
Proof.
  rewrite !string_length_list, to_safe_doc_id_list. split; [|split].
  - intros Hin. apply in_map_iff in Hin as [c [Ec _]].
    destruct (Ascii.eqb_spec c "/"%char); [discriminate|congruence].
  - apply length_map.
  - intros Hn. apply list_ascii_of_string_inj. rewrite to_safe_doc_id_list.
    rewrite <- (map_id (list_ascii_of_string id)) at 2. apply map_ext_in.
    intros c Hc. destruct (Ascii.eqb_spec c "/"%char) as [->|]; [contradiction|reflexivity].
Qed.

Lemma store_ids_app (a b : list Op) : store_ids (a ++ b) = (store_ids a ++ store_ids b)%list.
Proof. induction a as [|[] a IH]; simpl; [reflexivity| |]; rewrite IH; reflexivity. Qed.

Lemma txn_writes_app (a b : list Op) : txn_writes (a ++ b) = txn_writes a + txn_writes b.
Proof. induction a as [|[] a IH]; simpl; [reflexivity| |]; rewrite IH; reflexivity. Qed.

Lemma length_ops (ops : list Op) : length ops = txn_writes ops + length (store_ids ops).
Proof. induction ops as [|[] ops IH]; simpl; lia. Qed.

Lemma slug_no_slash (s : string) : ~ In "/"%char (list_ascii_of_string (slugify s)).
Proof.
  destruct (slug_shape s) as [Hc _]. rewrite forallb_forall in Hc.
  intros Hin. specialize (Hc _ Hin). discriminate.
Qed.

Lemma no_slash_existsb (s : string) :
  ~ In "/"%char (list_ascii_of_string s) ->
  existsb (fun c => Ascii.eqb c "/"%char) (list_ascii_of_string s) = false.
Proof.
  intros H. apply not_true_is_false. intros E. apply existsb_exists in E as [c [Hc Ec]].
  apply Ascii.eqb_eq in Ec. subst c. contradiction.
Qed.

Lemma normalize_fields (S2N : string -> jsnum) (N2S : jsnum -> string) (r : Row) (n : NormRow) :
  normalize S2N N2S r = Some n -> salesId n <> "" /\ storeLocation n <> "".
Proof.
  unfold normalize. destruct (ymdFromExcelDate N2S (lookup r "Date of Sale")) as [dd|];
    [|discriminate].
  match goal with |- context [if ?c then _ else _] => destruct c eqn:E end; [discriminate|].
  intros H; injection H as <-. simpl. apply orb_false_iff in E as [E1 E2].
  split; apply String.eqb_neq; assumption.
Qed.

Lemma txn_op_id_ok (fp : string) (n : NormRow) :
  salesId n <> "" -> doc_id_ok (op_doc_id (txn_op fp n)) = true.
Proof.
  intros H. unfold doc_id_ok. simpl. destruct (to_safe_doc_id_props (salesId n)) as [Hs [Hl _]].
  rewrite no_slash_existsb by exact Hs. rewrite andb_true_r.
  destruct (String.eqb_spec (to_safe_doc_id (salesId n)) "") as [E|]; [|reflexivity].
  exfalso. apply H. rewrite E in Hl. destruct (salesId n); [reflexivity|discriminate].
Qed.

Section ImportCounts.

Variable StringToNumber : string -> jsnum.
Variable NumberToString : jsnum -> string.


Lemma run_inv_init : run_inv init_st.
Proof. repeat split; constructor. Qed.

Lemma commitBatch_props (st : St) :
  writes_inv st ->
  writes_inv (commitBatch st) /\ rowCount (commitBatch st) = rowCount st /\
  validRowCount (commitBatch st) = validRowCount st /\
  skippedRowCount (commitBatch st) = skippedRowCount st /\
  trace (commitBatch st) = trace st.
Proof.
  intros Hi. pose proof Hi as (Hb & Ht & Hs & Hn & Ho).
  destruct (trace_commitBatch st Hb) as [Tc Bc].
  unfold commitBatch in *. destruct (Nat.eqb_spec (batchOps st) 0) as [E|E].
  - repeat split; auto.
  - unfold writes_inv. rewrite Tc. simpl. repeat split; auto. lia.
Qed.

Lemma run_inv_commitBatch (st : St) : run_inv st -> run_inv (commitBatch st).
Proof.
  intros [Hw [Ht Hr]]. destruct (commitBatch_props st Hw) as (Hw' & E1 & E2 & E3 & E4).
  split; [exact Hw'|]. rewrite E1, E2, E3, E4. split; assumption.
Qed.

Lemma run_inv_step (fp : string) (st : St) (r : Row) :
  run_inv st ->
  let st' := process_row StringToNumber NumberToString fp st r in
  run_inv st' /\ rowCount st' = S (rowCount st) /\
  validRowCount st' = validRowCount st + (if accepted StringToNumber NumberToString r then 1 else 0).
Proof.
  intros Hi st'. unfold st', accepted, process_row.
  destruct (normalize StringToNumber NumberToString r) as [n|] eqn:En.
  2:{ destruct Hi as [(Hb & Ht & Hs & Hn & Ho) [Hv Hr]].
      unfold run_inv, writes_inv, trace in *; simpl. repeat split; auto; lia. }
  destruct (normalize_fields _ _ r n En) as [Hid _].
  set (sid := slugify (storeLocation n)).
  set (st0 := set_counters st (S (rowCount st)) (validRowCount st) (skippedRowCount st)).
  set (st1 := set_counters st0 (rowCount st0) (S (validRowCount st0)) (skippedRowCount st0)).
  assert (H1 : writes_inv st1 /\ txn_writes (trace st1) = validRowCount st /\
               rowCount st1 = S (rowCount st) /\ validRowCount st1 = S (validRowCount st) /\
               skippedRowCount st1 = skippedRowCount st).
  { destruct Hi as [(Hb & Ht & Hs & Hn & Ho) [Hv Hr]].
    unfold st1, st0, writes_inv, trace in *; simpl. repeat split; auto. }
  clearbody st1.
  set (st2 := if negb (String.eqb sid "") && negb (existsb (String.eqb sid) (seenStores st1))
              then queue (add_seen st1 sid) (SetStore sid {| st_name := storeLocation n; st_active := true |})
              else st1).
  assert (H2 : writes_inv st2 /\ txn_writes (trace st2) = validRowCount st /\
               rowCount st2 = S (rowCount st) /\ validRowCount st2 = S (validRowCount st) /\
               skippedRowCount st2 = skippedRowCount st).
  { unfold st2. destruct (negb (String.eqb sid "") && negb (existsb (String.eqb sid) (seenStores st1))) eqn:Ec;
      [|exact H1].
    apply andb_prop in Ec as [Ec1 Ec2]. apply negb_true_iff in Ec1, Ec2.
    destruct H1 as [(Hb & Ht & Hs & Hn & Ho) (Hv & Hrc & Hvc & Hsc)].
    unfold writes_inv, trace in *; simpl.
    rewrite !app_assoc, store_ids_app, txn_writes_app, forallb_app, length_app, Hs, Hv, Ho.
    simpl. repeat split; auto; try lia.
    - rewrite length_app. simpl. lia.
    - apply Permutation_NoDup with (l := sid :: seenStores st1).
      + apply Permutation_cons_append.
      + constructor; [|exact Hn]. intros Hin.
        apply not_true_iff_false in Ec2. apply Ec2, existsb_exists. exists sid. split; [exact Hin|].
        apply String.eqb_refl.
    - unfold doc_id_ok. simpl. rewrite Ec1, no_slash_existsb by apply slug_no_slash. reflexivity. }
  clearbody st2.
  assert (H3 : run_inv (queue st2 (txn_op fp n)) /\ rowCount (queue st2 (txn_op fp n)) = S (rowCount st) /\
               validRowCount (queue st2 (txn_op fp n)) = validRowCount st + 1).
  { destruct H2 as [(Hb & Ht & Hs & Hn & Ho) (Hv & Hrc & Hvc & Hsc)].
    destruct Hi as [_ [_ Hr]].
    unfold run_inv, writes_inv, trace in *; simpl.
    rewrite !app_assoc, store_ids_app, txn_writes_app, forallb_app, length_app, Hs, Hv, Ho.
    pose proof (txn_op_id_ok fp n Hid) as Hok. simpl in Hok |- *. rewrite Hok. repeat split; auto; try lia.
    all: try (rewrite length_app; simpl; lia). apply app_nil_r. }
  destruct (Nat.leb MAX_BATCH_OPS _); [|exact H3].
  destruct H3 as [H3 [Hrc Hvc]].
  split; [apply run_inv_commitBatch, H3|].
  destruct H3 as [Hw _]. destruct (commitBatch_props _ Hw) as (_ & E1 & E2 & _).
  rewrite E1, E2. auto.
Qed.

Lemma run_inv_fold (fp : string) (rows : list Row) : forall st,
  run_inv st ->
  let st' := fold_left (process_row StringToNumber NumberToString fp) rows st in
  run_inv st' /\ rowCount st' = rowCount st + length rows /\
  validRowCount st' = validRowCount st + length (filter (accepted StringToNumber NumberToString) rows).
Proof.
  induction rows as [|r rows IH]; intros st Hi; simpl; [split; [exact Hi|]; split; lia|].
  destruct (run_inv_step fp st r Hi) as [Hi' [Hr Hv]].
  destruct (IH _ Hi') as [Hf [Hr' Hv']]. split; [exact Hf|]. split; [lia|].
  rewrite Hv', Hv. destruct (accepted StringToNumber NumberToString r); simpl; lia.
Qed.

Lemma run_inv_completed (fp : string) (rows : list Row) (st : St) :
  importSalesXlsx StringToNumber NumberToString fp rows = Completed st ->
  run_inv st /\ batch st = [] /\ rowCount st = length rows /\
  validRowCount st = length (filter (accepted StringToNumber NumberToString) rows).
Proof.
  intros H. apply importSalesXlsx_completed in H. subst st.
  destruct (run_inv_fold fp rows init_st run_inv_init) as [Hf [Hr Hv]].
  set (st := fold_left _ rows init_st) in *.
  pose proof (run_inv_commitBatch st Hf) as Hc.
  destruct Hf as [Hw _]. destruct (commitBatch_props st Hw) as (_ & E1 & E2 & _).
  split; [exact Hc|]. split.
  - destruct Hw as [Hb _]. unfold commitBatch.
    destruct (Nat.eqb_spec (batchOps st) 0) as [E|E]; [|reflexivity].
    rewrite E in Hb. destruct (batch st); [reflexivity|discriminate].
  - rewrite E1, E2, Hr, Hv. split; reflexivity.
Qed.

End ImportCounts.

Lemma fold_apply_unwritten (k : string) (ops : list Op) :
  forall db, (forall d, ~ In (SetTxn k d) ops) -> txns (fold_left apply_op ops db) k = txns db k.
Proof.
  induction ops as [|op ops IH]; intros db H; [reflexivity|]. simpl.
  rewrite IH by (intros d Hd; apply (H d); right; exact Hd).
  destruct op as [id sd|id td]; [reflexivity|]. simpl.
  destruct (String.eqb_spec k id) as [->|]; [|reflexivity].
  exfalso. apply (H td). left. reflexivity.
Qed.

Lemma fold_apply_agree_stores (k : string) (ops : list Op) :
  forall db1 db2, stores db1 k = stores db2 k ->
  stores (fold_left apply_op ops db1) k = stores (fold_left apply_op ops db2) k.
Proof.
  induction ops as [|op ops IH]; intros db1 db2 E; simpl; [exact E|].
  apply IH. destruct op; simpl; [|exact E]. destruct (String.eqb k storeId); [reflexivity|exact E].
Qed.

Lemma fold_apply_written_stores (k : string) (ops : list Op) (d : StoreDoc) :
  In (SetStore k d) ops -> forall db1 db2,
  stores (fold_left apply_op ops db1) k = stores (fold_left apply_op ops db2) k.
Proof.
  induction ops as [|op ops IH]; intros Hin db1 db2; [destruct Hin|].
  destruct Hin as [->|Hin]; simpl.
  - apply fold_apply_agree_stores. simpl. rewrite String.eqb_refl. reflexivity.
  - apply IH, Hin.
Qed.

Lemma fold_apply_unwritten_stores (k : string) (ops : list Op) :
  forall db, (forall d, ~ In (SetStore k d) ops) -> stores (fold_left apply_op ops db) k = stores db k.
Proof.
  induction ops as [|op ops IH]; intros db H; [reflexivity|]. simpl.
  rewrite IH by (intros d Hd; apply (H d); right; exact Hd).
  destruct op as [id sd|id td]; [|reflexivity]. simpl.
  destruct (String.eqb_spec k id) as [->|]; [|reflexivity].
  exfalso. apply (H sd). left. reflexivity.
Qed.

Lemma txn_written_dec (k : string) (ops : list Op) :
  (exists d, In (SetTxn k d) ops) \/ (forall d, ~ In (SetTxn k d) ops).
Proof.
  induction ops as [|op ops [[d Hd]|Hn]].
  - right. intros d [].
  - left. exists d. right. exact Hd.
  - destruct op as [id sd|id td].
    + right. intros d [E|Hd]; [discriminate|exact (Hn d Hd)].
    + destruct (String.eqb_spec id k) as [->|Hne].
      * left. exists td. left. reflexivity.
      * right. intros d [E|Hd]; [injection E as E _; congruence|exact (Hn d Hd)].
Qed.

Lemma store_written_dec (k : string) (ops : list Op) :
  (exists d, In (SetStore k d) ops) \/ (forall d, ~ In (SetStore k d) ops).
Proof.
  induction ops as [|op ops [[d Hd]|Hn]].
  - right. intros d [].
  - left. exists d. right. exact Hd.
  - destruct op as [id sd|id td].
    + destruct (String.eqb_spec id k) as [->|Hne].
      * left. exists sd. left. reflexivity.
      * right. intros d [E|Hd]; [injection E as E _; congruence|exact (Hn d Hd)].
    + right. intros d [E|Hd]; [discriminate|exact (Hn d Hd)].
Qed.

(** Applying a sequence of writes over the result of applying any part of
    it agrees, document by document, with applying it once. *)
Lemma fold_apply_absorb (p ops : list Op) (db : Db) (k : string) :
  (forall op, In op p -> In op ops) ->
  txns (fold_left apply_op ops (fold_left apply_op p db)) k = txns (fold_left apply_op ops db) k /\
  stores (fold_left apply_op ops (fold_left apply_op p db)) k = stores (fold_left apply_op ops db) k.
Proof.
  intros Hp. split.
  - destruct (txn_written_dec k ops) as [[d Hd]|Hn].
    + eapply fold_apply_written. exact Hd.
    + rewrite (fold_apply_unwritten k ops _ Hn), (fold_apply_unwritten k ops db Hn). apply fold_apply_unwritten.
      intros d Hd. apply (Hn d), Hp, Hd.
  - destruct (store_written_dec k ops) as [[d Hd]|Hn].
    + eapply fold_apply_written_stores. exact Hd.
    + rewrite (fold_apply_unwritten_stores k ops _ Hn), (fold_apply_unwritten_stores k ops db Hn). apply fold_apply_unwritten_stores.
      intros d Hd. apply (Hn d), Hp, Hd.
Qed.

(** ** Extra properties of the import *)

(** X1.  [slugify] returns a string of lower-case letters, digits and
    hyphens that neither starts nor ends with a hyphen and has no two
    hyphens in a row, whatever its input. *)
Theorem slugify_shape (s : string) :
  let l := list_ascii_of_string (slugify s) in
  forallb slug_char l = true /\ hd_error l <> Some "-"%char /\ hd_error (rev l) <> Some "-"%char /\
  forall a b, l <> (a ++ "-"%char :: "-"%char :: b)%list.
Proof. exact (slug_shape s). Qed.

(** X2.  [slugify] is idempotent: the slug of a slug is itself. *)
Theorem slugify_idempotent (s : string) : slugify (slugify s) = slugify s.
Proof.
  destruct (slug_shape s) as (Hc & Hh & Hl & Hd). apply slugify_fixed; assumption.
Qed.

(** X3.  [toSafeDocId] leaves no [/] in the identifier and keeps its
    length, and it returns its input unchanged exactly when the input has
    no [/]. *)
Theorem to_safe_doc_id_segment (id : string) :
  ~ In "/"%char (list_ascii_of_string (to_safe_doc_id id)) /\
  String.length (to_safe_doc_id id) = String.length id /\
  (to_safe_doc_id id = id <-> ~ In "/"%char (list_ascii_of_string id)).
Proof.
  destruct (to_safe_doc_id_props id) as (Hs & Hl & Hid).
  split; [exact Hs|]. split; [exact Hl|]. split; [|exact Hid].
  intros E. rewrite <- E. exact Hs.
Qed.

(** X4.  Whenever [ymdFromExcelDate] returns a date, it is ten characters
    ["YYYY-MM-DD"]: four digits, a hyphen, two digits, a hyphen and two
    digits. *)
Theorem ymd_output_shape (N2S : jsnum -> string) (v : cell) (s : string)
  (H : ymdFromExcelDate N2S v = Some s) :
  exists y m d, s = y ++ "-" ++ m ++ "-" ++ d /\
    all_digits y = true /\ String.length y = 4 /\
    all_digits m = true /\ String.length m = 2 /\
    all_digits d = true /\ String.length d = 2.
Proof.
  revert H. unfold ymdFromExcelDate. destruct (negb (truthy v)); [discriminate|].
  destruct (match_mdy (js_trim (js_String N2S v))) as [[[m d] y]|] eqn:E; [|discriminate].
  intros H; injection H as <-.
  destruct (match_mdy_groups _ _ _ _ E) as (Hm & Hml & Hd & Hdl & Hy & Hyl).
  destruct (pad2_digits m Hm Hml) as [Pm Pml]. destruct (pad2_digits d Hd Hdl) as [Pd Pdl].
  exists y, (pad2 m), (pad2 d). repeat split; assumption.
Qed.

Lemma ymd_output_shape_witness :
  ymdFromExcelDate sample_NumberToString (CStr " 1/5/2024 ") = Some "2024-01-05" /\
  exists y m d, "2024-01-05" = y ++ "-" ++ m ++ "-" ++ d /\
    all_digits y = true /\ String.length y = 4 /\
    all_digits m = true /\ String.length m = 2 /\
    all_digits d = true /\ String.length d = 2.
Proof.
  split; [reflexivity|]. apply (ymd_output_shape sample_NumberToString (CStr " 1/5/2024 ")).
  reflexivity.
Defined.

(** X5.  A completed import counts every row it reads, once: [rowCount] is
    the number of rows, [validRowCount] the number of rows [normalize]
    accepts and [skippedRowCount] the others.  [totalWrites] is the number
    of writes it committed, one transaction write per accepted row and one
    store write per store it touched ([seenStores]). *)
Theorem import_counters (S2N : string -> jsnum) (N2S : jsnum -> string)
  (fp : string) (rows : list Row) (st : St)
  (H : importSalesXlsx S2N N2S fp rows = Completed st) :
  rowCount st = length rows /\
  validRowCount st = length (filter (accepted S2N N2S) rows) /\
  validRowCount st + skippedRowCount st = length rows /\
  totalWrites st = length (concat (committed st)) /\
  totalWrites st = validRowCount st + length (seenStores st).
Proof.
  destruct (run_inv_completed S2N N2S fp rows st H) as [[(Hb & Ht & Hs & _ & _) [Hv Hr]] [Hnil [Hrc Hvc]]].
  unfold trace in *. rewrite Hnil in *. rewrite app_nil_r in *. simpl in Hb.
  rewrite <- Hb, Nat.add_0_r in Ht.
  split; [exact Hrc|]. split; [exact Hvc|]. split; [lia|]. split; [exact Ht|].
  rewrite Ht, length_ops, Hv, Hs. reflexivity.
Qed.

Lemma import_counters_witness :
  importSalesXlsx sample_StringToNumber sample_NumberToString "sales/jan.xlsx" sample_rows =
    Completed (commitBatch (fold_left (process_row sample_StringToNumber sample_NumberToString "sales/jan.xlsx")
                              sample_rows init_st)) /\
  let st := commitBatch (fold_left (process_row sample_StringToNumber sample_NumberToString "sales/jan.xlsx")
                              sample_rows init_st) in
  rowCount st = length sample_rows /\
  validRowCount st = length (filter (accepted sample_StringToNumber sample_NumberToString) sample_rows) /\
  validRowCount st + skippedRowCount st = length sample_rows /\
  totalWrites st = length (concat (committed st)) /\
  totalWrites st = validRowCount st + length (seenStores st).
Proof.
  split; [reflexivity|]. apply (import_counters sample_StringToNumber sample_NumberToString "sales/jan.xlsx").
  reflexivity.
Defined.

(** X6.  A completed import writes each store document at most once: the
    store identifiers of its committed writes have no repetition and are
    exactly [seenStores], in order. *)
Theorem import_store_written_once (S2N : string -> jsnum) (N2S : jsnum -> string)
  (fp : string) (rows : list Row) (st : St)
  (H : importSalesXlsx S2N N2S fp rows = Completed st) :
  NoDup (store_ids (concat (committed st))) /\ store_ids (concat (committed st)) = seenStores st.
Proof.
  destruct (run_inv_completed S2N N2S fp rows st H) as [[(_ & _ & Hs & Hn & _) _] [Hnil _]].
  unfold trace in Hs. rewrite Hnil, app_nil_r in Hs. rewrite Hs. split; [exact Hn|reflexivity].
Qed.

Lemma import_store_written_once_witness :
  importSalesXlsx sample_StringToNumber sample_NumberToString "sales/jan.xlsx" sample_rows =
    Completed (commitBatch (fold_left (process_row sample_StringToNumber sample_NumberToString "sales/jan.xlsx")
                              sample_rows init_st)) /\
  let st := commitBatch (fold_left (process_row sample_StringToNumber sample_NumberToString "sales/jan.xlsx")
                              sample_rows init_st) in
  NoDup (store_ids (concat (committed st))) /\ store_ids (concat (committed st)) = seenStores st.
Proof.
  split; [reflexivity|]. apply (import_store_written_once sample_StringToNumber sample_NumberToString "sales/jan.xlsx" sample_rows).
  reflexivity.
Defined.

(** X7.  Every document a completed import writes, store or transaction,
    has an identifier that is one path segment: not empty and without [/]. *)
Theorem import_doc_ids_single_segment (S2N : string -> jsnum) (N2S : jsnum -> string)
  (fp : string) (rows : list Row) (st : St)
  (H : importSalesXlsx S2N N2S fp rows = Completed st) :
  forall op, In op (concat (committed st)) -> doc_id_ok (op_doc_id op) = true.
Proof.
  destruct (run_inv_completed S2N N2S fp rows st H) as [[(_ & _ & _ & _ & Ho) _] [Hnil _]].
  unfold trace in Ho. rewrite Hnil, app_nil_r, forallb_forall in Ho. exact Ho.
Qed.

Lemma import_doc_ids_single_segment_witness :
  importSalesXlsx sample_StringToNumber sample_NumberToString "sales/jan.xlsx" sample_rows =
    Completed (commitBatch (fold_left (process_row sample_StringToNumber sample_NumberToString "sales/jan.xlsx")
                              sample_rows init_st)) /\
  let st := commitBatch (fold_left (process_row sample_StringToNumber sample_NumberToString "sales/jan.xlsx")
                              sample_rows init_st) in
  forall op, In op (concat (committed st)) -> doc_id_ok (op_doc_id op) = true.
Proof.
  split; [reflexivity|]. apply (import_doc_ids_single_segment sample_StringToNumber sample_NumberToString "sales/jan.xlsx" sample_rows).
  reflexivity.
Defined.

(** X8.  Committing a run's batches again, after any number of them had
    already been committed (a retried run that failed part-way, or a run
    delivered twice), leaves every store and transaction document as one
    clean run does. *)
Theorem batches_replay_idempotent (bs : list (list Op)) (j : nat) (db : Db) (k : string) :
  txns (apply_batches (apply_batches db (firstn j bs)) bs) k = txns (apply_batches db bs) k /\
  stores (apply_batches (apply_batches db (firstn j bs)) bs) k = stores (apply_batches db bs) k.
Proof.
  rewrite !apply_batches_concat. apply fold_apply_absorb.
  intros op Hop. rewrite <- (firstn_skipn j bs), concat_app. apply in_or_app. left. exact Hop.
Qed.

(** ** Trimming, the view's names and the text filter *)

Lemma drop_while_split (p : ascii -> bool) (l : list ascii) :
  exists x, l = (x ++ drop_while p l)%list.
Proof.
  induction l as [|c l [x Hx]]; [exists []; reflexivity|]. simpl.
  destruct (p c); [exists (c :: x); simpl; rewrite <- Hx; reflexivity|exists []; reflexivity].
Qed.

Lemma drop_while_head (p : ascii -> bool) (l : list ascii) :
  match drop_while p l with c :: _ => p c = false | [] => True end.
Proof.
  induction l as [|c l IH]; simpl; [exact I|]. destruct (p c) eqn:E; [exact IH|exact E].
Qed.

Lemma drop_while_stop (p : ascii -> bool) (l : list ascii) :
  match l with c :: _ => p c = false | [] => True end -> drop_while p l = l.
Proof. destruct l as [|c l]; simpl; [reflexivity|]. intros E; rewrite E; reflexivity. Qed.

Lemma drop_while_In (p : ascii -> bool) (l : list ascii) (x : ascii) :
  In x (drop_while p l) -> In x l.
Proof.
  induction l as [|c l IH]; simpl; [auto|]. destruct (p c); [intros H; right; apply IH, H|auto].
Qed.

(** Stripping twice strips no more than once. *)
Lemma strip_idempotent (p : ascii -> bool) (s : string) : strip p (strip p s) = strip p s.
Proof.
  unfold strip. rewrite list_ascii_of_string_of_list_ascii.
  set (l1 := drop_while p (list_ascii_of_string s)).
  set (l2 := drop_while p (rev l1)).
  assert (H1 := drop_while_head p (list_ascii_of_string s)). fold l1 in H1.
  assert (H2 := drop_while_head p (rev l1)). fold l2 in H2.
  destruct (drop_while_split p (rev l1)) as [x Ex]. fold l2 in Ex.
  assert (El1 : l1 = (rev l2 ++ rev x)%list)
    by (rewrite <- rev_app_distr, <- Ex, rev_involutive; reflexivity).
  rewrite (drop_while_stop p (rev l2)).
  - rewrite rev_involutive, (drop_while_stop p l2 H2). reflexivity.
  - destruct (rev l2) as [|c r] eqn:Er; [exact I|]. rewrite El1 in H1. exact H1.
Qed.

Lemma strip_In (p : ascii -> bool) (s : string) (x : ascii) :
  In x (list_ascii_of_string (strip p s)) -> In x (list_ascii_of_string s).
Proof.
  unfold strip. rewrite list_ascii_of_string_of_list_ascii. intros H.
  apply in_rev in H. apply drop_while_In in H. apply in_rev in H. apply drop_while_In in H. exact H.
Qed.

Lemma amp_len_amp (r : string) : amp_len (String "&" r) = Some (S (lead_ws r)).
Proof. reflexivity. Qed.

Lemma replace_amp_scan_no_amp (s : string) : forall skip,
  ~ In "&"%char (list_ascii_of_string (replace_amp_scan skip s)).
Proof.
  induction s as [|c r IH]; intros skip; [simpl; auto|].
  destruct skip as [|k]; simpl; [|apply IH].
  destruct (amp_len (String c r)) as [[|k]|] eqn:E.
  - simpl. intros [Hc|Hin]; [|exact (IH 0 Hin)]. subst c. rewrite amp_len_amp in E. discriminate.
  - simpl. intros [H|[H|[H|[H|[H|Hin]]]]]; try discriminate. exact (IH k Hin).
  - simpl. intros [Hc|Hin]; [|exact (IH 0 Hin)]. subst c. rewrite amp_len_amp in E. discriminate.
Qed.

Lemma snoc_list (s : string) (c : ascii) :
  list_ascii_of_string (snoc s c) = (list_ascii_of_string s ++ [c])%list.
Proof. unfold snoc. induction s as [|d s IH]; simpl; [reflexivity|]. rewrite IH. reflexivity. Qed.

Lemma split_and_scan_In (s : string) : forall skip cur piece x,
  In piece (split_and_scan skip cur s) -> In x (list_ascii_of_string piece) ->
  In x (list_ascii_of_string cur) \/ In x (list_ascii_of_string s).
Proof.
  induction s as [|c r IH]; intros skip cur piece x Hp Hx.
  - simpl in Hp. destruct Hp as [<-|[]]. left. exact Hx.
  - destruct skip as [|k]; simpl in Hp.
    + destruct (and_len (String c r)) as [[|k]|].
      * destruct (IH 0 _ piece x Hp Hx) as [H|H]; [|right; right; exact H].
        rewrite snoc_list in H. apply in_app_or in H as [H|[H|[]]]; [left; exact H|right; left; exact H].
      * destruct Hp as [<-|Hp]; [left; exact Hx|].
        destruct (IH k _ piece x Hp Hx) as [[]|H]. right; right; exact H.
      * destruct (IH 0 _ piece x Hp Hx) as [H|H]; [|right; right; exact H].
        rewrite snoc_list in H. apply in_app_or in H as [H|[H|[]]]; [left; exact H|right; left; exact H].
    + destruct (IH k cur piece x Hp Hx) as [H|H]; [left; exact H|right; right; exact H].
Qed.


Lemma like_pct_step (p s : string) :
  like (String "%" p) s = like p s || match s with EmptyString => false | String _ s' => like (String "%" p) s' end.
Proof. destruct s; reflexivity. Qed.

Lemma like_pct (p s : string) :
  like (String "%" p) s = true <-> exists a b, s = a ++ b /\ like p b = true.
Proof.
  induction s as [|c s IH]; rewrite like_pct_step.
  - rewrite orb_false_r. split; [intros H; exists "", ""; auto|].
    intros (a & b & E & H). destruct a; [|discriminate]. simpl in E. subst b. exact H.
  - rewrite orb_true_iff, IH. split.
    + intros [H|(a & b & -> & H)]; [exists "", (String c s); auto|exists (String c a), b; auto].
    + intros ([|c' a] & b & E & H); [left; simpl in E; subst b; exact H|].
      right. injection E as -> ->. exists a, b. auto.
Qed.

Lemma like_lit (q p s : string) :
  forallb (fun c => negb (like_special c)) (list_ascii_of_string q) = true ->
  like (q ++ p) s = true <-> exists b, s = q ++ b /\ like p b = true.
Proof.
  revert s. induction q as [|c q IH]; intros s Hq.
  - simpl. split; [intros H; exists s; auto|intros (b & -> & H); exact H].
  - simpl in Hq. apply andb_prop in Hq as [Hc Hq]. unfold like_special in Hc.
    destruct (Ascii.eqb c "%"%char) eqn:E1; [discriminate|].
    destruct (Ascii.eqb c "_"%char) eqn:E2; [discriminate|].
    destruct (Ascii.eqb c "\"%char) eqn:E3; [discriminate|].
    cbn [String.append like]. rewrite E1, E2, E3.
    destruct s as [|c' s].
    + split; [discriminate|intros (b & E & _); discriminate].
    + rewrite andb_true_iff, IH by exact Hq. split.
      * intros [Ec (b & -> & H)]. apply Ascii.eqb_eq in Ec. subst c'. exists b. auto.
      * intros (b & E & H). injection E as -> ->. split; [apply Ascii.eqb_refl|]. exists b. auto.
Qed.

Lemma like_pct_any (s : string) : like "%" s = true.
Proof. apply (like_pct ""). exists s, "". split; [symmetry; apply sapp_nil|reflexivity]. Qed.

Lemma to_lower_special (c : ascii) : like_special (to_lower c) = like_special c.
Proof. destruct c as [[] [] [] [] [] [] [] []]; reflexivity. Qed.

Lemma str_lower_app (a b : string) : str_lower (a ++ b) = str_lower a ++ str_lower b.
Proof. induction a as [|c a IH]; simpl; [reflexivity|]. rewrite IH. reflexivity. Qed.

Lemma str_lower_special (q : string) :
  forallb (fun c => negb (like_special c)) (list_ascii_of_string q) = true ->
  forallb (fun c => negb (like_special c)) (list_ascii_of_string (str_lower q)) = true.
Proof.
  induction q as [|c q IH]; simpl; [reflexivity|]. rewrite to_lower_special.
  intros H. apply andb_prop in H as [H1 H2]. rewrite H1, IH; auto.
Qed.

Lemma ilike_contains_lit (s q : string) :
  forallb (fun c => negb (like_special c)) (list_ascii_of_string q) = true ->
  ilike_contains (Some s) (Some q) = Some true <->
  exists a b, str_lower s = a ++ str_lower q ++ b.
Proof.
  intros Hq. unfold ilike_contains. rewrite !str_lower_app. cbn [str_lower to_lower].
  change (to_lower "%") with "%"%char.
  split.
  - intros E. injection E as E. apply like_pct in E as (a & b & Es & Hb).
    apply like_lit in Hb as (c & -> & _); [|apply str_lower_special, Hq].
    exists a, c. rewrite Es. f_equal.
  - intros (a & b & E). f_equal. apply like_pct. exists a, (str_lower q ++ b). split; [exact E|].
    apply like_lit; [apply str_lower_special, Hq|]. exists b. split; [reflexivity|apply like_pct_any].
Qed.

(** ** Extra properties of the view and the text filter *)

(** X9.  Every [salesperson] value the [pos_sales_people] view gives a
    sale is [NULL] or a non-empty name that [trim] leaves unchanged and
    that contains no [&]. *)
Theorem view_participants_clean (sp : option string) :
  Forall (fun x => match x with
                   | None => True
                   | Some s => s <> "" /\ sql_trim s = s /\ ~ In "&"%char (list_ascii_of_string s)
                   end) (view_participants sp).
Proof.
  apply Forall_forall. intros x Hx. unfold view_participants in Hx.
  apply in_map_iff in Hx as (p & <- & Hp). unfold view_salesperson, nullif_empty.
  destruct (String.eqb_spec (sql_trim p) "") as [_|Hne]; [exact I|].
  split; [exact Hne|]. split; [apply strip_idempotent|].
  intros Hin. apply strip_In in Hin. unfold view_people, regexp_split_and in Hp.
  destruct (split_and_scan_In _ 0 "" p "&"%char Hp Hin) as [[]|H].
  exact (replace_amp_scan_no_amp _ 0 H).
Qed.

(** X10.  [parseTextParam] returns [null] or a non-empty string that
    [trim] leaves unchanged, so that applying it to its own result changes
    nothing. *)
Theorem parseTextParam_normal (v : option string) :
  parseTextParam (parseTextParam v) = parseTextParam v /\
  match parseTextParam v with Some t => t <> "" /\ js_trim t = t | None => True end.
Proof.
  destruct v as [s|]; [|split; reflexivity]. unfold parseTextParam.
  destruct (String.eqb_spec (js_trim s) "") as [E|E]; [split; reflexivity|].
  assert (Hi : js_trim (js_trim s) = js_trim s) by apply strip_idempotent.
  rewrite Hi. destruct (String.eqb_spec (js_trim s) "") as [E'|_]; [contradiction|].
  split; [reflexivity|]. split; [exact E|reflexivity].
Qed.

(** X11.  The [salesperson] filter of the analytics queries,
    [ILIKE ('%' || q || '%')], holds for a name exactly when the name
    contains [q] ignoring ASCII case, for a filter [q] without [%], [_] or
    [\] (which [ILIKE] reads as wildcards and escape). *)
Theorem ilike_filter_contains (s q : string)
  (Hq : forallb (fun c => negb (like_special c)) (list_ascii_of_string q) = true) :
  ilike_contains (Some s) (Some q) = Some true <->
  exists a b, str_lower s = a ++ str_lower q ++ b.
Proof. exact (ilike_contains_lit s q Hq). Qed.

Lemma ilike_filter_contains_witness :
  forallb (fun c => negb (like_special c)) (list_ascii_of_string "smith") = true /\
  (ilike_contains (Some "Ann SMITH") (Some "smith") = Some true <->
   exists a b, str_lower "Ann SMITH" = a ++ str_lower "smith" ++ b).
Proof.
  split; [reflexivity|]. apply (ilike_filter_contains "Ann SMITH" "smith"). reflexivity.
Defined.

(* ------------------------------------------------------------------ *)
(** ** The task board *)
Lemma parseTaskStatus_cases (v : json) :
  parseTaskStatus v = None \/ parseTaskStatus v = Some "TODO" \/
  parseTaskStatus v = Some "IN_PROGRESS" \/ parseTaskStatus v = Some "DONE".
Proof.
  unfold parseTaskStatus. destruct v; auto.
  destruct (String.eqb s ""); auto.
  set (t := str_upper (js_trim s)).
  destruct (String.eqb t "TODO") eqn:E1; [apply String.eqb_eq in E1; rewrite E1; auto|].
  destruct (String.eqb t "IN_PROGRESS") eqn:E2; [apply String.eqb_eq in E2; rewrite E2; auto|].
  destruct (String.eqb t "DONE") eqn:E3; [apply String.eqb_eq in E3; rewrite E3; auto|].
  auto.
Qed.

Lemma parseTaskPriority_cases (v : json) :
  parseTaskPriority v = None \/ parseTaskPriority v = Some "low" \/
  parseTaskPriority v = Some "medium" \/ parseTaskPriority v = Some "high".
Proof.
  unfold parseTaskPriority. destruct v; auto.
  destruct (String.eqb s ""); auto.
  set (t := str_lower (js_trim s)).
  destruct (String.eqb t "low") eqn:E1; [apply String.eqb_eq in E1; rewrite E1; auto|].
  destruct (String.eqb t "medium") eqn:E2; [apply String.eqb_eq in E2; rewrite E2; auto|].
  destruct (String.eqb t "high") eqn:E3; [apply String.eqb_eq in E3; rewrite E3; auto|].
  auto.
Qed.

Lemma patch_status_cases (b : TaskBody) :
  patch_status b = None \/ patch_status b = Some "TODO" \/
  patch_status b = Some "IN_PROGRESS" \/ patch_status b = Some "DONE".
Proof.
  unfold patch_status. destruct (b_status b); auto; apply parseTaskStatus_cases.
Qed.

Lemma parseTaskIdParam_pos (S2N : string -> jsnum) (idp : string) (id : Z) :
  parseTaskIdParam S2N idp = Some id -> (0 < id)%Z.
Proof.
  unfold parseTaskIdParam. destruct (String.eqb idp ""); [discriminate|].
  destruct (S2N idp); try discriminate.
  destruct (Z.ltb 0 (js_trunc q)) eqn:E; [|discriminate].
  intros H; injection H as <-. apply Z.ltb_lt; exact E.
Qed.

Lemma patch_deadline_empty (b : TaskBody) : deadline_empty b = true -> patch_deadline b = None.
Proof. unfold patch_deadline. intros ->. destruct (deadline_given b); reflexivity. Qed.

Lemma pg_date_id (d d' : string) : pg_date d = Some d' -> d' = d.
Proof.
  unfold pg_date. destruct (ymd_fields d) as [[[y m] dd]|]; [|discriminate].
  destruct (_ && _); [|discriminate]. intros H; injection H as <-; reflexivity.
Qed.

Ltac patch_cases2 H b :=
  destruct (patch_title _) as [?t|] eqn:?Et; [destruct (String.eqb _ "") eqn:?Et0; [discriminate H|]|];
  destruct (patch_assignee _) eqn:?Ea;
  destruct (patch_status_cases b) as [?Es|[?Es|[?Es|?Es]]]; rewrite Es in H; try rewrite Es;
  destruct (patch_priority _) eqn:?Ep;
  (destruct (deadline_given _) eqn:?Eg;
   [(destruct (deadline_empty _) eqn:?Ee;
     [rewrite (patch_deadline_empty _ Ee) in H; try rewrite (patch_deadline_empty _ Ee)|destruct (patch_deadline _) eqn:?Ed])|]);
  destruct (patch_sort_index _ _) eqn:?Esi;
  simpl in H; try discriminate H.

Lemma patch_task_sql (S2N : string -> jsnum) (idp : string) (b : TaskBody)
    (fs : list SetItem) (vs : list pval) :
  patch_task S2N idp b = PatchSql fs vs ->
  exists id, parseTaskIdParam S2N idp = Some id /\
    param vs (length vs) = Some (PVNum id) /\
    param_indices fs = seq 1 (length vs - 1) /\
    has_dup (map item_col fs ++ ["updated_at"]) = false.
Proof.
  unfold patch_task. destruct (parseTaskIdParam S2N idp) as [id|] eqn:Eid; [|discriminate].
  intros H. exists id. split; [reflexivity|].
  patch_cases2 H b; injection H as <- <-; simpl; rewrite ?length_app; simpl;
    repeat split; reflexivity.
Qed.

Lemma exec_update_eq (now : string) (fs : list SetItem) (vs : list pval) (tbl : list TaskRow) :
  exec_update now fs vs tbl =
  if has_dup (map item_col fs ++ ["updated_at"]) then None else
  match param vs (length vs) with
  | Some (PVNum z) =>
      if negb (int8_ok z) then None else fold_right (update_step now fs vs z) (Some ([], [])) tbl
  | _ => None
  end.
Proof. reflexivity. Qed.

(** The fold keeps every row without the id and replaces each row with it. *)
Lemma update_fold_rows (now : string) (fs : list SetItem) (vs : list pval) (z : Z)
    (tbl tbl' ret : list TaskRow) :
  fold_right (update_step now fs vs z) (Some ([], [])) tbl = Some (tbl', ret) ->
  Forall2 (fun x y => (row_has_id z x = false /\ y = x) \/
                      (row_has_id z x = true /\ update_row now fs vs x = Some y)) tbl tbl' /\
  (ret = [] -> tbl' = tbl) /\
  (forall r' ret', ret = r' :: ret' ->
     exists r, In r tbl /\ row_has_id z r = true /\ update_row now fs vs r = Some r').
Proof.
  revert tbl' ret. induction tbl as [|x tbl IH]; simpl; intros tbl' ret H.
  - injection H as <- <-. split; [constructor|]. split; [reflexivity|]. discriminate.
  - unfold update_step at 1 in H.
    destruct (fold_right (update_step now fs vs z) (Some ([], [])) tbl) as [[t0 ret0]|] eqn:F;
      [|discriminate].
    destruct (IH t0 ret0 eq_refl) as (HF & Hn & Hr).
    destruct (row_has_id z x) eqn:Ex.
    + destruct (update_row now fs vs x) as [x'|] eqn:Ux; [|discriminate].
      injection H as <- <-. split; [constructor; [right; auto|exact HF]|].
      split; [discriminate|].
      intros r' ret' E. injection E as <- _. exists x. auto.
    + injection H as <- <-. split; [constructor; [left; auto|exact HF]|].
      split; [intros E; rewrite (Hn E); reflexivity|].
      intros r' ret' E. destruct (Hr r' ret' E) as (r & ? & ? & ?). exists r. auto.
Qed.

Lemma param_last (vs : list pval) (v : pval) : param (vs ++ [v]) (length (vs ++ [v])) = Some v.
Proof.
  rewrite length_app. simpl. rewrite Nat.add_1_r. simpl.
  rewrite nth_error_app2 by lia. rewrite Nat.sub_diag. reflexivity.
Qed.

Lemma update_row_spec (now : string) (fs : list SetItem) (vs : list pval) (r r' : TaskRow) :
  update_row now fs vs r = Some r' ->
  exists asg, eval_items now vs r fs = Some asg /\
    forall c, r' c = match assoc_val c (asg ++ [("updated_at", VTime now)]) with
                     | Some v => v | None => r c end.
Proof.
  unfold update_row. destruct (eval_items now vs r fs) as [asg|]; [|discriminate].
  destruct (not_null_ok _); [|discriminate].
  intros H. injection H as <-. exists asg. split; reflexivity.
Qed.

Lemma patch_update_effect (S2N : string -> jsnum) (now idp : string) (b : TaskBody)
    (fs : list SetItem) (vs : list pval) (r r' : TaskRow) :
  patch_task S2N idp b = PatchSql fs vs ->
  update_row now fs vs r = Some r' ->
    r' "id" = r "id" /\ r' "created_at" = r "created_at" /\ r' "updated_at" = VTime now /\
    r' "title" = match patch_title b with Some t => VText t | None => r "title" end /\
    r' "assignee" = match patch_assignee b with
                    | Some a => VText (if String.eqb a "" then "Unassigned" else a)
                    | None => r "assignee" end /\
    r' "status" = match patch_status b with Some s => VText s | None => r "status" end /\
    r' "priority" = match patch_priority b with Some p => VText p | None => r "priority" end /\
    r' "deadline" = (if deadline_given b
                     then match patch_deadline b with Some d => VDate d | None => VNull end
                     else r "deadline") /\
    r' "sort_index" = match patch_sort_index S2N b with Some n => VInt n | None => r "sort_index" end /\
    r' "responded_at" = (if is_status (patch_status b) "IN_PROGRESS"
                         then match r "responded_at" with VNull => VTime now | v => v end
                         else r "responded_at") /\
    r' "completed_at" = match patch_status b with
                        | Some s => if String.eqb s "DONE" then VTime now else VNull
                        | None => r "completed_at" end.
Proof.
  intros Hp Hu.
  destruct (update_row_spec now fs vs r r' Hu) as (asg & Hev & Hc).
  rewrite !Hc. clear Hu Hc.
  unfold patch_task in Hp. destruct (parseTaskIdParam S2N idp) as [id|]; [|discriminate].
  patch_cases2 Hp b; injection Hp as <- <-; simpl in Hev;
  repeat match type of Hev with
         | context[if int4_ok ?z then _ else _] => destruct (int4_ok z)
         | context[pg_date ?d] =>
             let E := fresh "E" in
             destruct (pg_date d) eqn:E; [apply pg_date_id in E; subst|]
         end; simpl in Hev; try discriminate Hev; injection Hev as <-; simpl; repeat split; reflexivity.
Qed.

Lemma Forall2_same {A : Type} (R : A -> A -> Prop) (l : list A) :
  (forall x, R x x) -> Forall2 R l l.
Proof. intros HR. induction l; constructor; auto. Qed.

Lemma Forall2_weaken {A B : Type} (R R' : A -> B -> Prop) (l : list A) (l' : list B) :
  (forall x y, R x y -> R' x y) -> Forall2 R l l' -> Forall2 R' l l'.
Proof. intros HR H. induction H; constructor; auto. Qed.

Lemma Forall_Forall2 {A : Type} (P : A -> Prop) (R : A -> A -> Prop) (l l' : list A) :
  (forall x y, P x -> R x y -> P y) -> Forall P l -> Forall2 R l l' -> Forall P l'.
Proof. intros HR HP H. induction H; inversion HP; subst; constructor; eauto. Qed.

(** Each row after a PATCH is the row before it or, when it has the id, its update. *)
Lemma patch_handler_table (S2N : string -> jsnum) (now idp : string) (b : TaskBody)
    (tbl : list TaskRow) :
  Forall2 (fun x y => y = x \/ exists id fs vs, parseTaskIdParam S2N idp = Some id /\
             row_has_id id x = true /\ patch_task S2N idp b = PatchSql fs vs /\
             update_row now fs vs x = Some y)
          tbl (snd (patch_handler S2N now idp b tbl)) /\
  match fst (patch_handler S2N now idp b tbl) with
  | TRow _ _ => True
  | _ => snd (patch_handler S2N now idp b tbl) = tbl
  end.
Proof.
  unfold patch_handler. destruct (patch_task S2N idp b) as [m|fs vs] eqn:Ep.
  { simpl. split; [apply Forall2_same; auto|reflexivity]. }
  destruct (patch_task_sql S2N idp b fs vs Ep) as (id & Eid & Hp & _ & Hd).
  rewrite exec_update_eq, Hd, Hp.
  destruct (negb (int8_ok id)).
  { simpl. split; [apply Forall2_same; auto|reflexivity]. }
  destruct (fold_right (update_step now fs vs id) (Some ([], [])) tbl) as [[t0 ret]|] eqn:F.
  2: { simpl. split; [apply Forall2_same; auto|reflexivity]. }
  destruct (update_fold_rows now fs vs id tbl t0 ret F) as (HF & Hn & _).
  assert (HF' : Forall2 (fun x y => y = x \/ exists id0 fs0 vs0,
             parseTaskIdParam S2N idp = Some id0 /\ row_has_id id0 x = true /\
             PatchSql fs vs = PatchSql fs0 vs0 /\ update_row now fs0 vs0 x = Some y) tbl t0).
  { refine (Forall2_weaken _ _ _ _ _ HF). intros x y Hxy.
    destruct Hxy as [[_ E]|[Ex Ux]]; [left; exact E|right; exists id, fs, vs; auto]. }
  destruct ret as [|x ret]; simpl; split; auto.
Qed.

Lemma patch_row_returned (S2N : string -> jsnum) (now idp : string) (b : TaskBody)
    (tbl tbl' : list TaskRow) (r' : TaskRow) :
  patch_handler S2N now idp b tbl = (TRow 200 r', tbl') ->
  exists fs vs id r, patch_task S2N idp b = PatchSql fs vs /\
    parseTaskIdParam S2N idp = Some id /\
    In r tbl /\ row_has_id id r = true /\ update_row now fs vs r = Some r'.
Proof.
  unfold patch_handler. destruct (patch_task S2N idp b) as [m|fs vs] eqn:Ep; [discriminate|].
  destruct (patch_task_sql S2N idp b fs vs Ep) as (id & Eid & Hp & _ & Hd).
  rewrite exec_update_eq, Hd, Hp.
  destruct (negb (int8_ok id)); [discriminate|].
  destruct (fold_right (update_step now fs vs id) (Some ([], [])) tbl) as [[t0 ret]|] eqn:F;
    [|discriminate].
  destruct ret as [|x ret]; [discriminate|].
  intros H. injection H as -> _.
  destruct (update_fold_rows now fs vs id tbl t0 (r' :: ret) F) as (_ & _ & Hr).
  destruct (Hr r' ret eq_refl) as (r & ? & ? & ?).
  exists fs, vs, id, r. auto.
Qed.

Lemma post_handler_created (S2N : string -> jsnum) (js_now db_now : string) (nid : Z)
    (b : TaskBody) (tbl tbl' : list TaskRow) (code : nat) (r : TaskRow) :
  post_handler S2N js_now db_now nid b tbl = (TRow code r, tbl') ->
  code = 201 /\ tbl' = (tbl ++ [r])%list /\ existsb (row_has_id nid) tbl = false /\
  r "id" = VInt nid /\ post_title b <> "" /\ r "title" = VText (post_title b) /\
  r "status" = VText (post_status b) /\ r "priority" = VText (post_priority b) /\
  r "responded_at" = (if String.eqb (post_status b) "IN_PROGRESS" then VTime js_now else VNull) /\
  r "completed_at" = (if String.eqb (post_status b) "DONE" then VTime js_now else VNull) /\
  match parseIntBody S2N (b_sort_index b) with
  | Some n => r "sort_index" = VInt n
  | None => exists n, next_sort (post_status b) tbl = Some n /\ r "sort_index" = VInt n
  end.
Proof.
  unfold post_handler. cbv zeta.
  destruct (String.eqb (post_title b) "") eqn:Et; [discriminate|].
  apply String.eqb_neq in Et.
  destruct (parseIntBody S2N (b_sort_index b)) as [n|].
  - destruct (match parseTaskDeadline (b_deadline b) with
              | Some d => option_map VDate (pg_date d) | None => Some VNull end) as [dv|];
      [|discriminate].
    destruct (negb (int4_ok n) || existsb (row_has_id nid) tbl) eqn:Ec; [discriminate|].
    apply orb_false_iff in Ec. destruct Ec as [_ Ec].
    intros H. injection H as <- <- <-. simpl.
    destruct (String.eqb (post_status b) "IN_PROGRESS"), (String.eqb (post_status b) "DONE");
      repeat split; auto.
  - destruct (next_sort (post_status b) tbl) as [n|] eqn:En; [|discriminate].
    destruct (match parseTaskDeadline (b_deadline b) with
              | Some d => option_map VDate (pg_date d) | None => Some VNull end) as [dv|];
      [|discriminate].
    destruct (negb (int4_ok n) || existsb (row_has_id nid) tbl) eqn:Ec; [discriminate|].
    apply orb_false_iff in Ec. destruct Ec as [_ Ec].
    intros H. injection H as <- <- <-. simpl.
    destruct (String.eqb (post_status b) "IN_PROGRESS"), (String.eqb (post_status b) "DONE");
      repeat split; eauto.
Qed.

Lemma post_handler_table (S2N : string -> jsnum) (js_now db_now : string) (nid : Z)
    (b : TaskBody) (tbl : list TaskRow) :
  match post_handler S2N js_now db_now nid b tbl with
  | (TRow _ r, tbl') => tbl' = (tbl ++ [r])%list
  | (_, tbl') => tbl' = tbl
  end.
Proof.
  destruct (post_handler S2N js_now db_now nid b tbl) as [resp tbl'] eqn:E.
  destruct resp as [m| | |code r]; revert E; unfold post_handler; cbv zeta;
    repeat match goal with |- context[match ?x with _ => _ end] => destruct x end;
    intros E; first [discriminate E | injection E; intros; subst; reflexivity].
Qed.

Lemma post_status_cases (b : TaskBody) :
  post_status b = "TODO" \/ post_status b = "IN_PROGRESS" \/ post_status b = "DONE".
Proof.
  unfold post_status. destruct (parseTaskStatus_cases (b_status b)) as [E|[E|[E|E]]];
    rewrite E; simpl; auto.
Qed.

Lemma post_priority_cases (b : TaskBody) :
  post_priority b = "low" \/ post_priority b = "medium" \/ post_priority b = "high".
Proof.
  unfold post_priority. destruct (parseTaskPriority_cases (b_priority b)) as [E|[E|[E|E]]];
    rewrite E; simpl; auto.
Qed.

Lemma max_sort_ge (s : string) (tbl : list TaskRow) (x : TaskRow) (k : Z) :
  In x tbl -> x "status" = VText s -> x "sort_index" = VInt k ->
  exists m, max_sort s tbl = Some m /\ (k <= m)%Z.
Proof.
  induction tbl as [|y tbl IH]; simpl; [tauto|].
  intros [<-|Hin] Hs Hk.
  - rewrite Hs, Hk, String.eqb_refl.
    destruct (max_sort s tbl) as [m|]; eexists; split; eauto; lia.
  - destruct (IH Hin Hs Hk) as (m & Em & Hm). rewrite Em.
    destruct (y "status"), (y "sort_index"); try (exists m; split; auto; fail).
    destruct (String.eqb s0 s); [|exists m; auto].
    eexists; split; [reflexivity|lia].
Qed.

Lemma next_sort_gt (s : string) (tbl : list TaskRow) (n : Z) :
  next_sort s tbl = Some n ->
  forall x k, In x tbl -> x "status" = VText s -> x "sort_index" = VInt k -> (k < n)%Z.
Proof.
  unfold next_sort. intros H x k Hin Hs Hk.
  destruct (max_sort_ge s tbl x k Hin Hs Hk) as (m & Em & Hm).
  rewrite Em in H. destruct (int4_ok (m + 1)); [|discriminate].
  injection H as <-. lia.
Qed.

Lemma task_inv_patch (S2N : string -> jsnum) (now idp : string) (b : TaskBody)
    (fs : list SetItem) (vs : list pval) (x y : TaskRow) :
  patch_task S2N idp b = PatchSql fs vs -> update_row now fs vs x = Some y ->
  task_inv x -> task_inv y.
Proof.
  intros Hp Hu Hx.
  destruct (patch_update_effect S2N now idp b fs vs x y Hp Hu)
    as (_ & _ & _ & _ & _ & Hs & _ & _ & _ & Hr & Hc).
  unfold task_inv in *. rewrite Hs, Hr, Hc.
  destruct (patch_status_cases b) as [E|[E|[E|E]]]; rewrite E; simpl.
  - exact Hx.
  - split; [split; intros; congruence|intros; congruence].
  - split; [split; intros; congruence|].
    intros _. destruct (x "responded_at"); congruence.
  - split; [split; intros; congruence|intros; congruence].
Qed.

Lemma task_inv_post (S2N : string -> jsnum) (js_now db_now : string) (nid : Z)
    (b : TaskBody) (tbl tbl' : list TaskRow) (code : nat) (r : TaskRow) :
  post_handler S2N js_now db_now nid b tbl = (TRow code r, tbl') -> task_inv r.
Proof.
  intros H.
  destruct (post_handler_created S2N js_now db_now nid b tbl tbl' code r H)
    as (_ & _ & _ & _ & _ & _ & Hs & _ & Hr & Hc & _).
  unfold task_inv. rewrite Hs, Hr, Hc.
  destruct (post_status_cases b) as [E|[E|E]]; rewrite E; simpl;
    split; try split; intros; congruence.
Qed.

(** Case mapping and trimming. *)
Lemma to_upper_to_lower (c : ascii) : to_upper (to_lower c) = to_upper c.
Proof. destruct c as [[] [] [] [] [] [] [] []]; reflexivity. Qed.

Lemma to_lower_to_upper (c : ascii) : to_lower (to_upper c) = to_lower c.
Proof. destruct c as [[] [] [] [] [] [] [] []]; reflexivity. Qed.

Lemma is_space_to_lower (c : ascii) : is_space (to_lower c) = is_space c.
Proof. destruct c as [[] [] [] [] [] [] [] []]; reflexivity. Qed.

Lemma is_space_to_upper (c : ascii) : is_space (to_upper c) = is_space c.
Proof. destruct c as [[] [] [] [] [] [] [] []]; reflexivity. Qed.

Lemma str_map_list (f : ascii -> ascii) (g : string -> string)
    (Hg : forall c s, g (String c s) = String (f c) (g s)) (Hg0 : g "" = "") (s : string) :
  list_ascii_of_string (g s) = map f (list_ascii_of_string s).
Proof.
  induction s as [|c s IH]; [rewrite Hg0; reflexivity|]. rewrite Hg. simpl. rewrite IH. reflexivity.
Qed.

Lemma str_map_of_list (f : ascii -> ascii) (g : string -> string)
    (Hg : forall c s, g (String c s) = String (f c) (g s)) (Hg0 : g "" = "") (l : list ascii) :
  g (string_of_list_ascii l) = string_of_list_ascii (map f l).
Proof.
  induction l as [|c l IH]; [exact Hg0|]. simpl. rewrite Hg, IH. reflexivity.
Qed.

Lemma drop_while_map (p : ascii -> bool) (f : ascii -> ascii) (Hf : forall c, p (f c) = p c)
    (l : list ascii) : drop_while p (map f l) = map f (drop_while p l).
Proof. induction l as [|c l IH]; simpl; [reflexivity|]. rewrite Hf. destruct (p c); auto. Qed.

Lemma strip_map (p : ascii -> bool) (f : ascii -> ascii) (g : string -> string)
    (Hf : forall c, p (f c) = p c)
    (Hg : forall c s, g (String c s) = String (f c) (g s)) (Hg0 : g "" = "") (s : string) :
  strip p (g s) = g (strip p s).
Proof.
  unfold strip. rewrite (str_map_list f g Hg Hg0), (str_map_of_list f g Hg Hg0).
  rewrite drop_while_map by exact Hf. rewrite <- map_rev, drop_while_map by exact Hf.
  rewrite map_rev. reflexivity.
Qed.

Lemma drop_while_app_keep (p : ascii -> bool) (l m : list ascii) :
  drop_while p l <> [] -> drop_while p (l ++ m) = (drop_while p l ++ m)%list.
Proof.
  induction l as [|c l IH]; simpl; [tauto|]. destruct (p c); auto.
Qed.

Lemma drop_while_app_all (p : ascii -> bool) (l m : list ascii) :
  drop_while p l = [] -> drop_while p (l ++ m) = drop_while p m.
Proof.
  induction l as [|c l IH]; simpl; [auto|]. destruct (p c); [auto|discriminate].
Qed.

Lemma js_trim_pad (s : string) : js_trim (String " " (s ++ " ")) = js_trim s.
Proof.
  unfold js_trim, strip. simpl list_ascii_of_string. rewrite list_ascii_app. simpl.
  set (l := list_ascii_of_string s).
  destruct (drop_while is_space l) as [|c d] eqn:E.
  - rewrite (drop_while_app_all _ _ _ E). reflexivity.
  - rewrite (drop_while_app_keep _ _ _ ltac:(rewrite E; discriminate)), E.
    rewrite rev_app_distr. reflexivity.
Qed.

Lemma str_lower_cons (c : ascii) (s : string) : str_lower (String c s) = String (to_lower c) (str_lower s).
Proof. reflexivity. Qed.

Lemma str_upper_cons (c : ascii) (s : string) : str_upper (String c s) = String (to_upper c) (str_upper s).
Proof. reflexivity. Qed.

Lemma str_upper_lower (s : string) : str_upper (str_lower s) = str_upper s.
Proof. induction s as [|c s IH]; simpl; [reflexivity|]. rewrite IH, to_upper_to_lower. reflexivity. Qed.

Lemma str_lower_upper (s : string) : str_lower (str_upper s) = str_lower s.
Proof. induction s as [|c s IH]; simpl; [reflexivity|]. rewrite IH, to_lower_to_upper. reflexivity. Qed.

Lemma js_trim_lower (s : string) : js_trim (str_lower s) = str_lower (js_trim s).
Proof. apply strip_map with (f := to_lower); [exact is_space_to_lower|reflexivity|reflexivity]. Qed.

Lemma js_trim_upper (s : string) : js_trim (str_upper s) = str_upper (js_trim s).
Proof. apply strip_map with (f := to_upper); [exact is_space_to_upper|reflexivity|reflexivity]. Qed.

Lemma str_lower_empty (s : string) : String.eqb (str_lower s) "" = String.eqb s "".
Proof. destruct s; reflexivity. Qed.

Lemma str_upper_empty (s : string) : String.eqb (str_upper s) "" = String.eqb s "".
Proof. destruct s; reflexivity. Qed.

Lemma pad_nonempty (s : string) : String.eqb (String " " (s ++ " ")) "" = false.
Proof. reflexivity. Qed.

(** *** Extra properties of the task handlers *)





(** X14.  PATCH [/api/tasks/:id] touches only the rows with the parsed id: it
    neither adds nor removes rows, keeps every other row as it is, and
    changes no row at all when it does not answer with a row (400, 404,
    or a failed query). *)
Theorem patch_changes_only_that_row (S2N : string -> jsnum) (now idp : string) (b : TaskBody)
    (tbl : list TaskRow) :
  Forall2 (fun x y => y = x \/ exists id, parseTaskIdParam S2N idp = Some id /\ row_has_id id x = true)
          tbl (snd (patch_handler S2N now idp b tbl)) /\
  match fst (patch_handler S2N now idp b tbl) with
  | TRow _ _ => True
  | _ => snd (patch_handler S2N now idp b tbl) = tbl
  end.
Proof.
  destruct (patch_handler_table S2N now idp b tbl) as [HF Hn]. split; [|exact Hn].
  refine (Forall2_weaken _ _ _ _ _ HF). intros x y [E|(id & fs & vs & Eid & Hx & _ & _)].
  - left; exact E.
  - right; exists id; auto.
Qed.

(** X15.  The task board keeps its timestamps consistent with the statuses: if
    every row has [completed_at] set exactly when DONE and [responded_at]
    set when IN_PROGRESS, so does every row after a PATCH or a POST. *)
Theorem tasks_timestamps_consistent (S2N : string -> jsnum) (now js_now db_now idp : string)
    (nid : Z) (b : TaskBody) (tbl : list TaskRow) (H : Forall task_inv tbl) :
  Forall task_inv (snd (patch_handler S2N now idp b tbl)) /\
  Forall task_inv (snd (post_handler S2N js_now db_now nid b tbl)).
Proof.
  split.
  - destruct (patch_handler_table S2N now idp b tbl) as [HF _].
    refine (Forall_Forall2 _ _ _ _ _ H HF).
    intros x y Hx [E|(id & fs & vs & _ & _ & Hp & Hu)]; [subst; exact Hx|].
    exact (task_inv_patch S2N now idp b fs vs x y Hp Hu Hx).
  - pose proof (post_handler_table S2N js_now db_now nid b tbl) as Ht.
    destruct (post_handler S2N js_now db_now nid b tbl) as [resp tbl'] eqn:E.
    destruct resp as [m| | |code r]; simpl; try (rewrite Ht; exact H).
    rewrite Ht. apply Forall_app. split; [exact H|].
    constructor; [|constructor]. exact (task_inv_post S2N js_now db_now nid b tbl tbl' code r E).
Qed.

Lemma tasks_timestamps_consistent_witness :
  Forall task_inv [sample_task] /\
  Forall task_inv (snd (patch_handler sample_decimal "2024-01-05 10:00:00+00" "7" sample_body_done [sample_task])) /\
  Forall task_inv (snd (post_handler sample_decimal "2024-01-05T10:00:00.000Z" "2024-01-05 10:00:00+00"
                          8 sample_body_done [sample_task])).
Proof.
  assert (Hs : Forall task_inv [sample_task]).
  { constructor; [|constructor]. unfold task_inv, sample_task; cbn.
    split; [split; intros; congruence|intros; congruence]. }
  split; [exact Hs|].
  exact (tasks_timestamps_consistent sample_decimal "2024-01-05 10:00:00+00"
           "2024-01-05T10:00:00.000Z" "2024-01-05 10:00:00+00" "7" 8 sample_body_done
           [sample_task] Hs).
Defined.

(** X16.  POST [/api/tasks]: a created task is appended under a fresh id. It has
    a non-empty title, a status among TODO, IN_PROGRESS and DONE (TODO by
    default) and a priority among low, medium and high (medium by
    default). [responded_at] is set exactly when it is IN_PROGRESS and
    [completed_at] exactly when it is DONE. *)
Theorem post_created_row (S2N : string -> jsnum) (js_now db_now : string) (nid : Z)
    (b : TaskBody) (tbl tbl' : list TaskRow) (code : nat) (r : TaskRow)
    (H : post_handler S2N js_now db_now nid b tbl = (TRow code r, tbl')) :
  code = 201 /\ tbl' = (tbl ++ [r])%list /\ existsb (row_has_id nid) tbl = false /\
  r "id" = VInt nid /\
  (exists t, r "title" = VText t /\ t <> "") /\
  (exists s, r "status" = VText s /\ In s ["TODO"; "IN_PROGRESS"; "DONE"] /\
     (r "responded_at" <> VNull <-> s = "IN_PROGRESS") /\
     (r "completed_at" <> VNull <-> s = "DONE")) /\
  (exists p, r "priority" = VText p /\ In p ["low"; "medium"; "high"]).
Proof.
  destruct (post_handler_created S2N js_now db_now nid b tbl tbl' code r H)
    as (Hc & Ht & Hf & Hid & Hne & Htit & Hs & Hp & Hr & Hco & _).
  repeat split; auto.
  - exists (post_title b); auto.
  - exists (post_status b). rewrite Hr, Hco. split; [exact Hs|].
    destruct (post_status_cases b) as [E|[E|E]]; rewrite E; simpl;
      repeat split; auto; intros; congruence.
  - exists (post_priority b). split; [exact Hp|].
    destruct (post_priority_cases b) as [E|[E|E]]; rewrite E; simpl; auto.
Qed.

Lemma post_created_row_witness :
  let res := post_handler sample_decimal "2024-01-05T10:00:00.000Z" "2024-01-05 10:00:00+00"
               8 sample_body_new [sample_task] in
  let r := match fst res with TRow _ r => r | _ => sample_task end in
  res = (TRow 201 r, snd res) /\
  201 = 201 /\ snd res = ([sample_task] ++ [r])%list /\ existsb (row_has_id 8) [sample_task] = false /\
  r "id" = VInt 8 /\
  (exists t, r "title" = VText t /\ t <> "") /\
  (exists s, r "status" = VText s /\ In s ["TODO"; "IN_PROGRESS"; "DONE"] /\
     (r "responded_at" <> VNull <-> s = "IN_PROGRESS") /\
     (r "completed_at" <> VNull <-> s = "DONE")) /\
  (exists p, r "priority" = VText p /\ In p ["low"; "medium"; "high"]).
Proof.
  intros res r.
  assert (E : res = (TRow 201 r, snd res)) by (vm_compute; reflexivity).
  split; [exact E|].
  exact (post_created_row sample_decimal "2024-01-05T10:00:00.000Z" "2024-01-05 10:00:00+00"
           8 sample_body_new [sample_task] (snd res) 201 r E).
Defined.

(** X17.  POST [/api/tasks]: an explicit [sort_index] is stored as given (after
    [Math.trunc]). Without one, the task gets a sort index greater than the
    sort index of every task that already has its status. *)
Theorem post_sort_index (S2N : string -> jsnum) (js_now db_now : string) (nid : Z)
    (b : TaskBody) (tbl tbl' : list TaskRow) (code : nat) (r : TaskRow)
    (H : post_handler S2N js_now db_now nid b tbl = (TRow code r, tbl')) :
  match parseIntBody S2N (b_sort_index b) with
  | Some n => r "sort_index" = VInt n
  | None => exists k, r "sort_index" = VInt k /\
      forall x k', In x tbl -> x "status" = r "status" -> x "sort_index" = VInt k' -> (k' < k)%Z
  end.
Proof.
  destruct (post_handler_created S2N js_now db_now nid b tbl tbl' code r H)
    as (_ & _ & _ & _ & _ & _ & Hs & _ & _ & _ & Hsi).
  destruct (parseIntBody S2N (b_sort_index b)); [exact Hsi|].
  destruct Hsi as (n & En & Hn). exists n. split; [exact Hn|].
  intros x k' Hin Hx Hk. rewrite Hs in Hx. exact (next_sort_gt _ tbl n En x k' Hin Hx Hk).
Qed.

Lemma post_sort_index_witness :
  let res := post_handler sample_decimal "2024-01-05T10:00:00.000Z" "2024-01-05 10:00:00+00"
               8 sample_body_new [sample_task] in
  let r := match fst res with TRow _ r => r | _ => sample_task end in
  res = (TRow 201 r, snd res) /\ r "sort_index" = VInt 1 /\
  match parseIntBody sample_decimal (b_sort_index sample_body_new) with
  | Some n => r "sort_index" = VInt n
  | None => exists k, r "sort_index" = VInt k /\
      forall x k', In x [sample_task] -> x "status" = r "status" -> x "sort_index" = VInt k' -> (k' < k)%Z
  end.
Proof.
  intros res r.
  assert (E : res = (TRow 201 r, snd res)) by (vm_compute; reflexivity).
  split; [exact E|]. split; [vm_compute; reflexivity|].
  exact (post_sort_index sample_decimal "2024-01-05T10:00:00.000Z" "2024-01-05 10:00:00+00"
           8 sample_body_new [sample_task] (snd res) 201 r E).
Defined.

